(** * external-idp-app: the bearer-token verifier, the OAuth2/OIDC session
    flow, the signup validators and the gateway's error translation.

    The TypeScript sources are embedded shallowly.  Handlers thread the state
    they touch (key cache, browser session, session store, logger output)
    explicitly and return the response they send.  Third-party packages
    (jsonwebtoken, jwk-to-pem, axios, openid-client, express-session, the
    Cognito SDK) appear as operations of an environment class or as the
    outcome the environment hands back. *)

From Stdlib Require Import Ascii.
From stdpp Require Import gmap strings list pretty.

Open Scope string_scope.
Open Scope list_scope.

(** ** JavaScript values shared by all modules *)

(** A thrown value: every error the handlers inspect carries a [name] and a
    [message]. *)
Record Exn := mkExn { exn_name : string; exn_message : string }.

#[export] Instance Exn_eq_dec : EqDecision Exn.
Proof. solve_decision. Defined.

(** [new Error(msg)] *)
Definition Error (msg : string) : Exn := mkExn "Error" msg.
Definition TypeError (msg : string) : Exn := mkExn "TypeError" msg.

(** winston's logger: the handlers only ever append. *)
Inductive LogLevel := LInfo | LError.

Record LogEntry := mkLog
  { log_level : LogLevel; log_text : string; log_detail : option Exn }.

#[export] Instance LogLevel_eq_dec : EqDecision LogLevel.
Proof. solve_decision. Defined.

#[export] Instance LogEntry_eq_dec : EqDecision LogEntry.
Proof. solve_decision. Defined.

Definition Log := list LogEntry.

Definition logger_info (text : string) (l : Log) : Log :=
  l ++ [mkLog LInfo text None].
Definition logger_error (text : string) (e : Exn) (l : Log) : Log :=
  l ++ [mkLog LError text (Some e)].

Module Js.

(** [!s] is true of the empty string; absent values are [None]. *)
Definition truthy (s : string) : bool := bool_decide (s ≠ "").

Definition truthy_opt (o : option string) : bool :=
  match o with
  | Some s => truthy s
  | None => false
  end.

(** [s.split(sep)] for a one-character separator: [k] occurrences of the
    separator give [k + 1] parts, empty ones included. *)
Fixpoint split (sep : Ascii.ascii) (s : string) : list string :=
  match s with
  | EmptyString => [EmptyString]
  | String c rest =>
      if bool_decide (c = sep) then EmptyString :: split sep rest
      else match split sep rest with
           | p :: ps => String c p :: ps
           | [] => [String c EmptyString]
           end
  end.

(** [parts.join(sep)], the inverse of [split]. *)
Fixpoint join (sep : Ascii.ascii) (parts : list string) : string :=
  match parts with
  | [] => EmptyString
  | [p] => p
  | p :: ps => p +:+ String sep (join sep ps)
  end.

Fixpoint contains (c : Ascii.ascii) (s : string) : bool :=
  match s with
  | EmptyString => false
  | String d rest => bool_decide (d = c) || contains c rest
  end.

End Js.

(** ** middleware/auth.middleware.ts *)

Module AuthMiddleware.

Record JWK := mkJWK
  { jwk_alg : string; jwk_e : string; jwk_kid : string;
    jwk_kty : string; jwk_n : string; jwk_use : string }.

(** The members the [DecodedToken] interface names.  The interface is a cast:
    the payload [jwt.verify] hands over can lack any of them. *)
Record DecodedToken := mkDecodedToken
  { sub : option string; email : option string; cognito_username : option string;
    exp : option Z; iat : option Z }.

(** [header.kid] as the middleware uses it: whether the value is truthy, and
    the property key it is converted to when it indexes [pems].  A string is
    falsy only when it is empty, and is its own key. *)
Record Kid := mkKid { kid_truthy : bool; kid_key : string }.

Definition kid_string (s : string) : Kid := mkKid (Js.truthy s) s.

(** What [jwt.decode(token, { complete: true })] exposes of the header. *)
Record JwtHeader := mkJwtHeader { hdr_alg : string; hdr_kid : option Kid }.

Record CompleteJwt := mkCompleteJwt
  { jwt_header : JwtHeader; jwt_payload : DecodedToken }.

(** [pems] is a plain object, [{}]: beside the entries assigned to it, every
    member of [Object.prototype] is read through it. *)
Definition object_prototype_members : list string :=
  [ "constructor"; "__defineGetter__"; "__defineSetter__"; "hasOwnProperty";
    "__lookupGetter__"; "__lookupSetter__"; "isPrototypeOf";
    "propertyIsEnumerable"; "toString"; "valueOf"; "__proto__";
    "toLocaleString" ].

(** What [this.pems[key]] evaluates to when it is not [undefined]: a PEM that
    was assigned under the key, or the inherited member of that name, a
    function or, for [__proto__], the prototype object. *)
Inductive KeyMaterial :=
| OwnPem (pem : string)
| Inherited (member : string).

(** [this.pems[key]], with the own entries in [ps]. *)
Definition pems_get (ps : gmap string string) (key : string) : option KeyMaterial :=
  match ps !! key with
  | Some pem => Some (OwnPem pem)
  | None =>
      if bool_decide (key ∈ object_prototype_members) then Some (Inherited key)
      else None
  end.

(** [this.pems[key] = pem] for a string [pem]: an own entry is created or
    overwritten, except under [__proto__], where the assignment reaches the
    prototype's setter, which ignores a string. *)
Definition pems_set (ps : gmap string string) (key pem : string)
    : gmap string string :=
  if bool_decide (key = "__proto__") then ps else <[key := pem]> ps.

(** An inherited member is a function or an object, so truthy. *)
Definition key_truthy (key : KeyMaterial) : bool :=
  match key with
  | OwnPem pem => Js.truthy pem
  | Inherited _ => true
  end.

(** How a call [jwt.verify(token, key, callback)] ends: the callback is
    called with an error or with the decoded payload, the call throws, or it
    returns and the callback is never called. *)
Inductive Verdict :=
| Calls (result : Exn + DecodedToken)
| Throws (e : Exn)
| NeverCalls.

(** The packages the middleware calls.  [jwkToPem kty n e] throws on a key it
    cannot convert; [jwt_decode] throws, is [null], or is the decoded token;
    [jwt_verify now token key] is the verdict of [jwt.verify] at clock
    [now]. *)
Class Packages := mkPackages
  { jwkToPem : string → string → string → Exn + string;
    jwt_decode : string → Exn + option CompleteJwt;
    jwt_verify : Z → string → KeyMaterial → Verdict }.

(** The body of [response.data] as far as [initializePems] reads it: the
    [keys] member, absent in a document that has none. *)
Record JwksDocument := mkJwksDocument { doc_keys : option (list JWK) }.

(** [await axios.get(this.jwksUrl)] either rejects or resolves. *)
Definition AxiosResult : Type := Exn + JwksDocument.

(** The instance: the own entries of [pems] and what it has logged. *)
Record State := mkState { pems : gmap string string; mw_log : Log }.

Record AuthRequest := mkAuthRequest
  { authorization : option string;
    user : option DecodedToken;
    accessToken : option string }.

(** The middleware answers, calls [next()], or does neither. *)
Inductive Outcome :=
| Respond (status : Z) (error : string)
| Next (req : AuthRequest)
| NoAnswer.

Section WithPackages.
Context `{Packages}.

(** [jwks.forEach((jwk) => { ...; this.pems[jwk.kid] = pem })]: each key is
    stored as soon as it is converted; a throw leaves the loop with the keys
    stored so far. *)
Fixpoint forEach_jwk (jwks : list JWK) (ps : gmap string string)
  : gmap string string * option Exn :=
  match jwks with
  | [] => (ps, None)
  | jwk :: rest =>
      match jwkToPem (jwk_kty jwk) (jwk_n jwk) (jwk_e jwk) with
      | inl e => (ps, Some e)
      | inr pem => forEach_jwk rest (pems_set ps (jwk_kid jwk) pem)
      end
  end.

Definition initializePems (response : AxiosResult) (st : State) : State :=
  match response with
  | inl e => mkState (pems st) (logger_error "Error loading JWKS keys:" e (mw_log st))
  | inr doc =>
      match doc_keys doc with
      | None =>
          mkState (pems st)
            (logger_error "Error loading JWKS keys:"
               (TypeError "Cannot read properties of undefined (reading 'forEach')")
               (mw_log st))
      | Some jwks =>
          match forEach_jwk jwks (pems st) with
          | (ps, Some e) =>
              mkState ps (logger_error "Error loading JWKS keys:" e (mw_log st))
          | (ps, None) =>
              mkState ps (logger_info "JWKS keys loaded successfully" (mw_log st))
          end
      end
  end.

(** [new AuthMiddleware()]: an empty [pems], then the one load. *)
Definition constructor (response : AxiosResult) : State :=
  initializePems response (mkState ∅ []).

Definition extractToken (authHeader : option string) : option string :=
  match authHeader with
  | None => None
  | Some h =>
      if negb (Js.truthy h) then None
      else
        let parts := Js.split " "%char h in
        if bool_decide (length parts ≠ 2) || bool_decide (parts !! 0 ≠ Some "Bearer")
        then None
        else parts !! 1
  end.

(** The [catch] of [authenticate]. *)
Definition authentication_failed (st : State) (error : Exn) : State * Outcome :=
  (mkState (pems st) (logger_error "Authentication error:" error (mw_log st)),
   Respond 500 "Authentication failed").

(** [now] is the clock [jwt.verify] reads.  A throw of [jwt.decode] or of
    [jwt.verify] reaches the [catch]; when [jwt.verify] never calls back,
    the request is neither answered nor passed on. *)
Definition authenticate (now : Z) (st : State) (req : AuthRequest)
  : State * Outcome :=
  match extractToken (authorization req) with
  | None => (st, Respond 401 "No token provided")
  | Some token =>
      if negb (Js.truthy token) then (st, Respond 401 "No token provided")
      else
        match jwt_decode token with
        | inl error => authentication_failed st error
        | inr None => (st, Respond 401 "Invalid token")
        | inr (Some decodedToken) =>
            match hdr_kid (jwt_header decodedToken) with
            | None => (st, Respond 401 "Invalid token")
            | Some kid =>
                if negb (kid_truthy kid) then (st, Respond 401 "Invalid token")
                else
                  match pems_get (pems st) (kid_key kid) with
                  | None => (st, Respond 401 "Invalid token")
                  | Some key =>
                      if negb (key_truthy key)
                      then (st, Respond 401 "Invalid token")
                      else
                        match jwt_verify now token key with
                        | Calls (inl err) =>
                            (mkState (pems st)
                               (logger_error "Token verification error:" err
                                  (mw_log st)),
                             Respond 401 "Token verification failed")
                        | Calls (inr decoded) =>
                            (st, Next (mkAuthRequest (authorization req)
                                         (Some decoded) (Some token)))
                        | Throws error => authentication_failed st error
                        | NeverCalls => (st, NoAnswer)
                        end
                  end
            end
        end
  end.

(** The [catch] of [optionalAuthenticate]: the error is logged and the
    request passed on as it came. *)
Definition optional_failed (st : State) (req : AuthRequest) (error : Exn)
    : State * Outcome :=
  (mkState (pems st)
     (logger_error "Optional authentication error:" error (mw_log st)),
   Next req).

Definition optionalAuthenticate (now : Z) (st : State) (req : AuthRequest)
  : State * Outcome :=
  match extractToken (authorization req) with
  | None => (st, Next req)
  | Some token =>
      if negb (Js.truthy token) then (st, Next req)
      else
        match jwt_decode token with
        | inl error => optional_failed st req error
        | inr None => (st, Next req)
        | inr (Some decodedToken) =>
            match hdr_kid (jwt_header decodedToken) with
            | None => (st, Next req)
            | Some kid =>
                if negb (kid_truthy kid) then (st, Next req)
                else
                  match pems_get (pems st) (kid_key kid) with
                  | None => (st, Next req)
                  | Some key =>
                      if negb (key_truthy key) then (st, Next req)
                      else
                        match jwt_verify now token key with
                        | Calls (inl _) => (st, Next req)
                        | Calls (inr decoded) =>
                            (st, Next (mkAuthRequest (authorization req)
                                         (Some decoded) (Some token)))
                        | Throws error => optional_failed st req error
                        | NeverCalls => (st, NoAnswer)
                        end
                  end
            end
        end
  end.

End WithPackages.

End AuthMiddleware.

(** ** Code that mutates state and may throw *)

(** A computation over a state [S] either returns or throws; a throw keeps
    the state reached so far, as assignments made before a JavaScript throw
    do. *)
Definition M (S A : Type) : Type := S → (Exn + A) * S.

Definition ret {S A} (a : A) : M S A := λ s, (inr a, s).

Definition bind {S A B} (m : M S A) (k : A → M S B) : M S B :=
  λ s, match m s with
       | (inl e, s') => (inl e, s')
       | (inr a, s') => k a s'
       end.

Definition throw {S A} (e : Exn) : M S A := λ s, (inl e, s).

(** [try { m } catch (error) { h error }] *)
Definition try_catch {S A} (m : M S A) (h : Exn → M S A) : M S A :=
  λ s, match m s with
       | (inl e, s') => h e s'
       | (inr a, s') => (inr a, s')
       end.

(** A call whose outcome the environment decides. *)
Definition lift {S A} (r : Exn + A) : M S A :=
  match r with
  | inl e => throw e
  | inr a => ret a
  end.

Declare Scope eff_scope.
Delimit Scope eff_scope with eff.
Notation "x <- m ;; k" := (bind m (λ x, k))
  (at level 100, m at next level, right associativity) : eff_scope.
Notation "m ;;; k" := (bind m (λ _, k))
  (at level 100, right associativity) : eff_scope.

(** ** config/env.config.ts: the settings the OAuth flow reads *)

Record Config := mkConfig
  { aws_region : string;
    cognito_userPoolId : string;
    cognito_clientId : string;
    cognito_clientSecret : string;
    oauth_cognitoDomain : string;
    oauth_callbackUrl : string;
    oauth_logoutUrl : string }.

(** ** The browser flow: what a handler can touch and what it can send *)

Module Http.

(** [userinfo] claims as the views show them. *)
Record UserInfo := mkUserInfo
  { ui_sub : string; ui_email : string; ui_username : string }.

(** [interface OAuthSession]: every member optional. *)
Record OAuthSession := mkOAuthSession
  { nonce : option string;
    state : option string;
    userInfo : option UserInfo;
    accessToken : option string;
    idToken : option string;
    refreshToken : option string }.

(** [req.session]: the session id and the [oauth] member. *)
Record Session := mkSession { sess_id : string; oauth : option OAuthSession }.

Inductive View :=
| HomeView (isAuthenticated : bool) (shown : option UserInfo)
| ErrorView (message error : string)
| ProfileView (shown : UserInfo) (shownAccessToken shownIdToken : option string).

Inductive Response :=
| Redirect (url : string)
| Render (status : Z) (view : View).

(** What leaves the handler, in the order it happens. *)
Inductive Event :=
| Logged (entry : LogEntry)
| TokenRequest (code redirect_uri : string)
| UserinfoRequest (access_token : string)
| StoreDestroy (sid : string)
| Sent (response : Response).

(** The state a handler runs in: [req.session] (absent once destroyed), what
    the session store holds under each session id, and the events so far. *)
Record St := mkSt
  { req_session : option Session;
    store : gmap string (option OAuthSession);
    events : list Event }.

(** Handlers of the browser flow run over [St]. *)
Definition Eff (A : Type) : Type := M St A.

Definition emit (ev : Event) : Eff unit :=
  λ s, (inr tt, mkSt (req_session s) (store s) (events s ++ [ev])).

(** [req.session.oauth], read with optional chaining. *)
Definition get_oauth : Eff (option OAuthSession) :=
  λ s, (inr (req_session s ≫= oauth), s).

(** [req.session.oauth = o] *)
Definition set_oauth (o : OAuthSession) : Eff unit :=
  λ s, match req_session s with
       | Some sess =>
           (inr tt, mkSt (Some (mkSession (sess_id sess) (Some o))) (store s) (events s))
       | None =>
           (inl (TypeError "Cannot set properties of undefined (setting 'oauth')"), s)
       end.

Definition logger_error (text : string) (e : Exn) : Eff unit :=
  emit (Logged (mkLog LError text (Some e))).
Definition logger_info (text : string) : Eff unit :=
  emit (Logged (mkLog LInfo text None)).

Definition res_redirect (url : string) : Eff unit := emit (Sent (Redirect url)).
Definition res_render (status : Z) (v : View) : Eff unit :=
  emit (Sent (Render status v)).

End Http.


(** ** The openid-client package, as far as the service drives it *)

Module OpenidClient.
Import Http.

Record TokenSet := mkTokenSet
  { access_token : option string;
    id_token : option string;
    refresh_token : option string }.

(** [client.callbackParams(req)]: the members of the query string that the
    callback logic branches on. *)
Record CallbackParams := mkCallbackParams
  { p_code : option string;
    p_state : option string;
    p_error : option string;
    p_id_token : option string;
    p_access_token : option string }.

Record IdTokenClaims := mkIdTokenClaims
  { claim_sub : string; claim_nonce : option string }.

(** [new issuer.Client({ client_id, client_secret, redirect_uris,
    response_types })] *)
Record Client := mkClient
  { client_id : string;
    client_secret : string;
    redirect_uris : list string;
    response_types : list string }.

(** The identity provider and the parts of the package that talk to it or
    check its cryptography: discovery, the authorization URL, the token
    endpoint, the validation of an ID token's signature, issuer, audience and
    lifetime, the hash claims and the userinfo endpoint. *)
Class Provider := mkProvider
  { discover : string → option Exn;
    authorizationUrl : Client → string → string → string → string;
    grant : Client → string → string → Exn + TokenSet;
    validateJWT : Client → string → Exn + IdTokenClaims;
    checkHashes : string → TokenSet → IdTokenClaims → option Exn;
    userinfo : Client → string → Exn + UserInfo;
    encodeURIComponent : string → string }.

Definition RPError (msg : string) : Exn := mkExn "RPError" msg.
Definition OPError (msg : string) : Exn := mkExn "OPError" msg.

Definition show (o : option string) : string := default "undefined" o.

Section WithProvider.
Context `{Provider}.

(** [validateIdToken(tokenSet, nonce, returnedBy, ...)]: the token must be
    there and valid, its [nonce] claim must be the expected one. *)
Definition validateIdToken (c : Client) (ts : TokenSet) (expected_nonce : string)
    (returnedBy : string) : Eff TokenSet :=
  match id_token ts with
  | None => throw (TypeError "id_token not present in TokenSet")
  | Some jwt =>
      if negb (Js.truthy jwt)
      then throw (TypeError "id_token not present in TokenSet")
      else
        (claims <- lift (validateJWT c jwt) ;;
         if bool_decide (claim_nonce claims ≠ Some expected_nonce)
         then throw (RPError ("nonce mismatch, expected " +:+ expected_nonce
                                +:+ ", got: " +:+ show (claim_nonce claims)))
         else match checkHashes returnedBy ts claims with
              | Some e => throw e
              | None => ret ts
              end)%eff
  end.

(** [new TokenSet(params)] *)
Definition TokenSet_of_params (params : CallbackParams) : TokenSet :=
  mkTokenSet (p_access_token params) (p_id_token params) None.

(** [client.callback(redirectUri, params, { nonce, state })], in the order
    of the package: the checks on [state], the [error] parameter, an ID
    token that came in the redirect, then the exchange of the code and the
    validation of the ID token it returns. *)
Definition client_callback (c : Client) (redirectUri : string)
    (params : CallbackParams) (checks_nonce checks_state : string) : Eff TokenSet :=
  if Js.truthy_opt (p_state params) && negb (Js.truthy checks_state)
  then throw (TypeError "checks.state argument is missing")
  else if negb (Js.truthy_opt (p_state params)) && Js.truthy checks_state
  then throw (RPError "state missing from the response")
  else if bool_decide (p_state params ≠ Some checks_state)
  then throw (RPError ("state mismatch, expected " +:+ checks_state
                         +:+ ", got: " +:+ show (p_state params)))
  else if Js.truthy_opt (p_error params)
  then throw (OPError (show (p_error params)))
  else
    (_ <- (if Js.truthy_opt (p_id_token params)
           then validateIdToken c (TokenSet_of_params params) checks_nonce "authorization"
           else ret (TokenSet_of_params params)) ;;
     match p_code params with
     | Some code =>
         if Js.truthy code
         then
           emit (TokenRequest code redirectUri) ;;;
           tokenset <- lift (grant c code redirectUri) ;;
           validateIdToken c tokenset checks_nonce "token"
         else ret (TokenSet_of_params params)
     | None => ret (TokenSet_of_params params)
     end)%eff.

(** [client.userinfo(accessToken)] *)
Definition client_userinfo (c : Client) (accessToken : option string) : Eff UserInfo :=
  match accessToken with
  | None => throw (TypeError "no access token provided")
  | Some t =>
      if Js.truthy t
      then (emit (UserinfoRequest t) ;;; lift (userinfo c t))%eff
      else throw (TypeError "no access token provided")
  end.

End WithProvider.

End OpenidClient.

(** ** services/oidc.service.ts *)

Module OIDCService.
Import Http OpenidClient.

Record t := mkService { client : option Client; issuerUrl : string }.

Section WithProvider.
Context `{Provider}.
Variable config : Config.

Definition constructor : t :=
  mkService None
    ("https://cognito-idp." +:+ aws_region config +:+ ".amazonaws.com/"
       +:+ cognito_userPoolId config).

Definition initialize (this : t) : Eff t :=
  try_catch
    (match discover (issuerUrl this) with
     | Some e => throw e
     | None =>
         (logger_info "OIDC client initialized successfully" ;;;
          ret (mkService
                 (Some (mkClient (cognito_clientId config) (cognito_clientSecret config)
                          [oauth_callbackUrl config] ["code"]))
                 (issuerUrl this)))%eff
     end)
    (λ error, (logger_error "Failed to initialize OIDC client:" error ;;; throw error)%eff).

Definition getClient (this : t) : Eff Client :=
  match client this with
  | None => throw (Error "OIDC client not initialized")
  | Some c => ret c
  end.

Definition getAuthorizationUrl (this : t) (state nonce : string) : Eff string :=
  match client this with
  | None => throw (Error "OIDC client not initialized")
  | Some c => ret (authorizationUrl c "email openid phone profile" state nonce)
  end.

Definition callback (this : t) (params : CallbackParams) (state nonce : string)
  : Eff TokenSet :=
  match client this with
  | None => throw (Error "OIDC client not initialized")
  | Some c =>
      try_catch
        (client_callback c (oauth_callbackUrl config) params nonce state)
        (λ error, (logger_error "OIDC callback error:" error ;;; throw error)%eff)
  end.

Definition getUserInfo (this : t) (accessToken : option string) : Eff UserInfo :=
  match client this with
  | None => throw (Error "OIDC client not initialized")
  | Some c =>
      try_catch
        (client_userinfo c accessToken)
        (λ error, (logger_error "Failed to get user info:" error ;;; throw error)%eff)
  end.

Definition getLogoutUrl (clientId : string) : string :=
  "https://" +:+ oauth_cognitoDomain config +:+ ".auth." +:+ aws_region config
    +:+ ".amazoncognito.com/logout?client_id=" +:+ clientId
    +:+ "&logout_uri=" +:+ encodeURIComponent (oauth_logoutUrl config).

End WithProvider.

End OIDCService.

(** ** The express-session package *)

Module ExpressSession.
Import Http.

(** A session store, seen through what it holds under each session id.
    [store_destroy m sid] is what [store.destroy(sid, callback)] leaves behind
    and the error, if any, it hands to the callback. *)
Class SessionStore := mkSessionStore
  { store_destroy :
      gmap string (option OAuthSession) → string
      → gmap string (option OAuthSession) * option Exn }.

(** [MemoryStore.prototype.destroy]: [delete this.sessions[sessionId]], then
    the callback without an error.  The application passes no [store] option,
    so this is the store it runs with. *)
Definition MemoryStore : SessionStore :=
  mkSessionStore (λ m sid, (delete sid m, None)).

(** [req.session.destroy(callback)]: [delete this.req.session], then the
    store's [destroy].  The result is the argument the callback will get. *)
Definition session_destroy `{SessionStore} : Eff (option Exn) :=
  λ s, match req_session s with
       | None =>
           (inl (TypeError "Cannot read properties of undefined (reading 'destroy')"), s)
       | Some sess =>
           let '(m, err) := store_destroy (store s) (sess_id sess) in
           (inr err, mkSt None m (events s ++ [StoreDestroy (sess_id sess)]))
       end.

(** The middleware around a handler: the session is loaded from the store (a
    fresh one if the id is unknown), the handler runs, and on the way out a
    session that is still attached is written back, unless it is new and
    still empty ([saveUninitialized: false]). *)
Definition load (m : gmap string (option OAuthSession)) (sid : string) : St :=
  mkSt (Some (mkSession sid (default None (m !! sid)))) m [].

Definition save (s : St) : gmap string (option OAuthSession) :=
  match req_session s with
  | None => store s
  | Some sess =>
      match store s !! sess_id sess, oauth sess with
      | None, None => store s
      | _, o => <[sess_id sess := o]> (store s)
      end
  end.

Definition serve (handler : Eff unit) (m : gmap string (option OAuthSession))
    (sid : string) : gmap string (option OAuthSession) * list Event :=
  let s := snd (handler (load m sid)) in (save s, events s).

End ExpressSession.

(** ** controllers/oauth.controller.ts *)

Module OAuthController.
Import Http OpenidClient ExpressSession.

Section WithEnvironment.
Context `{Provider} `{SessionStore}.
Variable config : Config.
Variable oidcService : OIDCService.t.

Definition is_authenticated (o : option OAuthSession) : bool :=
  bool_decide (is_Some (o ≫= userInfo)).

Definition home : Eff unit :=
  (o <- get_oauth ;;
   res_render 200 (HomeView (is_authenticated o) (o ≫= userInfo)))%eff.

(** [nonce] and [state] are the values [generators.nonce()] and
    [generators.state()] return for this request. *)
Definition login (nonce state : string) : Eff unit :=
  try_catch
    (set_oauth (mkOAuthSession (Some nonce) (Some state) None None None None) ;;;
     authUrl <- OIDCService.getAuthorizationUrl oidcService state nonce ;;
     res_redirect authUrl)%eff
    (λ error,
       (logger_error "OAuth login error:" error ;;;
        res_render 500 (ErrorView "Failed to initiate login" (exn_message error)))%eff).

(** The object literal
    [{ ...req.session.oauth, userInfo, accessToken, idToken, refreshToken }]. *)
Definition authenticated_session (old : option OAuthSession) (ui : UserInfo)
    (tokenSet : TokenSet) : OAuthSession :=
  mkOAuthSession (old ≫= nonce) (old ≫= state) (Some ui)
    (access_token tokenSet) (id_token tokenSet) (refresh_token tokenSet).

Definition callback (params : CallbackParams) : Eff unit :=
  try_catch
    (_ <- OIDCService.getClient oidcService ;;
     o <- get_oauth ;;
     match o ≫= nonce, o ≫= state with
     | Some n, Some s =>
         if negb (Js.truthy n) || negb (Js.truthy s)
         then throw (Error "Session state missing")
         else
           tokenSet <- OIDCService.callback config oidcService params s n ;;
           ui <- OIDCService.getUserInfo oidcService (access_token tokenSet) ;;
           old <- get_oauth ;;
           set_oauth (authenticated_session old ui tokenSet) ;;;
           res_redirect "/oauth"
     | _, _ => throw (Error "Session state missing")
     end)%eff
    (λ error,
       (logger_error "OAuth callback error:" error ;;;
        res_render 500 (ErrorView "Authentication failed" (exn_message error)))%eff).

(** The redirect is issued as soon as [destroy] has been called; the callback
    given to [destroy] runs when the store reports back. *)
Definition logout : Eff unit :=
  (err <- session_destroy ;;
   res_redirect (OIDCService.getLogoutUrl config (cognito_clientId config)) ;;;
   match err with
   | Some e => logger_error "Session destroy error:" e
   | None => ret tt
   end)%eff.

Definition profile : Eff unit :=
  (o <- get_oauth ;;
   match o ≫= userInfo with
   | None => res_redirect "/oauth/login"
   | Some ui => res_render 200 (ProfileView ui (o ≫= accessToken) (o ≫= idToken))
   end)%eff.

(** The routes of [routes/oauth.routes.ts] that reach the controller. *)
Inductive Route :=
| GetHome
| GetLogin (nonce state : string)
| GetCallback (params : CallbackParams)
| GetLogout
| GetProfile.

Definition route (r : Route) : Eff unit :=
  match r with
  | GetHome => home
  | GetLogin n s => login n s
  | GetCallback params => callback params
  | GetLogout => logout
  | GetProfile => profile
  end.

(** One request: the session the handler leaves attached, and its events. *)
Definition run (r : Route) (s : St) : St := snd (route r s).

(** The flow's states, read off the session as [home] and [callback] do. *)
Inductive FlowState := Anonymous | PendingCallback | Authenticated.

Definition flow_state (o : option OAuthSession) : FlowState :=
  if is_authenticated o then Authenticated
  else if Js.truthy_opt (o ≫= nonce) && Js.truthy_opt (o ≫= state)
  then PendingCallback
  else Anonymous.

End WithEnvironment.

End OAuthController.

(** ** validators/user.validators.ts *)

Module Validators.

(** Strings are sequences of character codes below 256, and the character
    classes of the patterns are ranges of codes.  The model is of ASCII text
    ([AsciiText.ascii_text]): there a character is one UTF-16 unit of the
    JavaScript string, with the same code.  Text with other characters lies
    outside it. *)
Definition code (c : Ascii.ascii) : nat := nat_of_ascii c.

Definition in_range (lo hi : nat) (c : Ascii.ascii) : bool :=
  (lo <=? code c)%nat && (code c <=? hi)%nat.

(** [[a-z]], [[A-Z]], [\d], [[@$!%*?&]] *)
Definition is_lower : Ascii.ascii → bool := in_range 97 122.
Definition is_upper : Ascii.ascii → bool := in_range 65 90.
Definition is_digit : Ascii.ascii → bool := in_range 48 57.
Definition is_special (c : Ascii.ascii) : bool := Js.contains c "@$!%*?&".

(** [.] matches anything but a line terminator.  In ASCII text these are
    line feed and carriage return; the other two, U+2028 and U+2029, are not
    ASCII. *)
Definition line_terminator (c : Ascii.ascii) : bool :=
  bool_decide (code c = 10) || bool_decide (code c = 13).

Fixpoint forallb_string (p : Ascii.ascii → bool) (s : string) : bool :=
  match s with
  | EmptyString => true
  | String c rest => p c && forallb_string p rest
  end.

Fixpoint existsb_string (p : Ascii.ascii → bool) (s : string) : bool :=
  match s with
  | EmptyString => false
  | String c rest => p c || existsb_string p rest
  end.

(** [(?=.*[cls])] at the start of the input: some character of the class is
    reached over characters that [.] matches. *)
Fixpoint lookahead (cls : Ascii.ascii → bool) (s : string) : bool :=
  match s with
  | EmptyString => false
  | String c rest => cls c || (negb (line_terminator c) && lookahead cls rest)
  end.

(** [/^(?=.*[a-z])(?=.*[A-Z])(?=.*\d)(?=.*[@$!%*?&])[A-Za-z\d@$!%*?&]/.test(s)] *)
Definition password_pattern (s : string) : bool :=
  lookahead is_lower s && lookahead is_upper s && lookahead is_digit s
  && lookahead is_special s
  && match s with
     | EmptyString => false
     | String c _ => is_upper c || is_lower c || is_digit c || is_special c
     end.

(** validator.js: [isLength(str, { min, max })], [isAlphanumeric(str)] and
    [isAlpha(str)] for the default locale.  [isLength] counts UTF-16 units
    less surrogate pairs and variation selectors; in ASCII text that is the
    number of characters. *)
Definition isLength (min : nat) (max : option nat) (s : string) : bool :=
  (min <=? String.length s)%nat
  && match max with
     | Some m => (String.length s <=? m)%nat
     | None => true
     end.

Definition isAlphanumeric (s : string) : bool :=
  bool_decide (s ≠ "")
  && forallb_string (λ c, is_digit c || is_upper c || is_lower c) s.

Definition isAlpha (s : string) : bool :=
  bool_decide (s ≠ "") && forallb_string (λ c, is_upper c || is_lower c) s.

(** The validators whose grammar lives in validator.js. *)
Class ValidatorJs := mkValidatorJs
  { isEmail : string → bool; isMobilePhone : string → bool }.

(** express-validator: a chain runs every validator on the field, rendered
    as a string ([undefined] becomes the empty string); [optional()] skips an
    absent field; [withMessage] names the error of the validator before it,
    the others report ['Invalid value']. *)
Record Validator := mkValidator { check : string → bool; message : string }.

Record FieldError := mkFieldError { path : string; msg : string }.

#[export] Instance FieldError_eq_dec : EqDecision FieldError.
Proof. solve_decision. Defined.

Definition run_chain (field : string) (optional : bool) (vs : list Validator)
    (value : option string) : list FieldError :=
  match value, optional with
  | None, true => []
  | _, _ =>
      omap (λ v, if check v (default "" value) then None
                 else Some (mkFieldError field (message v))) vs
  end.

Record SignUpBody := mkSignUpBody
  { b_email : option string;
    b_username : option string;
    b_password : option string;
    b_firstName : option string;
    b_lastName : option string;
    b_phoneNumber : option string }.

Section WithValidatorJs.
Context `{ValidatorJs}.

Definition username_chain : list Validator :=
  [ mkValidator (isLength 3 (Some 20)) "Invalid value";
    mkValidator isAlphanumeric "Username must be 3-20 alphanumeric characters" ].

Definition password_chain : list Validator :=
  [ mkValidator (isLength 8 None) "Invalid value";
    mkValidator password_pattern
      "Password must be at least 8 characters with uppercase, lowercase, number and special character" ].

Definition name_chain (m : string) : list Validator :=
  [ mkValidator (isLength 1 (Some 50)) "Invalid value"; mkValidator isAlpha m ].

Definition signUpValidator (b : SignUpBody) : list FieldError :=
  run_chain "email" false [mkValidator isEmail "Valid email is required"] (b_email b)
  ++ run_chain "username" false username_chain (b_username b)
  ++ run_chain "password" false password_chain (b_password b)
  ++ run_chain "firstName" true (name_chain "First name must contain only letters")
       (b_firstName b)
  ++ run_chain "lastName" true (name_chain "Last name must contain only letters")
       (b_lastName b)
  ++ run_chain "phoneNumber" true
       [mkValidator isMobilePhone "Valid phone number is required"] (b_phoneNumber b).

(** The errors reported for one field; the field is accepted when there are
    none. *)
Definition errors_of (field : string) (errs : list FieldError) : list FieldError :=
  filter (λ e, path e = field) errs.

Definition accepts (field : string) (b : SignUpBody) : bool :=
  bool_decide (errors_of field (signUpValidator b) = []).

End WithValidatorJs.

(** A stand-in for validator.js and a body with the three required
    fields. *)
Definition demo_validator_js : ValidatorJs :=
  mkValidatorJs (Js.contains "@") (λ _, true).

Definition demo_body (username password : string) : SignUpBody :=
  mkSignUpBody (Some "a@b.com") (Some username) (Some password) None None None.

End Validators.

(** ** services/cognito.service.ts: sign-up and sign-in *)

Module CognitoService.

Record Attribute := mkAttribute { attr_Name : string; attr_Value : string }.

(** [Partial<User>] plus the [username] the callers add. *)
Record User := mkUser
  { u_id : option string;
    u_email : option string;
    u_emailVerified : option bool;
    u_firstName : option string;
    u_lastName : option string;
    u_phoneNumber : option string;
    u_username : option string }.

Record Tokens := mkTokens
  { t_accessToken : option string;
    t_idToken : option string;
    t_refreshToken : option string }.

Record SignInResponse := mkSignInResponse { r_user : User; r_tokens : Tokens }.

Record SignUpResult := mkSignUpResult
  { userId : option string; userConfirmed : bool }.

Record SignUpRequest := mkSignUpRequest
  { su_email : string;
    su_password : string;
    su_username : string;
    su_firstName : option string;
    su_lastName : option string;
    su_phoneNumber : option string }.

Record SignInRequest := mkSignInRequest { si_username : string; si_password : string }.

Record GetUserResponse := mkGetUserResponse
  { UserAttributes : option (list Attribute); Username : option string }.

(** The identity provider behind [this.client.send(command)], one operation
    per command, and the HMAC of [calculateSecretHash]. *)
Class CognitoSdk := mkCognitoSdk
  { hmac_sha256_base64 : string → string → string;
    AdminCreateUser : string → list Attribute → Exn + option (list Attribute);
    AdminSetUserPassword : string → string → option Exn;
    InitiateAuth : string → string → option string → Exn + option Tokens;
    GetUser : option string → Exn + GetUserResponse }.

(** The service logs and rethrows. *)
Definition Svc (A : Type) : Type := M Log A.

Definition log_info (text : string) : Svc unit := λ l, (inr tt, logger_info text l).
Definition log_error (text : string) (e : Exn) : Svc unit :=
  λ l, (inr tt, logger_error text e l).

Section WithSdk.
Context `{CognitoSdk}.
Variable config : Config.

Definition calculateSecretHash (username : string) : string :=
  if negb (Js.truthy (cognito_clientSecret config)) then ""
  else hmac_sha256_base64 (cognito_clientSecret config)
         (username +:+ cognito_clientId config).

Definition mapCognitoAttributesToUser (attributes : list Attribute) : User :=
  foldl (λ user attr,
           if bool_decide (attr_Name attr = "sub")
           then mkUser (Some (attr_Value attr)) (u_email user) (u_emailVerified user)
                  (u_firstName user) (u_lastName user) (u_phoneNumber user) (u_username user)
           else if bool_decide (attr_Name attr = "email")
           then mkUser (u_id user) (Some (attr_Value attr)) (u_emailVerified user)
                  (u_firstName user) (u_lastName user) (u_phoneNumber user) (u_username user)
           else if bool_decide (attr_Name attr = "email_verified")
           then mkUser (u_id user) (u_email user)
                  (Some (bool_decide (attr_Value attr = "true")))
                  (u_firstName user) (u_lastName user) (u_phoneNumber user) (u_username user)
           else if bool_decide (attr_Name attr = "given_name")
           then mkUser (u_id user) (u_email user) (u_emailVerified user)
                  (Some (attr_Value attr)) (u_lastName user) (u_phoneNumber user) (u_username user)
           else if bool_decide (attr_Name attr = "family_name")
           then mkUser (u_id user) (u_email user) (u_emailVerified user)
                  (u_firstName user) (Some (attr_Value attr)) (u_phoneNumber user) (u_username user)
           else if bool_decide (attr_Name attr = "phone_number")
           then mkUser (u_id user) (u_email user) (u_emailVerified user)
                  (u_firstName user) (u_lastName user) (Some (attr_Value attr)) (u_username user)
           else user)
    (mkUser None None None None None None None) attributes.

Definition optional_attr (name : string) (v : option string) : list Attribute :=
  match v with
  | Some x => if Js.truthy x then [mkAttribute name x] else []
  | None => []
  end.

Definition signUp (data : SignUpRequest) : Svc SignUpResult :=
  try_catch
    (let userAttributes :=
       [mkAttribute "email" (su_email data); mkAttribute "email_verified" "true"]
       ++ optional_attr "given_name" (su_firstName data)
       ++ optional_attr "family_name" (su_lastName data)
       ++ match su_phoneNumber data with
          | Some phone =>
              if Js.truthy phone
              then [mkAttribute "phone_number" phone;
                    mkAttribute "phone_number_verified" "true"]
              else []
          | None => []
          end in
     created <- lift (AdminCreateUser (su_username data) userAttributes) ;;
     match AdminSetUserPassword (su_username data) (su_password data) with
     | Some e => throw e
     | None =>
         log_info ("User " +:+ su_username data
                     +:+ " signed up successfully with confirmed account") ;;;
         ret (mkSignUpResult
                (attr_Value <$> (created ≫= find (λ a, bool_decide (attr_Name a = "sub"))))
                true)
     end)%eff
    (λ error, (log_error "Error signing up user:" error ;;; throw error)%eff).

(** [...(secretHash && { SECRET_HASH: secretHash })] *)
Definition secretHashParameter (username : string) : option string :=
  let secretHash := calculateSecretHash username in
  if Js.truthy secretHash then Some secretHash else None.

Definition signIn (data : SignInRequest) : Svc SignInResponse :=
  try_catch
    (response <- lift (InitiateAuth (si_username data) (si_password data)
                         (secretHashParameter (si_username data))) ;;
     match response with
     | None => throw (Error "Authentication failed")
     | Some result =>
         userResponse <- lift (GetUser (t_accessToken result)) ;;
         let user := mapCognitoAttributesToUser (default [] (UserAttributes userResponse)) in
         log_info ("User " +:+ si_username data +:+ " signed in successfully") ;;;
         ret (mkSignInResponse
                (mkUser (u_id user) (u_email user) (u_emailVerified user) (u_firstName user)
                   (u_lastName user) (u_phoneNumber user) (Username userResponse))
                (mkTokens (t_accessToken result) (t_idToken result) (t_refreshToken result)))
     end)%eff
    (λ error, (log_error "Error signing in user:" error ;;; throw error)%eff).

End WithSdk.

End CognitoService.

(** ** controllers/auth.controller.ts and the user controller *)

Module Controllers.
Import CognitoService.

Inductive Data :=
| SignUpData (r : SignUpResult)
| SignInData (r : SignInResponse)
| UserData (u : User)
| UsersData (us : list User).

(** [{ message, data? }] on success, [{ error }] on failure. *)
Inductive Body :=
| MessageBody (message : string) (data : option Data)
| ErrorBody (error : string).

(** A handler answers itself or hands the error on with [next(error)]. *)
Inductive Outcome :=
| Json (status : Z) (body : Body)
| Forward (error : Exn).

Definition named (error : Exn) (name : string) : bool :=
  bool_decide (exn_name error = name).

(** Each handler takes the service call it awaits. *)
Definition signUp (call : Svc SignUpResult) : Svc Outcome :=
  try_catch
    (result <- call ;;
     ret (Json 201 (MessageBody "User created successfully" (Some (SignUpData result)))))%eff
    (λ error,
       (log_error "SignUp error:" error ;;;
        if named error "UsernameExistsException"
        then ret (Json 409 (ErrorBody "Username already exists"))
        else if named error "InvalidPasswordException"
        then ret (Json 400 (ErrorBody "Invalid password format"))
        else ret (Forward error))%eff).

Definition signIn (call : Svc SignInResponse) : Svc Outcome :=
  try_catch
    (result <- call ;;
     ret (Json 200 (MessageBody "Sign in successful" (Some (SignInData result)))))%eff
    (λ error,
       (log_error "SignIn error:" error ;;;
        if named error "NotAuthorizedException"
        then ret (Json 401 (ErrorBody "Invalid username or password"))
        else if named error "UserNotConfirmedException"
        then ret (Json 403 (ErrorBody "User email not verified"))
        else ret (Forward error))%eff).

Definition verifyEmail (call : Svc unit) : Svc Outcome :=
  try_catch
    (call ;;; ret (Json 200 (MessageBody "Email verified successfully" None)))%eff
    (λ error,
       (log_error "VerifyEmail error:" error ;;;
        if named error "CodeMismatchException"
        then ret (Json 400 (ErrorBody "Invalid verification code"))
        else if named error "ExpiredCodeException"
        then ret (Json 400 (ErrorBody "Verification code has expired"))
        else ret (Forward error))%eff).

Definition resendVerificationCode (call : Svc unit) : Svc Outcome :=
  try_catch
    (call ;;; ret (Json 200 (MessageBody "Verification code sent successfully" None)))%eff
    (λ error,
       (log_error "ResendVerificationCode error:" error ;;; ret (Forward error))%eff).

Definition forgotPassword (call : Svc unit) : Svc Outcome :=
  try_catch
    (call ;;; ret (Json 200 (MessageBody "Password reset code sent successfully" None)))%eff
    (λ error,
       (log_error "ForgotPassword error:" error ;;;
        if named error "UserNotFoundException"
        then ret (Json 404 (ErrorBody "User not found"))
        else ret (Forward error))%eff).

Definition resetPassword (call : Svc unit) : Svc Outcome :=
  try_catch
    (call ;;; ret (Json 200 (MessageBody "Password reset successfully" None)))%eff
    (λ error,
       (log_error "ResetPassword error:" error ;;;
        if named error "CodeMismatchException"
        then ret (Json 400 (ErrorBody "Invalid reset code"))
        else if named error "ExpiredCodeException"
        then ret (Json 400 (ErrorBody "Reset code has expired"))
        else ret (Forward error))%eff).

Definition changePassword (call : Svc unit) : Svc Outcome :=
  try_catch
    (call ;;; ret (Json 200 (MessageBody "Password changed successfully" None)))%eff
    (λ error,
       (log_error "ChangePassword error:" error ;;;
        if named error "NotAuthorizedException"
        then ret (Json 401 (ErrorBody "Invalid current password"))
        else ret (Forward error))%eff).

Definition refreshToken (call : Svc SignInResponse) : Svc Outcome :=
  try_catch
    (result <- call ;;
     ret (Json 200 (MessageBody "Token refreshed successfully" (Some (SignInData result)))))%eff
    (λ error,
       (log_error "RefreshToken error:" error ;;;
        if named error "NotAuthorizedException"
        then ret (Json 401 (ErrorBody "Invalid refresh token"))
        else ret (Forward error))%eff).

Definition signOut (call : Svc unit) : Svc Outcome :=
  try_catch
    (call ;;; ret (Json 200 (MessageBody "Sign out successful" None)))%eff
    (λ error, (log_error "SignOut error:" error ;;; ret (Forward error))%eff).

Definition getProfile (call : Svc User) : Svc Outcome :=
  try_catch
    (user <- call ;;
     ret (Json 200 (MessageBody "Profile retrieved successfully" (Some (UserData user)))))%eff
    (λ error, (log_error "GetProfile error:" error ;;; ret (Forward error))%eff).

Definition updateProfile (call : Svc unit) : Svc Outcome :=
  try_catch
    (call ;;; ret (Json 200 (MessageBody "Profile updated successfully" None)))%eff
    (λ error, (log_error "UpdateProfile error:" error ;;; ret (Forward error))%eff).

Definition deleteAccount (call : Svc unit) : Svc Outcome :=
  try_catch
    (call ;;; ret (Json 200 (MessageBody "Account deleted successfully" None)))%eff
    (λ error, (log_error "DeleteAccount error:" error ;;; ret (Forward error))%eff).

Definition listUsers (call : Svc (list User)) : Svc Outcome :=
  try_catch
    (result <- call ;;
     ret (Json 200 (MessageBody "Users retrieved successfully" (Some (UsersData result)))))%eff
    (λ error, (log_error "ListUsers error:" error ;;; ret (Forward error))%eff).

Definition adminCreateUser (call : Svc User) : Svc Outcome :=
  try_catch
    (user <- call ;;
     ret (Json 201 (MessageBody "User created successfully by admin" (Some (UserData user)))))%eff
    (λ error,
       (log_error "AdminCreateUser error:" error ;;;
        if named error "UsernameExistsException"
        then ret (Json 409 (ErrorBody "Username already exists"))
        else ret (Forward error))%eff).

Definition adminDeleteUser (call : Svc unit) : Svc Outcome :=
  try_catch
    (call ;;; ret (Json 200 (MessageBody "User deleted successfully by admin" None)))%eff
    (λ error,
       (log_error "AdminDeleteUser error:" error ;;;
        if named error "UserNotFoundException"
        then ret (Json 404 (ErrorBody "User not found"))
        else ret (Forward error))%eff).

(** The endpoints of the two controllers, and what each does with an error
    its service call throws. *)
Inductive Endpoint :=
| EpSignUp | EpSignIn | EpVerifyEmail | EpResendVerificationCode
| EpForgotPassword | EpResetPassword | EpChangePassword | EpRefreshToken
| EpSignOut | EpGetProfile | EpUpdateProfile | EpDeleteAccount | EpListUsers
| EpAdminCreateUser | EpAdminDeleteUser.

Definition endpoints : list Endpoint :=
  [ EpSignUp; EpSignIn; EpVerifyEmail; EpResendVerificationCode;
    EpForgotPassword; EpResetPassword; EpChangePassword; EpRefreshToken;
    EpSignOut; EpGetProfile; EpUpdateProfile; EpDeleteAccount; EpListUsers;
    EpAdminCreateUser; EpAdminDeleteUser ].

Definition on_error (ep : Endpoint) (error : Exn) : Svc Outcome :=
  match ep with
  | EpSignUp => signUp (throw error)
  | EpSignIn => signIn (throw error)
  | EpVerifyEmail => verifyEmail (throw error)
  | EpResendVerificationCode => resendVerificationCode (throw error)
  | EpForgotPassword => forgotPassword (throw error)
  | EpResetPassword => resetPassword (throw error)
  | EpChangePassword => changePassword (throw error)
  | EpRefreshToken => refreshToken (throw error)
  | EpSignOut => signOut (throw error)
  | EpGetProfile => getProfile (throw error)
  | EpUpdateProfile => updateProfile (throw error)
  | EpDeleteAccount => deleteAccount (throw error)
  | EpListUsers => listUsers (throw error)
  | EpAdminCreateUser => adminCreateUser (throw error)
  | EpAdminDeleteUser => adminDeleteUser (throw error)
  end.

(** The table of the specification: the status it assigns to a provider
    error class, to be compared with what the handlers do. *)
Definition translation (name : string) : option Z :=
  if bool_decide (name = "UsernameExistsException") then Some 409%Z
  else if bool_decide (name = "NotAuthorizedException") then Some 401%Z
  else if bool_decide (name = "UserNotConfirmedException") then Some 403%Z
  else if bool_decide (name = "UserNotFoundException") then Some 404%Z
  else None.

(** Whether a response body carries tokens. *)
Definition carries_tokens (o : Outcome) : bool :=
  match o with
  | Json _ (MessageBody _ (Some (SignInData _))) => true
  | _ => false
  end.

(** The identity provider when the password is wrong: [InitiateAuth]
    throws [NotAuthorizedException]. *)
Definition rejects_password `{CognitoSdk} (config : Config) (data : SignInRequest) : Prop :=
  ∃ e, InitiateAuth (si_username data) (si_password data)
         (secretHashParameter config (si_username data)) = inl e
       ∧ exn_name e = "NotAuthorizedException".

(** A provider with one user, [abc123] with password [Aa1!aaaa]. *)
Definition demo_sdk : CognitoSdk :=
  mkCognitoSdk
    (λ key msg, "hmac(" +:+ key +:+ "," +:+ msg +:+ ")")
    (λ username attrs,
       if bool_decide (username = "abc123")
       then inl (mkExn "UsernameExistsException" "User account already exists")
       else inr (Some (mkAttribute "sub" ("sub-" +:+ username) :: attrs)))
    (λ _ _, None)
    (λ username password _,
       if bool_decide (username = "abc123" ∧ password = "Aa1!aaaa")
       then inr (Some (mkTokens (Some "at-1") (Some "idt-1") (Some "rt-1")))
       else inl (mkExn "NotAuthorizedException" "Incorrect username or password."))
    (λ _, inr (mkGetUserResponse
                 (Some [mkAttribute "sub" "sub-abc123"; mkAttribute "email" "a@b.com"])
                 (Some "abc123"))).

Definition demo_gateway_config : Config :=
  mkConfig "us-east-1" "us-east-1_pool" "client-1" "" "idp-demo"
    "http://localhost:3000/oauth/callback" "http://localhost:3000".

End Controllers.

(** ** The verifier's vocabulary, over the middleware's data *)

Module Verifier.
Import AuthMiddleware.

Definition InvalidToken : Outcome := Respond 401 "Invalid token".
Definition TokenVerificationFailed : Outcome := Respond 401 "Token verification failed".
Definition AuthenticationFailed : Outcome := Respond 500 "Authentication failed".

(** A verified identity is what [authenticate] attaches as [req.user]. *)
Definition identity_of (o : Outcome) : option DecodedToken :=
  match o with
  | Next req => user req
  | Respond _ _ | NoAnswer => None
  end.

(** The key id a decoded header names, if it names one: the property key of
    a truthy [kid]. *)
Definition header_keyId (d : CompleteJwt) : option string :=
  kid ← hdr_kid (jwt_header d);
  if kid_truthy kid then Some (kid_key kid) else None.

(** The key set is what has been stored in [pems]. *)
Definition known_key (st : State) (kid pem : string) : Prop :=
  pems st !! kid = Some pem.

Definition unknown_key (st : State) (kid : string) : Prop :=
  pems st !! kid = None.

Section WithPackages.
Context `{Packages}.

(** The key id of a token that decodes. *)
Definition keyId (token : string) : option string :=
  match jwt_decode token with
  | inr (Some d) => header_keyId d
  | _ => None
  end.

(** The request's token names, as its key id, a member every object
    inherits. *)
Definition names_inherited_member (req : AuthRequest) : Prop :=
  ∃ token kid,
    extractToken (authorization req) = Some token
    ∧ keyId token = Some kid ∧ kid ∈ object_prototype_members.

(** The load ended in the [catch] branch. *)
Definition load_failed (response : AxiosResult) : Prop :=
  ∃ e, mw_log (constructor response)
       = [mkLog LError "Error loading JWKS keys:" (Some e)].

(** The entry [forEach] assigns for a key, when the key converts. *)
Definition converted (jwk : JWK) : option (string * string) :=
  match jwkToPem (jwk_kty jwk) (jwk_n jwk) (jwk_e jwk) with
  | inr pem => Some (jwk_kid jwk, pem)
  | inl _ => None
  end.

(** The assignments that create an entry. *)
Definition stored (kvs : list (string * string)) : list (string * string) :=
  filter (λ kv, kv.1 ≠ "__proto__") kvs.

(** How a load can fail, with the entries assigned before it does: the
    request is rejected, the document has no [keys] array, or a key does not
    convert. *)
Inductive LoadFailure : AxiosResult → list (string * string) → Prop :=
| NetworkFailure (e : Exn) : LoadFailure (inl e) []
| NoKeysArray : LoadFailure (inr (mkJwksDocument None)) []
| KeyNotConverted (good : list JWK) (bad : JWK) (rest : list JWK)
    (kvs : list (string * string)) :
    Forall2 (λ jwk kv, converted jwk = Some kv) good kvs →
    converted bad = None →
    LoadFailure (inr (mkJwksDocument (Some (good ++ bad :: rest)))) kvs.

(** No request whose key id is an ordinary one gets an identity:
    [authenticate] answers it with 401, or with 500 when the token cannot be
    decoded, and [optionalAuthenticate] passes it on as it came. *)
Definition fails_closed (st : State) : Prop :=
  ∀ now req,
    ¬ names_inherited_member req →
    (∃ status error,
       (authenticate now st req).2 = Respond status error
       ∧ (status = 401 ∨ status = 500)%Z)
    ∧ (optionalAuthenticate now st req).2 = Next req.

End WithPackages.

(** A provider with two RSA keys, and tokens written out symbolically as
    [kid/subject/expiry/signing key]; the expiry is the length of its
    field.  The token [not-json] is one [jwt.decode] throws on.  An inherited
    member given as key behaves as the built-in does when jsonwebtoken calls
    it: [constructor] and [toString] return without calling back, the other
    functions throw on their missing receiver, and the prototype object is no
    key material. *)
Definition demo_payload (subj e : string) : DecodedToken :=
  mkDecodedToken (Some subj) (Some (subj +:+ "@example.com")) (Some subj)
    (Some (Z.of_nat (String.length e))) (Some 0%Z).

Definition demo_decode (token : string) : Exn + option CompleteJwt :=
  if bool_decide (token = "not-json")
  then inl (mkExn "SyntaxError" "Unexpected token in JSON")
  else
    match Js.split "/" token with
    | [kid; subj; e; _] =>
        inr (Some (mkCompleteJwt (mkJwtHeader "RS256" (Some (kid_string kid)))
                     (demo_payload subj e)))
    | _ => inr None
    end.

Definition demo_verify (now : Z) (token : string) (key : KeyMaterial) : Verdict :=
  match key with
  | OwnPem pem =>
      match Js.split "/" token with
      | [_; subj; e; signer] =>
          if negb (bool_decide (pem = "PEM " +:+ signer))
          then Calls (inl (mkExn "JsonWebTokenError" "invalid signature"))
          else if bool_decide (Z.of_nat (String.length e) ≤ now)%Z
          then Calls (inl (mkExn "TokenExpiredError" "jwt expired"))
          else Calls (inr (demo_payload subj e))
      | _ => Calls (inl (mkExn "JsonWebTokenError" "jwt malformed"))
      end
  | Inherited member =>
      if bool_decide (member = "__proto__")
      then Calls (inl (mkExn "JsonWebTokenError"
                         "secretOrPublicKey is not valid key material"))
      else if bool_decide (member = "constructor") || bool_decide (member = "toString")
      then NeverCalls
      else Throws (TypeError "Cannot convert undefined or null to object")
  end.

Definition demo_packages : Packages :=
  mkPackages
    (λ kty n e, if bool_decide (kty = "RSA") then inr ("PEM " +:+ n)
                else inl (Error "Unsupported key type"))
    demo_decode
    demo_verify.

Definition demo_jwk (kid kty n : string) : JWK := mkJWK "RS256" "AQAB" kid kty n "sig".

Definition bearer (token : string) : AuthRequest :=
  mkAuthRequest (Some ("Bearer " +:+ token)) None None.

(** A key set document whose second key is of a type [jwkToPem] rejects. *)
Definition demo_mixed_document : AxiosResult :=
  inr (mkJwksDocument (Some [demo_jwk "k1" "RSA" "n1"; demo_jwk "k2" "OKP" "n2"])).

End Verifier.

(** ** The session flow's vocabulary, over the controller's data *)

Module Flow.
Import Http OpenidClient ExpressSession OAuthController.

Definition error_page (error : string) : Response :=
  Render 500 (ErrorView "Authentication failed" error).

Definition responses (evs : list Event) : list Response :=
  omap (λ ev, match ev with Sent r => Some r | _ => None end) evs.

Definition token_requests (evs : list Event) : list (string * string) :=
  omap (λ ev, match ev with TokenRequest c u => Some (c, u) | _ => None end) evs.

(** The session's [oauth] member as a handler finds it. *)
Definition oauth_of (s : St) : option OAuthSession := req_session s ≫= oauth.

(** The anti-replay pair the session stores. *)
Definition anti_replay (s : St) : option string * option string :=
  (oauth_of s ≫= nonce, oauth_of s ≫= state).

(** The callback ended in the controller's own guard. *)
Definition SessionStateMissing (evs : list Event) : Prop :=
  evs = [ Logged (mkLog LError "OAuth callback error:"
                    (Some (Error "Session state missing")));
          Sent (error_page "Session state missing") ].

(** The callback ended because the service had no client. *)
Definition ServiceNotInitialized (evs : list Event) : Prop :=
  evs = [ Logged (mkLog LError "OAuth callback error:"
                    (Some (Error "OIDC client not initialized")));
          Sent (error_page "OIDC client not initialized") ].

(** The callback ended because the client's [callback] threw: the service
    logged the error and the user got the error page with its message. *)
Definition CallbackValidationFailed (evs : list Event) : Prop :=
  ∃ e, Logged (mkLog LError "OIDC callback error:" (Some e)) ∈ evs
       ∧ responses evs = [error_page (exn_message e)].

(** A computation that touches nothing but the event trace, and adds to it
    only events of one kind. *)
Definition only_emits {A} (P : Event → Prop) (m : Eff A) : Prop :=
  ∀ s, ∃ evs, snd (m s) = mkSt (req_session s) (store s) (events s ++ evs)
              ∧ Forall P evs.

(** Calls to the provider's endpoints. *)
Definition is_request (ev : Event) : Prop :=
  match ev with
  | TokenRequest _ _ | UserinfoRequest _ => True
  | _ => False
  end.

Section WithProvider.
Context `{Provider}.
Variable config : Config.

(** An ID token that comes with the callback: in the redirect itself, or
    from the token endpoint in exchange for the code. *)
Definition presented_id_token (c : Client) (params : CallbackParams)
    (jwt : string) : Prop :=
  (p_id_token params = Some jwt ∧ jwt ≠ "")
  ∨ ∃ code ts, p_code params = Some code ∧ code ≠ ""
               ∧ grant c code (oauth_callbackUrl config) = inr ts
               ∧ id_token ts = Some jwt.

(** Its embedded nonce is not the one the session stores. *)
Definition nonce_mismatch (c : Client) (params : CallbackParams) (n : string) : Prop :=
  ∃ jwt claims, presented_id_token c params jwt
                ∧ validateJWT c jwt = inr claims
                ∧ claim_nonce claims ≠ Some n.

End WithProvider.

(** The values the most recent [login] of a run of requests has drawn; the
    earlier pair if the run has none. *)
Definition last_initiate (rs : list Route) (before : option string * option string)
  : option string * option string :=
  foldl (λ acc r, match r with
                  | GetLogin n s => (Some n, Some s)
                  | _ => acc
                  end) before rs.

(** A provider that knows one authorization code, and ID tokens written out
    symbolically as [idt:nonce]. *)
Definition demo_provider : Provider :=
  mkProvider
    (λ _, None)
    (λ c scope state nonce,
       "https://idp.example/authorize?client_id=" +:+ client_id c
         +:+ "&state=" +:+ state +:+ "&nonce=" +:+ nonce)
    (λ c code uri,
       if bool_decide (code = "code-1")
       then inr (mkTokenSet (Some "at-1") (Some "idt:nonce-1") (Some "rt-1"))
       else inl (OPError "invalid_grant"))
    (λ c jwt,
       match Js.split ":" jwt with
       | ["idt"; n] => inr (mkIdTokenClaims "alice" (Some n))
       | _ => inl (RPError "failed to validate JWT signature")
       end)
    (λ _ _ _, None)
    (λ c t,
       if bool_decide (t = "at-1")
       then inr (mkUserInfo "alice" "alice@example.com" "alice")
       else inl (OPError "invalid_token"))
    (λ s, s).

Definition demo_config : Config :=
  mkConfig "us-east-1" "us-east-1_pool" "client-1" "secret-1" "idp-demo"
    "http://localhost:3000/oauth/callback" "http://localhost:3000".

Definition demo_client : Client :=
  mkClient "client-1" "secret-1" ["http://localhost:3000/oauth/callback"] ["code"].

Definition demo_service : OIDCService.t :=
  OIDCService.mkService (Some demo_client)
    "https://cognito-idp.us-east-1.amazonaws.com/us-east-1_pool".

(** A store whose [destroy] reports an error and removes nothing. *)
Definition FailingStore : SessionStore :=
  mkSessionStore (λ m sid, (m, Some (Error "store unavailable"))).

Definition demo_pending : OAuthSession :=
  mkOAuthSession (Some "nonce-1") (Some "state-1") None None None None.

Definition demo_authenticated : OAuthSession :=
  mkOAuthSession (Some "nonce-1") (Some "state-1")
    (Some (mkUserInfo "alice" "alice@example.com" "alice"))
    (Some "at-1") (Some "idt:nonce-1") (Some "rt-1").

Definition demo_params (code state : string) : CallbackParams :=
  mkCallbackParams (Some code) (Some state) None None None.

End Flow.

(** ** Requests through the middleware, one after another *)

Module Gate.
Import AuthMiddleware.

(** The two call modes of the middleware. *)
Inductive Mode := Mandatory | Optional.

(** A request as the middleware meets it: the clock, the mode of the route
    and the request itself. *)
Record Arrival := mkArrival
  { at_time : Z; mode : Mode; request : AuthRequest }.

Section WithPackages.
Context `{Packages}.

Definition handle (a : Arrival) (st : State) : State * Outcome :=
  match mode a with
  | Mandatory => authenticate (at_time a) st (request a)
  | Optional => optionalAuthenticate (at_time a) st (request a)
  end.

(** The instance after it has handled the requests in turn. *)
Definition after (arrivals : list Arrival) (st : State) : State :=
  foldl (λ s a, (handle a s).1) st arrivals.

End WithPackages.

End Gate.

(** A key set document with two RSA keys, and a request stream's worth of
    examples for the stand-in packages. *)
Module GateExamples.
Import AuthMiddleware Verifier Gate.

Definition demo_keys : list JWK :=
  [demo_jwk "k1" "RSA" "n1"; demo_jwk "k2" "RSA" "n2"].

Definition demo_loaded : State :=
  constructor (H:=demo_packages) (inr (mkJwksDocument (Some demo_keys))).

Definition demo_arrivals : list Arrival :=
  [ mkArrival 3 Mandatory (bearer "k1/alice/xxxxx/n1");
    mkArrival 3 Optional (bearer "k9/mallory/xxxxx/n9");
    mkArrival 9 Mandatory (bearer "k2/bob/xxxxx/n2") ].

End GateExamples.

(** ** The browser flow across requests *)

Module Journey.
Import Http OpenidClient ExpressSession OAuthController Flow.

(** The state in which the next request of the same browser session starts:
    the session as the last handler left it, a fresh trace. *)
Definition next_request (s : St) : St := mkSt (req_session s) (store s) [].

(** The three shapes of [req.session.oauth] the handlers produce: nothing, a
    bare anti-replay pair, a pair with user info and whatever tokens came
    with it. *)
Inductive Shape : option OAuthSession → Prop :=
| ShapeEmpty : Shape None
| ShapePending (n s : string) :
    Shape (Some (mkOAuthSession (Some n) (Some s) None None None None))
| ShapeAuthenticated (n s : string) (ui : UserInfo) (a i r : option string) :
    Shape (Some (mkOAuthSession (Some n) (Some s) (Some ui) a i r)).

Section WithProvider.
Context `{Provider}.
Variable config : Config.

(** The provider accepts an authorization-code callback for the pair [n],
    [s]: the [state] is the stored one, there is no [error] and no ID token
    in the redirect, the code is exchanged for [ts], whose ID token is valid
    and carries the nonce, and the userinfo endpoint answers [ui] for the
    access token. *)
Definition accepted (c : Client) (params : CallbackParams) (n s : string)
    (ts : TokenSet) (ui : UserInfo) : Prop :=
  p_state params = Some s
  ∧ Js.truthy_opt (p_error params) = false
  ∧ Js.truthy_opt (p_id_token params) = false
  ∧ (∃ code, p_code params = Some code ∧ code ≠ ""
             ∧ grant c code (oauth_callbackUrl config) = inr ts)
  ∧ (∃ jwt claims, id_token ts = Some jwt ∧ jwt ≠ ""
                   ∧ validateJWT c jwt = inr claims
                   ∧ claim_nonce claims = Some n
                   ∧ checkHashes "token" ts claims = None)
  ∧ (∃ t, access_token ts = Some t ∧ t ≠ "" ∧ userinfo c t = inr ui).

(** [routes/oauth.routes.ts]: the controller is constructed and
    [initialize()] is called once; a rejection is only reported, the
    controller keeps the service it has. *)
Definition boot : OIDCService.t :=
  match (OIDCService.initialize config (OIDCService.constructor config)
           (mkSt None ∅ [])).1 with
  | inr service => service
  | inl _ => OIDCService.constructor config
  end.

End WithProvider.

End Journey.

(** ** services/cognito.service.ts: the methods that send one command *)

Module CognitoCommands.
Import CognitoService.

Inductive AuthFlowType := USER_PASSWORD_AUTH | REFRESH_TOKEN_AUTH.
Inductive MessageActionType := SUPPRESS.

(** The commands the service constructs, each with the input it is given.
    An access token is what the controller read from [req.accessToken], so
    it can be absent. *)
Inductive Command :=
| ConfirmSignUpCommand (ClientId Username ConfirmationCode : string)
    (SecretHash : option string)
| ResendConfirmationCodeCommand (ClientId Username : string)
    (SecretHash : option string)
| ForgotPasswordCommand (ClientId Username : string) (SecretHash : option string)
| ConfirmForgotPasswordCommand (ClientId Username ConfirmationCode Password : string)
    (SecretHash : option string)
| ChangePasswordCommand (AccessToken : option string)
    (PreviousPassword ProposedPassword : string)
| GetUserCommand (AccessToken : option string)
| UpdateUserAttributesCommand (AccessToken : option string)
    (UserAttributes : list Attribute)
| DeleteUserCommand (AccessToken : option string)
| InitiateAuthCommand (ClientId : string) (AuthFlow : AuthFlowType)
    (AuthParameters : list (string * string))
| GlobalSignOutCommand (AccessToken : option string)
| AdminCreateUserCommand (UserPoolId Username : string)
    (UserAttributes : list Attribute) (TemporaryPassword : string)
    (MessageAction : option MessageActionType)
| AdminDeleteUserCommand (UserPoolId Username : string).

Record UserType := mkUserType
  { ut_Username : option string; ut_Attributes : option (list Attribute) }.

(** The members of a command's output the service reads. *)
Record Output := mkOutput
  { out_AuthenticationResult : option Tokens;
    out_UserAttributes : option (list Attribute);
    out_Username : option string;
    out_User : option UserType }.

(** [this.client.send(command)] as the provider answers it. *)
Class CognitoClient := mkCognitoClient { send : Command → Exn + Output }.

(** The log and the commands sent so far, in order. *)
Record World := mkWorld { w_log : Log; w_sent : list Command }.

Definition Cmd (A : Type) : Type := M World A.

Definition info (text : string) : Cmd unit :=
  λ w, (inr tt, mkWorld (logger_info text (w_log w)) (w_sent w)).
Definition error (text : string) (e : Exn) : Cmd unit :=
  λ w, (inr tt, mkWorld (logger_error text e (w_log w)) (w_sent w)).

Record UpdateProfileRequest := mkUpdateProfileRequest
  { up_firstName : option string;
    up_lastName : option string;
    up_phoneNumber : option string }.

Section WithClient.
Context `{CognitoSdk} `{CognitoClient}.
Variable config : Config.

Definition client_send (command : Command) : Cmd Output :=
  λ w, (send command, mkWorld (w_log w) (w_sent w ++ [command])).

(** [secretHash || undefined] *)
Definition or_undefined (secretHash : string) : option string :=
  if Js.truthy secretHash then Some secretHash else None.

Definition verifyEmail (username code : string) : Cmd unit :=
  try_catch
    (let secretHash := calculateSecretHash config username in
     client_send (ConfirmSignUpCommand (cognito_clientId config) username code
                    (or_undefined secretHash)) ;;;
     info ("Email verified for user " +:+ username))%eff
    (λ e, (error "Error verifying email:" e ;;; throw e)%eff).

Definition resendVerificationCode (username : string) : Cmd unit :=
  try_catch
    (let secretHash := calculateSecretHash config username in
     client_send (ResendConfirmationCodeCommand (cognito_clientId config) username
                    (or_undefined secretHash)) ;;;
     info ("Verification code resent for user " +:+ username))%eff
    (λ e, (error "Error resending verification code:" e ;;; throw e)%eff).

Definition forgotPassword (username : string) : Cmd unit :=
  try_catch
    (let secretHash := calculateSecretHash config username in
     client_send (ForgotPasswordCommand (cognito_clientId config) username
                    (or_undefined secretHash)) ;;;
     info ("Password reset initiated for user " +:+ username))%eff
    (λ e, (error "Error initiating password reset:" e ;;; throw e)%eff).

Definition resetPassword (username code newPassword : string) : Cmd unit :=
  try_catch
    (let secretHash := calculateSecretHash config username in
     client_send (ConfirmForgotPasswordCommand (cognito_clientId config) username code
                    newPassword (or_undefined secretHash)) ;;;
     info ("Password reset completed for user " +:+ username))%eff
    (λ e, (error "Error resetting password:" e ;;; throw e)%eff).

Definition changePassword (accessToken : option string)
    (previousPassword newPassword : string) : Cmd unit :=
  try_catch
    (client_send (ChangePasswordCommand accessToken previousPassword newPassword) ;;;
     info "Password changed successfully")%eff
    (λ e, (error "Error changing password:" e ;;; throw e)%eff).

(** [{ ...user, username }] *)
Definition with_username (user : User) (username : option string) : User :=
  mkUser (u_id user) (u_email user) (u_emailVerified user) (u_firstName user)
    (u_lastName user) (u_phoneNumber user) username.

Definition getUser (accessToken : option string) : Cmd User :=
  try_catch
    (response <- client_send (GetUserCommand accessToken) ;;
     let user := mapCognitoAttributesToUser (default [] (out_UserAttributes response)) in
     ret (with_username user (out_Username response)))%eff
    (λ e, (error "Error getting user:" e ;;; throw e)%eff).

Definition pushed (name : string) (field : option string) : list Attribute :=
  match field with
  | Some value => [mkAttribute name value]
  | None => []
  end.

Definition updateProfile (accessToken : option string)
    (data : UpdateProfileRequest) : Cmd unit :=
  try_catch
    (let attributes :=
       pushed "given_name" (up_firstName data)
       ++ pushed "family_name" (up_lastName data)
       ++ pushed "phone_number" (up_phoneNumber data) in
     if bool_decide (length attributes = 0) then ret tt
     else
       client_send (UpdateUserAttributesCommand accessToken attributes) ;;;
       info "User profile updated successfully")%eff
    (λ e, (error "Error updating user profile:" e ;;; throw e)%eff).

Definition deleteUser (accessToken : option string) : Cmd unit :=
  try_catch
    (client_send (DeleteUserCommand accessToken) ;;;
     info "User deleted successfully")%eff
    (λ e, (error "Error deleting user:" e ;;; throw e)%eff).

Definition refreshToken (refreshToken : string) : Cmd SignInResponse :=
  try_catch
    (response <- client_send
                   (InitiateAuthCommand (cognito_clientId config) REFRESH_TOKEN_AUTH
                      [("REFRESH_TOKEN", refreshToken)]) ;;
     match out_AuthenticationResult response with
     | None => throw (Error "Token refresh failed")
     | Some result =>
         userResponse <- client_send (GetUserCommand (t_accessToken result)) ;;
         let user :=
           mapCognitoAttributesToUser (default [] (out_UserAttributes userResponse)) in
         ret (mkSignInResponse
                (with_username user (out_Username userResponse))
                (mkTokens (t_accessToken result) (t_idToken result) (Some refreshToken)))
     end)%eff
    (λ e, (error "Error refreshing token:" e ;;; throw e)%eff).

Definition signOut (accessToken : option string) : Cmd unit :=
  try_catch
    (client_send (GlobalSignOutCommand accessToken) ;;;
     info "User signed out successfully")%eff
    (λ e, (error "Error signing out user:" e ;;; throw e)%eff).

(** [sendEmail: boolean = true]: an absent argument counts as [true]. *)
Definition adminCreateUser (username email temporaryPassword : string)
    (sendEmail : option bool) : Cmd User :=
  let sendEmail := default true sendEmail in
  try_catch
    (response <- client_send
                   (AdminCreateUserCommand (cognito_userPoolId config) username
                      [mkAttribute "email" email; mkAttribute "email_verified" "true"]
                      temporaryPassword
                      (if sendEmail then Some SUPPRESS else None)) ;;
     let user :=
       mapCognitoAttributesToUser
         (default [] (out_User response ≫= ut_Attributes)) in
     info ("Admin created user " +:+ username) ;;;
     ret (with_username user (out_User response ≫= ut_Username)))%eff
    (λ e, (error "Error creating user as admin:" e ;;; throw e)%eff).

Definition adminDeleteUser (username : string) : Cmd unit :=
  try_catch
    (client_send (AdminDeleteUserCommand (cognito_userPoolId config) username) ;;;
     info ("Admin deleted user " +:+ username))%eff
    (λ e, (error "Error deleting user as admin:" e ;;; throw e)%eff).

(** The calls of the service that await one command and return nothing. *)
Inductive Call :=
| VerifyEmail (username code : string)
| ResendVerificationCode (username : string)
| ForgotPassword (username : string)
| ResetPassword (username code newPassword : string)
| ChangePassword (accessToken : option string) (previousPassword newPassword : string)
| DeleteUser (accessToken : option string)
| SignOut (accessToken : option string)
| AdminDeleteUser (username : string).

Definition perform (call : Call) : Cmd unit :=
  match call with
  | VerifyEmail username code => verifyEmail username code
  | ResendVerificationCode username => resendVerificationCode username
  | ForgotPassword username => forgotPassword username
  | ResetPassword username code newPassword => resetPassword username code newPassword
  | ChangePassword accessToken previousPassword newPassword =>
      changePassword accessToken previousPassword newPassword
  | DeleteUser accessToken => deleteUser accessToken
  | SignOut accessToken => signOut accessToken
  | AdminDeleteUser username => adminDeleteUser username
  end.

End WithClient.

(** A service call that sends exactly one command: if the provider rejects
    it the call throws the provider's error after logging it once, otherwise
    it returns, having logged at most one info line. *)
Definition sends_one `{CognitoClient} {A} (m : Cmd A) (w : World) : Prop :=
  ∃ command,
    w_sent (m w).2 = w_sent w ++ [command]
    ∧ match send command with
      | inl e =>
          (m w).1 = inl e
          ∧ ∃ text, w_log (m w).2 = w_log w ++ [mkLog LError text (Some e)]
      | inr _ =>
          (∃ a, (m w).1 = inr a)
          ∧ (w_log (m w).2 = w_log w
             ∨ ∃ text, w_log (m w).2 = w_log w ++ [mkLog LInfo text None])
      end.

(** The [SecretHash] member of a command, or [SECRET_HASH] among its
    [AuthParameters]. *)
Definition secret_hash (command : Command) : option string :=
  match command with
  | ConfirmSignUpCommand _ _ _ h | ResendConfirmationCodeCommand _ _ h
  | ForgotPasswordCommand _ _ h | ConfirmForgotPasswordCommand _ _ _ _ h => h
  | InitiateAuthCommand _ _ parameters =>
      snd <$> find (λ p, bool_decide (fst p = "SECRET_HASH")) parameters
  | _ => None
  end.

End CognitoCommands.

(** ** config/env.config.ts, server.ts and the CORS policy of app.ts *)

Module JsString.

(** [s.startsWith(needle)] and [s.includes(needle)] *)
Fixpoint startsWith (needle s : string) : bool :=
  match needle, s with
  | EmptyString, _ => true
  | String a needle', String b s' => bool_decide (a = b) && startsWith needle' s'
  | String _ _, EmptyString => false
  end.

Fixpoint includes (needle s : string) : bool :=
  startsWith needle s
  || match s with
     | EmptyString => false
     | String _ rest => includes needle rest
     end.

(** [parts.join(sep)] *)
Fixpoint join (sep : string) (parts : list string) : string :=
  match parts with
  | [] => EmptyString
  | [p] => p
  | p :: ps => p +:+ sep +:+ join sep ps
  end.

End JsString.

Module EnvConfig.

(** [process.env] after [dotenv.config()]. *)
Definition Env := gmap string string.

(** [process.env[name] || fallback] *)
Definition or_else (env : Env) (name fallback : string) : string :=
  match env !! name with
  | Some value => if Js.truthy value then value else fallback
  | None => fallback
  end.

(** The members of [config] beside those of [Config]; the port, which is
    parsed from [PORT], is left out. *)
Record Settings := mkSettings
  { server_nodeEnv : string;
    aws_accessKeyId : string;
    aws_secretAccessKey : string;
    jwt_secret : string;
    jwt_expiration : string;
    cors_allowedOrigins : list string;
    session_secret : string;
    shared : Config }.

Definition config (env : Env) : Settings :=
  mkSettings
    (or_else env "NODE_ENV" "development")
    (or_else env "AWS_ACCESS_KEY_ID" "")
    (or_else env "AWS_SECRET_ACCESS_KEY" "")
    (or_else env "JWT_SECRET" "default-secret-change-in-production")
    (or_else env "JWT_EXPIRATION" "1d")
    (match env !! "ALLOWED_ORIGINS" with
     | Some value => Js.split "," value
     | None => ["http://localhost:3001"]
     end)
    (or_else env "SESSION_SECRET" "default-session-secret-change-in-production")
    (mkConfig
       (or_else env "AWS_REGION" "us-east-1")
       (or_else env "COGNITO_USER_POOL_ID" "")
       (or_else env "COGNITO_CLIENT_ID" "")
       (or_else env "COGNITO_CLIENT_SECRET" "")
       (or_else env "COGNITO_DOMAIN" "")
       (or_else env "OAUTH_CALLBACK_URL" "http://localhost:3000/oauth/callback")
       (or_else env "OAUTH_LOGOUT_URL" "http://localhost:3000")).

Definition requiredEnvVars : list string :=
  [ "AWS_REGION"; "AWS_ACCESS_KEY_ID"; "AWS_SECRET_ACCESS_KEY";
    "COGNITO_USER_POOL_ID"; "COGNITO_CLIENT_ID" ].

Definition validateConfig (env : Env) : Exn + unit :=
  let missingVars :=
    filter (λ varName, Js.truthy_opt (env !! varName) = false) requiredEnvVars in
  if bool_decide (0 < length missingVars)
  then inl (Error ("Missing required environment variables: "
                     +:+ JsString.join ", " missingVars))
  else inr tt.

(** [startServer]: the process exits with status 1 after logging the error,
    or the application listens. *)
Inductive Started := Listening (settings : Settings) | Exited (status : Z).

Definition startServer (env : Env) : Started * Log :=
  match validateConfig env with
  | inr _ => (Listening (config env), [])
  | inl e => (Exited 1, logger_error "Failed to start server:" e [])
  end.

(** The [origin] function given to [cors]: [inr true] is
    [callback(null, true)], [inl e] is [callback(e)]. *)
Definition cors_origin (settings : Settings) (origin : option string) : Exn + bool :=
  match origin with
  | None => inr true
  | Some origin =>
      if negb (Js.truthy origin) then inr true
      else if JsString.includes "localhost" origin
              || JsString.includes "127.0.0.1" origin
      then inr true
      else if bool_decide (origin ∈ cors_allowedOrigins settings) then inr true
      else inl (Error "Not allowed by CORS")
  end.

Definition demo_env : Env :=
  list_to_map
    [ ("AWS_REGION", "eu-west-1"); ("AWS_ACCESS_KEY_ID", "AKIA-demo");
      ("AWS_SECRET_ACCESS_KEY", "secret-demo");
      ("COGNITO_USER_POOL_ID", "eu-west-1_pool"); ("COGNITO_CLIENT_ID", "client-9");
      ("ALLOWED_ORIGINS", "https://a.example, https://b.example") ].

End EnvConfig.

(** ** scripts/bulk-create-users.ts *)

Module BulkCreateUsers.

Record CreateUserRequest := mkCreateUserRequest
  { email : string;
    username : string;
    password : string;
    firstName : string;
    lastName : string;
    phoneNumber : option string }.

(** How [axios.post] ends: it resolves, it rejects with the response of a
    status outside 2xx, or it rejects without a response.  [data] is [None]
    when the response has no body to read [message] from, [Some m] with [m]
    the [message] member of the body otherwise. *)
Inductive PostResult :=
| Created
| Rejected (status : Z) (data : option (option string)) (statusText : string)
| NoResponse (message : string).

(** The API, answering a request after the requests made before it. *)
Class Api := mkApi
  { post : list CreateUserRequest → CreateUserRequest → PostResult }.

(** The lines the script prints. *)
Inductive Line :=
| CreatedUser (username email : string)
| AlreadyExists (username : string)
| FailedToCreate (username message : string)
| CreatingFor (domain : string)
| Range (startNumber endNumber : Z)
| TotalToCreate (total : Z)
| SummaryFor (domain : string)
| Success (count : nat)
| Failed (count : nat).

Record Script := mkScript
  { requests : list CreateUserRequest; console : list Line }.

Definition Run (A : Type) : Type := M Script A.

Definition print (line : Line) : Run unit :=
  λ s, (inr tt, mkScript (requests s) (console s ++ [line])).

Record Counts := mkCounts { success : nat; failed : nat; skipped : nat }.

Definition DEFAULT_firstName : string := "John".
Definition DEFAULT_lastName : string := "Doe".
Definition DEFAULT_password : string := "StrongPassword@123".
Definition DEFAULT_phoneNumberPrefix : string := "+971".

Record DomainConfig := mkDomainConfig
  { domain : string; shortName : string; startCount : Z; endCount : Z }.

Definition DOMAIN_CONFIGS : list DomainConfig :=
  [ mkDomainConfig "airflyorg.ae" "airflyorg" 1 15;
    mkDomainConfig "syneratech.com" "syneratech" 1 15;
    mkDomainConfig "novatech.ae" "novatech" 1 15 ].

(** Indices are integers below 2^53, which a template literal prints in
    decimal. *)
Definition generatePhoneNumber (index : Z) : string :=
  DEFAULT_phoneNumberPrefix +:+ pretty (500000000 + index)%Z.

Definition userData (domain shortName : string) (i : Z) : CreateUserRequest :=
  mkCreateUserRequest
    ("john.doe" +:+ pretty i +:+ "@" +:+ domain)
    ("johndoe" +:+ pretty i +:+ shortName)
    DEFAULT_password DEFAULT_firstName DEFAULT_lastName
    (Some (generatePhoneNumber i)).

Section WithApi.
Context `{Api}.

Definition axios_post (userData : CreateUserRequest) : Run PostResult :=
  λ s, (inr (post (requests s) userData),
        mkScript (requests s ++ [userData]) (console s)).

(** The loop of [createUser] with [remaining] attempts left; the attempt is
    the last one when none is left after it. *)
Fixpoint attempts (userData : CreateUserRequest) (remaining : nat) : Run bool :=
  match remaining with
  | 0 => ret false
  | S remaining' =>
      let last := bool_decide (remaining' = 0) in
      let give_up_or_retry (message : string) : Run bool :=
        ((if last then print (FailedToCreate (username userData) message)
          else ret tt) ;;;
         if last then ret false else attempts userData remaining')%eff in
      (result <- axios_post userData ;;
       match result with
       | Created =>
           print (CreatedUser (username userData) (email userData)) ;;;
           ret true
       | Rejected status data statusText =>
           match data with
           | None =>
               throw (TypeError
                        "Cannot read properties of undefined (reading 'message')")
           | Some m =>
               let message := if Js.truthy_opt m then default "" m else statusText in
               if bool_decide (status = 409%Z)
                  || JsString.includes "UsernameExistsException" message
               then print (AlreadyExists (username userData)) ;;; ret false
               else give_up_or_retry message
           end
       | NoResponse message => give_up_or_retry message
       end)%eff
  end.

(** [retries = 3] *)
Definition createUser (userData : CreateUserRequest) (retries : option nat)
    : Run bool :=
  attempts userData (default 3%nat retries).

Fixpoint create_each (domain shortName : string) (indices : list Z)
    (successCount failedCount : nat) : Run (nat * nat) :=
  match indices with
  | [] => ret (successCount, failedCount)
  | i :: rest =>
      (result <- createUser (userData domain shortName i) None ;;
       if result
       then create_each domain shortName rest (S successCount) failedCount
       else create_each domain shortName rest successCount (S failedCount))%eff
  end.

Definition bulkCreateUsers (domain shortName : string) (startNumber endNumber : Z)
    : Run Counts :=
  (print (CreatingFor domain) ;;;
   print (Range startNumber endNumber) ;;;
   print (TotalToCreate (endNumber - startNumber + 1)) ;;;
   counts <- create_each domain shortName
               (seqZ startNumber (endNumber - startNumber + 1)) 0 0 ;;
   print (SummaryFor domain) ;;;
   print (Success counts.1) ;;;
   print (Failed counts.2) ;;;
   ret (mkCounts counts.1 counts.2 0))%eff.

(** The answer to the attempt made after [j] earlier attempts of the same
    request. *)
Definition answer (s : Script) (userData : CreateUserRequest) (j : nat) : PostResult :=
  post (requests s ++ replicate j userData) userData.

End WithApi.

(** An answer that says the user exists already. *)
Definition exists_already (r : PostResult) : Prop :=
  ∃ status m statusText,
    r = Rejected status (Some m) statusText
    ∧ (status = 409%Z
       ∨ JsString.includes "UsernameExistsException"
           (if Js.truthy_opt m then default "" m else statusText) = true).

(** An answer after which the script tries again, if attempts are left. *)
Definition retryable (r : PostResult) : Prop :=
  r ≠ Created ∧ ¬ exists_already r ∧ ∀ status statusText, r ≠ Rejected status None statusText.

Definition is_created (line : Line) : bool :=
  match line with CreatedUser _ _ => true | _ => false end.

Definition is_skipped (line : Line) : bool :=
  match line with AlreadyExists _ => true | _ => false end.

(** An API that knows [johndoe2airflyorg] already, fails twice on
    [johndoe3airflyorg] before creating it, and creates everyone else. *)
Definition demo_api : Api :=
  mkApi (λ history request,
    if bool_decide (username request = "johndoe2airflyorg")
    then Rejected 409 (Some None) "Conflict"
    else if bool_decide (username request = "johndoe3airflyorg")
    then if bool_decide (length (filter (λ r, username r = "johndoe3airflyorg") history) < 2)
         then NoResponse "connect ECONNREFUSED"
         else Created
    else Created).

End BulkCreateUsers.

(** ** routes/user.routes.ts and routes/auth.routes.ts: the routes behind
    [authMiddleware.authenticate] *)

Module ProtectedRoutes.
Import AuthMiddleware CognitoService CognitoCommands.

(** The body of a change-password request after validation; [accessToken]
    is not among the validated members and is usually absent. *)
Record ChangePasswordBody := mkChangePasswordBody
  { body_accessToken : option string;
    body_previousPassword : string;
    body_newPassword : string }.

Section WithEnvironment.
Context `{Packages} `{CognitoSdk} `{CognitoClient}.

(** The handlers, on the request the middleware hands them. *)
Definition getProfile (req : AuthRequest) : Cmd Controllers.Outcome :=
  try_catch
    (user <- getUser (accessToken req) ;;
     ret (Controllers.Json 200
            (Controllers.MessageBody "Profile retrieved successfully"
               (Some (Controllers.UserData user)))))%eff
    (λ e, (error "GetProfile error:" e ;;; ret (Controllers.Forward e))%eff).

Definition deleteAccount (req : AuthRequest) : Cmd Controllers.Outcome :=
  try_catch
    (deleteUser (accessToken req) ;;;
     ret (Controllers.Json 200
            (Controllers.MessageBody "Account deleted successfully" None)))%eff
    (λ e, (error "DeleteAccount error:" e ;;; ret (Controllers.Forward e))%eff).

Definition signOut (req : AuthRequest) : Cmd Controllers.Outcome :=
  try_catch
    (CognitoCommands.signOut (accessToken req) ;;;
     ret (Controllers.Json 200 (Controllers.MessageBody "Sign out successful" None)))%eff
    (λ e, (error "SignOut error:" e ;;; ret (Controllers.Forward e))%eff).

(** [{ accessToken: req.accessToken!, ...req.body }]: a member of the body
    replaces the one written before the spread. *)
Definition changePassword (body : ChangePasswordBody) (req : AuthRequest)
    : Cmd Controllers.Outcome :=
  try_catch
    (CognitoCommands.changePassword
       (match body_accessToken body with
        | Some t => Some t
        | None => accessToken req
        end)
       (body_previousPassword body) (body_newPassword body) ;;;
     ret (Controllers.Json 200
            (Controllers.MessageBody "Password changed successfully" None)))%eff
    (λ e,
       (error "ChangePassword error:" e ;;;
        if Controllers.named e "NotAuthorizedException"
        then ret (Controllers.Json 401 (Controllers.ErrorBody "Invalid current password"))
        else ret (Controllers.Forward e))%eff).

(** What a client gets back from a route behind the middleware: the
    middleware's refusal, nothing at all, or what the handler did. *)
Inductive Answer :=
| Refused (status : Z) (error : string)
| Unanswered
| Handled (result : Exn + Controllers.Outcome).

(** [router.METHOD(path, authMiddleware.authenticate, handler)]: the handler
    runs when the middleware calls [next()], on the request it has
    extended. *)
Definition guarded (handler : AuthRequest → Cmd Controllers.Outcome) (now : Z)
    (st : State) (req : AuthRequest) (w : World) : State * Answer * World :=
  match authenticate now st req with
  | (st', Respond status error) => (st', Refused status error, w)
  | (st', NoAnswer) => (st', Unanswered, w)
  | (st', Next req') =>
      let '(result, w') := handler req' w in (st', Handled result, w')
  end.

(** [GET /api/users/profile], [DELETE /api/users/account] and
    [POST /api/auth/signout]. *)
Inductive Route := GetProfile | DeleteAccount | PostSignOut.

Definition handler (route : Route) : AuthRequest → Cmd Controllers.Outcome :=
  match route with
  | GetProfile => getProfile
  | DeleteAccount => deleteAccount
  | PostSignOut => signOut
  end.

End WithEnvironment.

(** The access token a command carries. *)
Definition access_token (command : Command) : option string :=
  match command with
  | ChangePasswordCommand t _ _ | GetUserCommand t | UpdateUserAttributesCommand t _
  | DeleteUserCommand t | GlobalSignOutCommand t => t
  | _ => None
  end.

(** A provider that accepts every command. *)
Definition demo_client : CognitoClient :=
  mkCognitoClient (λ _, inr (mkOutput None None None None)).

End ProtectedRoutes.

(** ** middleware/error.middleware.ts and what the client gets *)

Module ErrorMiddleware.
Import Controllers.

(** Modelled from the spec: the generic error handler, [errorHandler] of
    middleware/error.middleware.ts, which app.ts installs after the routes
    and which is not among the sources.  The specification says of it that
    unrecognized errors propagate to a generic handler that logs full detail
    and returns an opaque 500 to the caller. *)
Definition errorHandler_status (error : Exn) : Z := 500.

(** The status the client gets: the handler's own, or the generic handler's
    when the handler has handed the error to [next]. *)
Definition status_of (o : Outcome) : Z :=
  match o with
  | Json status _ => status
  | Forward error => errorHandler_status error
  end.

(** The translations by endpoint: the status and text an endpoint answers an
    error of a given name with, where it answers it itself. *)
Definition translated (ep : Endpoint) (name : string) : option (Z * string) :=
  match ep with
  | EpSignUp =>
      if bool_decide (name = "UsernameExistsException")
      then Some (409%Z, "Username already exists")
      else if bool_decide (name = "InvalidPasswordException")
      then Some (400%Z, "Invalid password format")
      else None
  | EpSignIn =>
      if bool_decide (name = "NotAuthorizedException")
      then Some (401%Z, "Invalid username or password")
      else if bool_decide (name = "UserNotConfirmedException")
      then Some (403%Z, "User email not verified")
      else None
  | EpVerifyEmail =>
      if bool_decide (name = "CodeMismatchException")
      then Some (400%Z, "Invalid verification code")
      else if bool_decide (name = "ExpiredCodeException")
      then Some (400%Z, "Verification code has expired")
      else None
  | EpForgotPassword =>
      if bool_decide (name = "UserNotFoundException")
      then Some (404%Z, "User not found")
      else None
  | EpResetPassword =>
      if bool_decide (name = "CodeMismatchException")
      then Some (400%Z, "Invalid reset code")
      else if bool_decide (name = "ExpiredCodeException")
      then Some (400%Z, "Reset code has expired")
      else None
  | EpChangePassword =>
      if bool_decide (name = "NotAuthorizedException")
      then Some (401%Z, "Invalid current password")
      else None
  | EpRefreshToken =>
      if bool_decide (name = "NotAuthorizedException")
      then Some (401%Z, "Invalid refresh token")
      else None
  | EpAdminCreateUser =>
      if bool_decide (name = "UsernameExistsException")
      then Some (409%Z, "Username already exists")
      else None
  | EpAdminDeleteUser =>
      if bool_decide (name = "UserNotFoundException")
      then Some (404%Z, "User not found")
      else None
  | EpResendVerificationCode | EpSignOut | EpGetProfile | EpUpdateProfile
  | EpDeleteAccount | EpListUsers => None
  end.

Definition answer (ep : Endpoint) (error : Exn) : Outcome :=
  match translated ep (exn_name error) with
  | Some (status, text) => Json status (ErrorBody text)
  | None => Forward error
  end.

End ErrorMiddleware.

(** ** ASCII text *)

Module AsciiText.
Import Validators.

(** On text of ASCII characters the units the model counts are the
    characters validator.js counts, and line feed and carriage return are
    the only line terminators a pattern can meet. *)
Definition is_ascii (c : Ascii.ascii) : bool := (code c <? 128)%nat.

Definition ascii_text (s : string) : Prop := forallb_string is_ascii s = true.

Definition ascii_field (o : option string) : Prop := ∀ s, o = Some s → ascii_text s.

(** The fields of a sign-up body that this file's own validators read. *)
Definition ascii_body (b : SignUpBody) : Prop :=
  ascii_field (b_username b) ∧ ascii_field (b_password b)
  ∧ ascii_field (b_firstName b) ∧ ascii_field (b_lastName b).

End AsciiText.

(** * Properties *)

(** ** Splitting a header *)

Section SplitFacts.
Variable sep : Ascii.ascii.

Lemma split_nonempty (s : string) : Js.split sep s ≠ [].
Proof.
  destruct s as [|c rest]; simpl; [done|].
  case_bool_decide; [done|]. by destruct (Js.split sep rest).
Qed.

Lemma split_cons_char (c : Ascii.ascii) (rest : string) :
  c ≠ sep →
  ∃ p ps, Js.split sep rest = p :: ps ∧ Js.split sep (String c rest) = String c p :: ps.
Proof.
  intros Hc. simpl. rewrite bool_decide_eq_false_2 by done.
  destruct (Js.split sep rest) as [|p ps] eqn:E.
  - by destruct (split_nonempty rest).
  - by exists p, ps.
Qed.

(** No part contains the separator. *)
Lemma split_parts_clean (s : string) :
  Forall (λ p, Js.contains sep p = false) (Js.split sep s).
Proof.
  induction s as [|c rest IH]; simpl.
  - by constructor.
  - case_bool_decide as Hc.
    + by constructor.
    + destruct (Js.split sep rest) as [|p ps].
      * constructor; [|done]. simpl. by rewrite bool_decide_eq_false_2.
      * inversion IH; subst. constructor; [|done].
        simpl. by rewrite bool_decide_eq_false_2.
Qed.

Lemma join_cons_char (c : Ascii.ascii) (p : string) (ps : list string) :
  Js.join sep (String c p :: ps) = String c (Js.join sep (p :: ps)).
Proof. by destruct ps. Qed.

Lemma join_cons_empty (p : string) (ps : list string) :
  Js.join sep (EmptyString :: p :: ps) = String sep (Js.join sep (p :: ps)).
Proof. done. Qed.

(** Joining the parts gives the string back. *)
Lemma join_split (s : string) : Js.join sep (Js.split sep s) = s.
Proof.
  induction s as [|c rest IH]; [done|].
  cbn [Js.split]. case_bool_decide as Hc.
  - subst c. destruct (Js.split sep rest) as [|p ps] eqn:E.
    + by destruct (split_nonempty rest).
    + by rewrite join_cons_empty, IH.
  - destruct (Js.split sep rest) as [|p ps] eqn:E.
    + by destruct (split_nonempty rest).
    + by rewrite join_cons_char, IH.
Qed.

(** A string without the separator is its own single part. *)
Lemma split_clean (s : string) :
  Js.contains sep s = false → Js.split sep s = [s].
Proof.
  induction s as [|c rest IH]; simpl; [done|].
  intros Hc. apply orb_false_iff in Hc as [Hc Hrest].
  rewrite Hc. by rewrite IH.
Qed.

Lemma split_app_sep (a b : string) :
  Js.contains sep a = false →
  Js.split sep (a +:+ String sep b) = a :: Js.split sep b.
Proof.
  induction a as [|c rest IH]; simpl.
  - intros _. by rewrite bool_decide_eq_true_2.
  - intros Hc. apply orb_false_iff in Hc as [Hc Hrest].
    rewrite Hc. by rewrite IH.
Qed.

End SplitFacts.

(** ** The bearer-token verifier *)

Section VerifierFacts.
Import AuthMiddleware Verifier.

Lemma extractToken_split (authHeader : option string) :
  extractToken authHeader =
    match authHeader with
    | None => None
    | Some h =>
        match Js.split " " h with
        | [scheme; token] =>
            if bool_decide (scheme = "Bearer") then Some token else None
        | _ => None
        end
    end.
Proof.
  destruct authHeader as [h|]; [|done].
  unfold extractToken. destruct (Js.truthy h) eqn:Hh; simpl.
  - destruct (Js.split " " h) as [|p0 [|p1 [|p2 ps]]]; simpl; try done.
    repeat case_bool_decide; naive_solver.
  - unfold Js.truthy in Hh. apply bool_decide_eq_false in Hh.
    assert (h = "") as -> by (destruct (decide (h = "")); naive_solver).
    done.
Qed.

(** The same on the header's text: a token comes back exactly for
    [Bearer], one space, and a token without spaces. *)
Lemma extractToken_Some_iff (h token : string) :
  extractToken (Some h) = Some token
  ↔ h = "Bearer " +:+ token ∧ Js.contains " " token = false.
Proof.
  rewrite extractToken_split. split.
  - intros Hx.
    pose proof (join_split " " h) as Hj.
    pose proof (split_parts_clean " " h) as Hc.
    destruct (Js.split " " h) as [|p0 [|p1 [|p2 ps]]]; try done.
    case_bool_decide; [|done]. simplify_eq.
    split; [done|].
    by inversion Hc as [|?? _ Hc']; inversion Hc'.
  - intros [-> Hc].
    change ("Bearer " +:+ token) with ("Bearer" +:+ String " " token).
    rewrite split_app_sep by done. by rewrite split_clean.
Qed.

(** C6. [extractToken] returns nothing for an absent header and for a header
    that is not exactly two space-separated parts of which the first is
    [Bearer]; otherwise it returns the second part.  It returns in every
    case: a missing or malformed header is no error. *)
Theorem C6_extractBearer (authHeader : option string) :
  match authHeader with
  | None => extractToken authHeader = None
  | Some h =>
      (∀ token, extractToken authHeader = Some token
                ↔ Js.split " " h = ["Bearer"; token])
      ∧ (extractToken authHeader = None
         ↔ ∀ token, Js.split " " h ≠ ["Bearer"; token])
  end.
Proof.
  destruct authHeader as [h|]; [|done].
  rewrite extractToken_split.
  destruct (Js.split " " h) as [|scheme [|token [|extra parts]]]; try (split; [intros ?|]; done).
  case_bool_decide as Hscheme.
  - subst scheme. split.
    + intros t. split; [by intros [= ->] | by intros [= ->]].
    + split; [done|]. intros Hnot. by destruct (Hnot token).
  - split.
    + intros t. split; [done|]. intros [= Hs _]. done.
    + split; [|done]. intros _ t [= Hs _]. done.
Qed.

End VerifierFacts.

Section VerifyFacts.
Import AuthMiddleware Verifier.
Context {pkgs : Packages}.

#[local] Set Warnings "-clear-no-such-hyp".

Lemma truthy_true (s : string) : Js.truthy s = true ↔ s ≠ "".
Proof. unfold Js.truthy. by rewrite bool_decide_eq_true. Qed.

Lemma truthy_false (s : string) : Js.truthy s = false ↔ s = "".
Proof.
  unfold Js.truthy. rewrite bool_decide_eq_false.
  destruct (decide (s = "")); naive_solver.
Qed.

Lemma keyId_Some (token kid : string) :
  keyId token = Some kid
  ↔ ∃ d k, jwt_decode token = inr (Some d) ∧ hdr_kid (jwt_header d) = Some k
           ∧ kid_truthy k = true ∧ kid_key k = kid.
Proof.
  unfold keyId, header_keyId.
  destruct (jwt_decode token) as [e|[d|]]; simpl.
  - split; [done|]. by intros (? & ? & ? & _).
  - destruct (hdr_kid (jwt_header d)) as [k|] eqn:Ek; simpl.
    + destruct (kid_truthy k) eqn:Hk.
      * split.
        -- intros [= <-]. by exists d, k.
        -- intros (d' & k' & [= <-] & Hk' & _ & <-). congruence.
      * split; [done|]. intros (d' & k' & [= <-] & Hk' & Ht & _). congruence.
    + split; [done|]. intros (d' & k' & [= <-] & Hk' & _). congruence.
  - split; [done|]. by intros (? & ? & ? & _).
Qed.

(** [this.pems[kid]] for a key id that names an inherited member and has no
    entry, and for one that names none. *)
Lemma pems_get_inherited (ps : gmap string string) (kid : string) :
  ps !! kid = None → kid ∈ object_prototype_members →
  pems_get ps kid = Some (Inherited kid).
Proof.
  intros Hnone Hin. unfold pems_get. rewrite Hnone.
  by rewrite bool_decide_eq_true_2.
Qed.

Lemma pems_get_ordinary (ps : gmap string string) (kid : string) :
  kid ∉ object_prototype_members → pems_get ps kid = OwnPem <$> ps !! kid.
Proof.
  intros Hout. unfold pems_get. destruct (ps !! kid); [done|].
  by rewrite bool_decide_eq_false_2.
Qed.

(** What [authenticate] does with a token that decodes and names a key
    id. *)
Lemma authenticate_keyed (now : Z) (st : State) (req : AuthRequest)
    (token kid : string) :
  extractToken (authorization req) = Some token → token ≠ "" →
  keyId token = Some kid →
  authenticate now st req =
    match pems_get (pems st) kid with
    | None => (st, InvalidToken)
    | Some key =>
        if negb (key_truthy key) then (st, InvalidToken)
        else
          match jwt_verify now token key with
          | Calls (inl err) =>
              (mkState (pems st)
                 (logger_error "Token verification error:" err (mw_log st)),
               TokenVerificationFailed)
          | Calls (inr decoded) =>
              (st, Next (mkAuthRequest (authorization req) (Some decoded) (Some token)))
          | Throws error => authentication_failed st error
          | NeverCalls => (st, NoAnswer)
          end
    end.
Proof.
  intros Hx Ht (d & k & Hd & Hk & Htruthy & <-)%keyId_Some.
  unfold authenticate. rewrite Hx.
  apply truthy_true in Ht. rewrite Ht. simpl.
  by rewrite Hd, Hk, Htruthy.
Qed.

(** [authenticate] on a token that [jwt.decode] does not decode to a header
    with a key id. *)
Lemma authenticate_unkeyed (now : Z) (st : State) (req : AuthRequest)
    (token : string) :
  extractToken (authorization req) = Some token → token ≠ "" →
  keyId token = None →
  authenticate now st req =
    match jwt_decode token with
    | inl error => authentication_failed st error
    | inr _ => (st, InvalidToken)
    end.
Proof.
  intros Hx Ht Hkid. unfold authenticate. rewrite Hx.
  apply truthy_true in Ht. rewrite Ht. simpl.
  unfold keyId, header_keyId in Hkid.
  destruct (jwt_decode token) as [e|[d|]]; [done| |done].
  simpl in Hkid. destruct (hdr_kid (jwt_header d)) as [k|]; [|done].
  simpl in Hkid. by destruct (kid_truthy k).
Qed.

(** C2 on the code, case by case, for a request that carries a token.  A
    token that decodes and names no key id, or names one that is not in the
    key set and is not the name of a member every object inherits, is
    answered 401 [Invalid token].  A token whose key id is in the key set
    goes to [jwt.verify] with that key: an error it reports is logged and
    answered 401 [Token verification failed], and a payload it yields is
    attached to the request, which is passed on.  The code departs from the
    claim in two places.  A token whose key id is not in the key set but is
    the name of an inherited member is not answered [Invalid token]: the
    lookup in the plain object [pems] yields the member, which is truthy,
    and the request goes to [jwt.verify] with that member as key.  And a
    token on which [jwt.decode] throws is answered 500
    [Authentication failed]. *)
Theorem C2_verify_cases (now : Z) (st : State) (req : AuthRequest)
    (token : string) :
  extractToken (authorization req) = Some token → token ≠ "" →
  let verified key :=
    match jwt_verify now token key with
    | Calls (inl err) =>
        (mkState (pems st)
           (logger_error "Token verification error:" err (mw_log st)),
         TokenVerificationFailed)
    | Calls (inr decoded) =>
        (st, Next (mkAuthRequest (authorization req) (Some decoded) (Some token)))
    | Throws error =>
        (mkState (pems st)
           (logger_error "Authentication error:" error (mw_log st)),
         AuthenticationFailed)
    | NeverCalls => (st, NoAnswer)
    end in
  (keyId token = None → (∀ error, jwt_decode token ≠ inl error) →
   authenticate now st req = (st, InvalidToken))
  ∧ (∀ kid, keyId token = Some kid → unknown_key st kid →
            kid ∉ object_prototype_members →
            authenticate now st req = (st, InvalidToken))
  ∧ (∀ kid pem, keyId token = Some kid → known_key st kid pem → pem ≠ "" →
                authenticate now st req = verified (OwnPem pem))
  ∧ (∀ kid, keyId token = Some kid → unknown_key st kid →
            kid ∈ object_prototype_members →
            (authenticate now st req).2 ≠ InvalidToken
            ∧ authenticate now st req = verified (Inherited kid))
  ∧ (∀ error, jwt_decode token = inl error →
              authenticate now st req
              = (mkState (pems st)
                   (logger_error "Authentication error:" error (mw_log st)),
                 AuthenticationFailed)).
Proof.
  intros Hx Ht verified. split_and!.
  - intros Hkid Hdecodes.
    rewrite (authenticate_unkeyed now st req token Hx Ht Hkid).
    destruct (jwt_decode token) as [error|]; [|done]. by destruct (Hdecodes error).
  - intros kid Hkid Hunknown Hordinary.
    rewrite (authenticate_keyed now st req token kid Hx Ht Hkid).
    rewrite (pems_get_ordinary (pems st) kid Hordinary).
    unfold unknown_key in Hunknown. by rewrite Hunknown.
  - intros kid pem Hkid Hknown Hpem.
    rewrite (authenticate_keyed now st req token kid Hx Ht Hkid).
    unfold known_key in Hknown. unfold pems_get. rewrite Hknown. simpl.
    apply truthy_true in Hpem. by rewrite Hpem.
  - intros kid Hkid Hunknown Hmember.
    rewrite (authenticate_keyed now st req token kid Hx Ht Hkid).
    rewrite (pems_get_inherited (pems st) kid Hunknown Hmember). simpl.
    split; [|done]. unfold verified.
    by destruct (jwt_verify now token (Inherited kid)) as [[err|decoded]|error|].
  - intros error Hthrows.
    assert (keyId token = None) as Hkid.
    { unfold keyId. by rewrite Hthrows. }
    rewrite (authenticate_unkeyed now st req token Hx Ht Hkid).
    by rewrite Hthrows.
Qed.

End VerifyFacts.

Section LoadFacts.
Import AuthMiddleware Verifier.
Context {pkgs : Packages}.

Lemma converted_Some (jwk : JWK) (kv : string * string) :
  converted jwk = Some kv
  → jwkToPem (jwk_kty jwk) (jwk_n jwk) (jwk_e jwk) = inr kv.2 ∧ kv.1 = jwk_kid jwk.
Proof.
  unfold converted. destruct (jwkToPem _ _ _); [done|].
  intros [= <-]. done.
Qed.

Lemma converted_None (jwk : JWK) :
  converted jwk = None → ∃ e, jwkToPem (jwk_kty jwk) (jwk_n jwk) (jwk_e jwk) = inl e.
Proof. unfold converted. destruct (jwkToPem _ _ _); [eauto|done]. Qed.

(** One assignment, then the entries of later ones over it. *)
Lemma stored_after_set (k v : string) (kvs : list (string * string))
    (ps : gmap string string) :
  list_to_map (reverse (stored kvs)) ∪ pems_set ps k v
  = list_to_map (reverse (stored ((k, v) :: kvs))) ∪ ps.
Proof.
  unfold stored, pems_set. case_bool_decide as Hk.
  - by rewrite filter_cons_False by (simpl; tauto).
  - rewrite filter_cons_True by done.
    rewrite reverse_cons, list_to_map_app. simpl.
    rewrite <- (assoc_L (∪)). f_equal.
    by rewrite <- insert_union_l, (left_id_L ∅ (∪)).
Qed.

(** The loop stores the keys it converts, later entries over earlier ones,
    and stops at the first key that does not convert. *)
Lemma forEach_jwk_stops (good : list JWK) (kvs : list (string * string))
    (bad : JWK) (rest : list JWK) (ps : gmap string string) :
  Forall2 (λ jwk kv, converted jwk = Some kv) good kvs →
  converted bad = None →
  ∃ e, forEach_jwk (good ++ bad :: rest) ps
       = (list_to_map (reverse (stored kvs)) ∪ ps, Some e).
Proof.
  intros Hgood Hbad. revert ps.
  induction Hgood as [|jwk [k v] good kvs Hjwk _ IH]; intros ps.
  - apply converted_None in Hbad as [e He]. exists e.
    simpl. rewrite He. by rewrite (left_id_L ∅ (∪)).
  - apply converted_Some in Hjwk as [Hpem Hk]. simpl in *. subst k.
    rewrite Hpem. destruct (IH (pems_set ps (jwk_kid jwk) v)) as [e ->].
    exists e. f_equal. apply stored_after_set.
Qed.

Lemma pems_get_empty (kid : string) :
  kid ∉ object_prototype_members → pems_get ∅ kid = None.
Proof. intros Hout. by rewrite pems_get_ordinary, lookup_empty. Qed.

Lemma empty_fails_closed (st : State) : pems st = ∅ → fails_closed st.
Proof.
  intros Hempty now req Hordinary.
  unfold authenticate, optionalAuthenticate, authentication_failed, optional_failed.
  rewrite Hempty.
  destruct (extractToken (authorization req)) as [token|] eqn:Hx; [|eauto 10].
  destruct (Js.truthy token); simpl; [|eauto 10].
  destruct (jwt_decode token) as [e|[d|]] eqn:Hd; [eauto 10| |eauto 10].
  destruct (hdr_kid (jwt_header d)) as [kid|] eqn:Hkid; [|eauto 10].
  destruct (kid_truthy kid) eqn:Htruthy; simpl; [|eauto 10].
  rewrite pems_get_empty; [eauto 10|].
  intros Hmember. apply Hordinary. exists token, (kid_key kid).
  split_and!; [done| |done].
  unfold keyId, header_keyId. rewrite Hd, Hkid. simpl. by rewrite Htruthy.
Qed.

(** C5, as the code has it.  When the one load fails, the failure is logged
    and the constructor still returns; the key set then holds the keys that
    were converted and stored before the failure, so it is empty on a
    rejected request, on a document without a [keys] array and when the
    first key does not convert; and with an empty key set no request whose
    key id is an ordinary one gets an identity. *)
Theorem C5_failed_load (response : AxiosResult) (kvs : list (string * string)) :
  LoadFailure response kvs →
  load_failed response
  ∧ pems (constructor response) = list_to_map (reverse (stored kvs))
  ∧ (kvs = [] → pems (constructor response) = ∅)
  ∧ (pems (constructor response) = ∅ → fails_closed (constructor response)).
Proof.
  intros Hfail.
  assert (pems (constructor response) = list_to_map (reverse (stored kvs))) as Hpems.
  { destruct Hfail as [e| |good bad rest kvs Hgood Hbad];
      unfold constructor, initializePems; simpl; [done..|].
    destruct (forEach_jwk_stops good kvs bad rest ∅ Hgood Hbad) as [e ->].
    simpl. by rewrite (right_id_L ∅ (∪)). }
  split_and!.
  - destruct Hfail as [e| |good bad rest kvs Hgood Hbad];
      unfold load_failed, constructor, initializePems; simpl; [eauto..|].
    destruct (forEach_jwk_stops good kvs bad rest ∅ Hgood Hbad) as [e ->].
    eauto.
  - done.
  - intros ->. by rewrite Hpems.
  - apply empty_fails_closed.
Qed.

End LoadFacts.

Section VerifierExamples.
Import AuthMiddleware Verifier.
#[local] Existing Instance demo_packages.

Lemma C6_extractBearer_witness :
  extractToken (Some "Bearer abc.def.ghi") = Some "abc.def.ghi"
  ∧ extractToken (Some "Basic abc.def.ghi") = None
  ∧ extractToken (Some "Bearer abc def") = None.
Proof.
  split_and!.
  - by apply (C6_extractBearer (Some "Bearer abc.def.ghi")).
  - by apply (C6_extractBearer (Some "Basic abc.def.ghi")).
  - by apply (C6_extractBearer (Some "Bearer abc def")).
Defined.

(** The failing inputs of C2, on an instance with the one key [k1]: a token
    whose header names the key id [constructor] is never answered, one that
    names [hasOwnProperty] is answered 500, and so is one on which
    [jwt.decode] throws. *)
Lemma C2_verify_cases_witness :
  let st := constructor demo_mixed_document in
  unknown_key st "constructor"
  ∧ (authenticate 3 st (bearer "constructor/mallory/xxxxx/n9")).2 = NoAnswer
  ∧ (authenticate 3 st (bearer "hasOwnProperty/mallory/xxxxx/n9")).2
    = AuthenticationFailed
  ∧ (authenticate 3 st (bearer "not-json")).2 = AuthenticationFailed.
Proof.
  intros st. split; [reflexivity|]. split_and!.
  - destruct (C2_verify_cases 3 st (bearer "constructor/mallory/xxxxx/n9")
                "constructor/mallory/xxxxx/n9" eq_refl)
      as (_ & _ & _ & Hinherited & _); [done|].
    destruct (Hinherited "constructor") as [_ Hrun]; [reflexivity|reflexivity| |].
    + unfold object_prototype_members. rewrite !elem_of_cons. by left.
    + exact (f_equal snd Hrun).
  - destruct (C2_verify_cases 3 st (bearer "hasOwnProperty/mallory/xxxxx/n9")
                "hasOwnProperty/mallory/xxxxx/n9" eq_refl)
      as (_ & _ & _ & Hinherited & _); [done|].
    destruct (Hinherited "hasOwnProperty") as [_ Hrun]; [reflexivity|reflexivity| |].
    + unfold object_prototype_members. rewrite !elem_of_cons. by do 3 right; left.
    + exact (f_equal snd Hrun).
  - destruct (C2_verify_cases 3 st (bearer "not-json") "not-json" eq_refl)
      as (_ & _ & _ & _ & Hthrows); [done|].
    exact (f_equal snd (Hthrows _ eq_refl)).
Defined.

(** C5 as stated fails on a key set document whose second key does not
    convert: the load fails and is logged, yet the first key stays in the key
    set and a token signed under it is verified. *)
Lemma C5_partial_load_counterexample :
  load_failed demo_mixed_document
  ∧ pems (constructor demo_mixed_document) ≠ ∅
  ∧ identity_of
      (snd (authenticate 3 (constructor demo_mixed_document)
              (bearer "k1/alice/xxxxx/n1")))
    = Some (mkDecodedToken (Some "alice") (Some "alice@example.com") (Some "alice")
              (Some 5%Z) (Some 0%Z)).
Proof.
  split_and!.
  - eexists. reflexivity.
  - intros Hempty. apply (f_equal (λ m, m !! "k1")) in Hempty.
    vm_compute in Hempty. discriminate.
  - reflexivity.
Qed.

Lemma C5_failed_load_witness :
  pems (constructor demo_mixed_document) = {[ "k1" := "PEM n1" ]}
  ∧ fails_closed (constructor (inl (Error "connect ECONNREFUSED"))).
Proof.
  split.
  - destruct (C5_failed_load demo_mixed_document [("k1", "PEM n1")]) as (_ & Hpems & _).
    + apply (KeyNotConverted [demo_jwk "k1" "RSA" "n1"] (demo_jwk "k2" "OKP" "n2") []).
      * repeat constructor.
      * reflexivity.
    + exact Hpems.
  - destruct (C5_failed_load (inl (Error "connect ECONNREFUSED")) []
                (NetworkFailure _)) as (_ & _ & Hempty & Hclosed).
    exact (Hclosed (Hempty eq_refl)).
Defined.

End VerifierExamples.

(** ** The session flow *)

Section EffectFacts.
Import Http Flow.
Context (P : Event → Prop).

Lemma only_emits_ret {A} (a : A) : only_emits P (ret a).
Proof. intros [r m evs]. exists []. simpl. by rewrite app_nil_r. Qed.

Lemma only_emits_throw {A} (e : Exn) : only_emits P (throw (A:=A) e).
Proof. intros [r m evs]. exists []. simpl. by rewrite app_nil_r. Qed.

Lemma only_emits_lift {A} (r : Exn + A) : only_emits P (lift r).
Proof. destruct r; [apply only_emits_throw | apply only_emits_ret]. Qed.

Lemma only_emits_emit (ev : Event) : P ev → only_emits P (emit ev).
Proof. intros Hev s. exists [ev]. split; [done|]. by constructor. Qed.

Lemma only_emits_bind {A B} (m : Eff A) (k : A → Eff B) :
  only_emits P m → (∀ a, only_emits P (k a)) → only_emits P (bind m k).
Proof.
  intros Hm Hk s. unfold bind.
  destruct (Hm s) as (evs & Hs & HP).
  destruct (m s) as [[e|a] s1]; simpl in *; subst s1.
  - by exists evs.
  - destruct (Hk a (mkSt (req_session s) (store s) (events s ++ evs)))
      as (evs' & -> & HP').
    exists (evs ++ evs'). simpl. rewrite (assoc_L (++)).
    split; [done|]. by apply Forall_app.
Qed.

Lemma only_emits_try_catch {A} (m : Eff A) (h : Exn → Eff A) :
  only_emits P m → (∀ e, only_emits P (h e)) → only_emits P (try_catch m h).
Proof.
  intros Hm Hh s. unfold try_catch.
  destruct (Hm s) as (evs & Hs & HP).
  destruct (m s) as [[e|a] s1]; simpl in *; subst s1.
  - destruct (Hh e (mkSt (req_session s) (store s) (events s ++ evs)))
      as (evs' & -> & HP').
    exists (evs ++ evs'). simpl. rewrite (assoc_L (++)).
    split; [done|]. by apply Forall_app.
  - by exists evs.
Qed.

End EffectFacts.

Create HintDb emits.
#[local] Hint Resolve only_emits_ret only_emits_throw only_emits_lift : emits.

Section ClientFacts.
Import Http OpenidClient Flow.
Context {provider : Provider}.

Lemma validateIdToken_emits c ts n by_ :
  only_emits is_request (validateIdToken c ts n by_).
Proof.
  unfold validateIdToken.
  destruct (id_token ts) as [jwt|]; eauto with emits.
  destruct (Js.truthy jwt); simpl; eauto with emits.
  apply only_emits_bind; eauto with emits.
  intros claims. case_bool_decide; eauto with emits.
  destruct (checkHashes by_ ts claims); eauto with emits.
Qed.

Lemma client_callback_emits c uri params n s :
  only_emits is_request (client_callback c uri params n s).
Proof.
  unfold client_callback.
  repeat match goal with
         | |- only_emits _ (if ?b then _ else _) => destruct b
         end; eauto with emits.
  apply only_emits_bind.
  - destruct (Js.truthy_opt (p_id_token params));
      eauto using validateIdToken_emits with emits.
  - intros _. destruct (p_code params) as [code|]; eauto with emits.
    destruct (Js.truthy code); eauto with emits.
    apply only_emits_bind; [by apply only_emits_emit|intros _].
    apply only_emits_bind; eauto using validateIdToken_emits with emits.
Qed.

Lemma client_userinfo_emits c t : only_emits is_request (client_userinfo c t).
Proof.
  unfold client_userinfo. destruct t as [t|]; eauto with emits.
  destruct (Js.truthy t); eauto with emits.
  apply only_emits_bind; [by apply only_emits_emit|eauto with emits].
Qed.

End ClientFacts.

Section CallbackFacts.
Import Http OpenidClient ExpressSession OAuthController Flow.
Context {provider : Provider} {sessions : SessionStore}.
Variable config : Config.
Variable oidcService : OIDCService.t.

Lemma truthy_ne (s : string) : s ≠ "" → Js.truthy s = true.
Proof. intros. unfold Js.truthy. by apply bool_decide_eq_true. Qed.

Lemma client_callback_state_mismatch c uri params n s st :
  s ≠ "" → p_state params ≠ Some s →
  ∃ e, client_callback c uri params n s st = (inl e, st).
Proof.
  intros Hs Hne. unfold client_callback. rewrite (truthy_ne s Hs). simpl.
  rewrite andb_false_r, andb_true_r.
  destruct (Js.truthy_opt (p_state params)); simpl; [|by eexists].
  rewrite bool_decide_eq_true_2 by done. by eexists.
Qed.

Lemma validateIdToken_nonce_mismatch c ts n by_ jwt claims st :
  id_token ts = Some jwt → validateJWT c jwt = inr claims →
  claim_nonce claims ≠ Some n →
  ∃ e, validateIdToken c ts n by_ st = (inl e, st).
Proof.
  intros Hid Hjwt Hne. unfold validateIdToken. rewrite Hid.
  destruct (Js.truthy jwt); simpl; [|by eexists].
  unfold bind. rewrite Hjwt. simpl.
  rewrite bool_decide_eq_true_2 by done. by eexists.
Qed.

Lemma client_callback_nonce_mismatch c params n s st :
  nonce_mismatch config c params n →
  ∃ e st', client_callback c (oauth_callbackUrl config) params n s st = (inl e, st').
Proof.
  intros (jwt & claims & Hpresented & Hjwt & Hne). unfold client_callback.
  repeat match goal with
         | |- ∃ e st', (if ?b then _ else _) st = _ => destruct b; [by do 2 eexists|]
         end.
  unfold bind at 1.
  destruct Hpresented as [[Hp Hjwt_ne] | (code & ts & Hcode & Hcode_ne & Hgrant & Hid)].
  - rewrite Hp. simpl. rewrite (truthy_ne jwt Hjwt_ne).
    destruct (validateIdToken_nonce_mismatch c (TokenSet_of_params params) n
                "authorization" jwt claims st Hp Hjwt Hne) as [e ->].
    by do 2 eexists.
  - match goal with
    | |- ∃ e st', match ?m st with _ => _ end = _ =>
        destruct (m st) as [[e|a] st1]; [by do 2 eexists|]
    end.
    rewrite Hcode, (truthy_ne code Hcode_ne).
    unfold bind, emit. simpl. rewrite Hgrant. simpl.
    match goal with
    | |- ∃ e st', validateIdToken _ _ _ _ ?s = _ =>
        destruct (validateIdToken_nonce_mismatch c ts n "token" jwt claims s
                    Hid Hjwt Hne) as [e ->]
    end.
    by do 2 eexists.
Qed.

(** The controller's guard. *)
Lemma callback_guard c params st :
  OIDCService.client oidcService = Some c →
  oauth_of st ≫= nonce = None ∨ oauth_of st ≫= state = None →
  callback config oidcService params st
  = (inr tt,
     mkSt (req_session st) (store st)
       (events st
          ++ [ Logged (mkLog LError "OAuth callback error:"
                         (Some (Error "Session state missing")));
               Sent (error_page "Session state missing") ])).
Proof.
  intros Hc Hmissing.
  unfold callback, try_catch, bind, OIDCService.getClient, get_oauth,
    logger_error, res_render, emit, throw.
  rewrite Hc. simpl. unfold oauth_of in Hmissing.
  destruct Hmissing as [-> | Hs].
  - simpl. by rewrite <- (assoc_L (++)).
  - rewrite Hs. destruct ((req_session st ≫= oauth) ≫= nonce);
      simpl; by rewrite <- (assoc_L (++)).
Qed.

Lemma callback_uninitialised params st :
  OIDCService.client oidcService = None →
  callback config oidcService params st
  = (inr tt,
     mkSt (req_session st) (store st)
       (events st
          ++ [ Logged (mkLog LError "OAuth callback error:"
                         (Some (Error "OIDC client not initialized")));
               Sent (error_page "OIDC client not initialized") ])).
Proof.
  intros Hc.
  unfold callback, try_catch, bind, OIDCService.getClient, logger_error,
    res_render, emit, throw.
  rewrite Hc. simpl. by rewrite <- (assoc_L (++)).
Qed.

(** The controller when the client's [callback] throws. *)
Lemma callback_client_failure c params n s e st st1 :
  OIDCService.client oidcService = Some c →
  oauth_of st ≫= nonce = Some n → oauth_of st ≫= state = Some s →
  n ≠ "" → s ≠ "" →
  client_callback c (oauth_callbackUrl config) params n s st = (inl e, st1) →
  callback config oidcService params st
  = (inr tt,
     mkSt (req_session st1) (store st1)
       (events st1
          ++ [ Logged (mkLog LError "OIDC callback error:" (Some e));
               Logged (mkLog LError "OAuth callback error:" (Some e));
               Sent (error_page (exn_message e)) ])).
Proof.
  intros Hc Hn Hs Hn_ne Hs_ne Hfail.
  unfold callback, try_catch, bind, OIDCService.getClient, get_oauth,
    OIDCService.callback, logger_error, res_render, emit, throw.
  rewrite Hc. simpl. unfold oauth_of in Hn, Hs. rewrite Hn, Hs.
  rewrite (truthy_ne n Hn_ne), (truthy_ne s Hs_ne). simpl.
  unfold try_catch. rewrite Hfail. simpl.
  by rewrite <- !(assoc_L (++)).
Qed.

End CallbackFacts.

Section CallbackClaims.
Import Http OpenidClient ExpressSession OAuthController Flow.
Context {provider : Provider} {sessions : SessionStore}.
Variable config : Config.
Variable oidcService : OIDCService.t.

Lemma responses_app (a b : list Event) : responses (a ++ b) = responses a ++ responses b.
Proof. apply omap_app. Qed.

Lemma token_requests_app (a b : list Event) :
  token_requests (a ++ b) = token_requests a ++ token_requests b.
Proof. apply omap_app. Qed.

Lemma responses_of_requests (evs : list Event) :
  Forall is_request evs → responses evs = [].
Proof.
  induction 1 as [|ev evs Hev _ IH]; [done|].
  destruct ev; simpl in *; done.
Qed.

Lemma pending_truthy (st : St) (n s : string) :
  flow_state (oauth_of st) = PendingCallback →
  anti_replay st = (Some n, Some s) →
  n ≠ "" ∧ s ≠ "" ∧ is_authenticated (oauth_of st) = false.
Proof.
  unfold flow_state, anti_replay. intros Hflow [= Hn Hs].
  destruct (is_authenticated (oauth_of st)); [done|].
  rewrite Hn, Hs in Hflow. simpl in Hflow.
  destruct (Js.truthy n) eqn:En, (Js.truthy s) eqn:Es; try done.
  unfold Js.truthy in *. by rewrite !bool_decide_eq_true in *.
Qed.

(** C1, as the code has it.  For a session in PendingCallback: when the
    callback's [state] is not exactly the stored one, or an ID token that
    comes with the callback carries a nonce other than the stored one, an
    initialised client's [callback] throws, the user gets the error page,
    and the session is left as it was, still PendingCallback, with no user
    info and no tokens.  While the OIDC client is not initialised the
    callback ends before any validation, with [OIDC client not initialized],
    and leaves the session as it was too. *)
Theorem C1_callback_mismatch_fails_closed params n s st :
  events st = [] →
  flow_state (oauth_of st) = PendingCallback →
  anti_replay st = (Some n, Some s) →
  let st' := run config oidcService (GetCallback params) st in
  (∀ c, OIDCService.client oidcService = Some c →
        p_state params ≠ Some s ∨ nonce_mismatch config c params n →
        CallbackValidationFailed (events st'))
  ∧ (OIDCService.client oidcService = None → ServiceNotInitialized (events st'))
  ∧ (OIDCService.client oidcService = None
     ∨ (∃ c, OIDCService.client oidcService = Some c
             ∧ (p_state params ≠ Some s ∨ nonce_mismatch config c params n)) →
     req_session st' = req_session st
     ∧ store st' = store st
     ∧ flow_state (oauth_of st') = PendingCallback).
Proof.
  intros Hevs Hflow Hpair st'.
  destruct (pending_truthy st n s Hflow Hpair) as (Hn_ne & Hs_ne & _).
  assert (∀ c, OIDCService.client oidcService = Some c →
               p_state params ≠ Some s ∨ nonce_mismatch config c params n →
               ∃ e evs,
                 Forall is_request evs
                 ∧ st' = mkSt (req_session st) (store st)
                           (evs ++ [ Logged (mkLog LError "OIDC callback error:" (Some e));
                                     Logged (mkLog LError "OAuth callback error:" (Some e));
                                     Sent (error_page (exn_message e)) ])) as Hinit.
  { intros c Hc Hmismatch.
    assert (∃ e st1, client_callback c (oauth_callbackUrl config) params n s st
                     = (inl e, st1)) as (e & st1 & Hfail).
    { destruct Hmismatch as [Hstate | Hnonce].
      - destruct (client_callback_state_mismatch c (oauth_callbackUrl config)
                    params n s st Hs_ne Hstate) as [e He]. eauto.
      - by apply client_callback_nonce_mismatch. }
    destruct (client_callback_emits c (oauth_callbackUrl config) params n s st)
      as (evs & Hst1 & Hreq).
    rewrite Hfail in Hst1. simpl in Hst1. subst st1.
    injection Hpair as Hn Hs. exists e, evs. split; [done|].
    subst st'. unfold run, route.
    rewrite (callback_client_failure config oidcService c params n s e st _
               Hc Hn Hs Hn_ne Hs_ne Hfail).
    simpl. by rewrite Hevs. }
  assert (OIDCService.client oidcService = None →
          st' = mkSt (req_session st) (store st)
                  [ Logged (mkLog LError "OAuth callback error:"
                              (Some (Error "OIDC client not initialized")));
                    Sent (error_page "OIDC client not initialized") ]) as Hnone.
  { intros Hc. subst st'. unfold run, route.
    rewrite (callback_uninitialised config oidcService params st Hc).
    simpl. by rewrite Hevs. }
  split_and!.
  - intros c Hc Hmismatch.
    destruct (Hinit c Hc Hmismatch) as (e & evs & Hreq & ->). simpl.
    exists e. split.
    + rewrite elem_of_app. right. by left.
    + by rewrite responses_app, (responses_of_requests evs Hreq).
  - intros Hc. by rewrite (Hnone Hc).
  - intros [Hc | (c & Hc & Hmismatch)].
    + by rewrite (Hnone Hc).
    + by destruct (Hinit c Hc Hmismatch) as (e & evs & Hreq & ->).
Qed.

(** C3, as the code has it.  A callback on a session whose nonce or state
    was never set sends nothing to the token endpoint and leaves the session
    as it was; with the OIDC client initialised it ends in the controller's
    guard with [Session state missing], and while the client is not
    initialised it ends before the guard with [OIDC client not
    initialized]. *)
Theorem C3_callback_without_initiate params st :
  events st = [] →
  oauth_of st ≫= nonce = None ∨ oauth_of st ≫= state = None →
  let st' := run config oidcService (GetCallback params) st in
  token_requests (events st') = []
  ∧ req_session st' = req_session st
  ∧ store st' = store st
  ∧ (is_Some (OIDCService.client oidcService) → SessionStateMissing (events st'))
  ∧ (OIDCService.client oidcService = None → ServiceNotInitialized (events st')).
Proof.
  intros Hevs Hmissing st'. subst st'. unfold run, route.
  destruct (OIDCService.client oidcService) as [c|] eqn:Hc.
  - rewrite (callback_guard config oidcService c params st Hc Hmissing).
    simpl. rewrite Hevs. by split_and!.
  - rewrite (callback_uninitialised config oidcService params st Hc).
    simpl. rewrite Hevs. by split_and!.
Qed.

End CallbackClaims.

Section CallbackExamples.
Import Http OpenidClient ExpressSession OAuthController Flow.
#[local] Existing Instance demo_provider.
#[local] Existing Instance MemoryStore.

Lemma C1_callback_mismatch_witness :
  let pending := mkOAuthSession (Some "nonce-2") (Some "state-1") None None None None in
  let st := load {[ "sid-1" := Some pending ]} "sid-1" in
  let st' := run demo_config demo_service
               (GetCallback (demo_params "code-1" "state-1")) st in
  CallbackValidationFailed (events st') ∧ req_session st' = req_session st.
Proof.
  intros pending st st'.
  assert (nonce_mismatch demo_config demo_client (demo_params "code-1" "state-1") "nonce-2")
    as Hmismatch.
  { exists "idt:nonce-1", (mkIdTokenClaims "alice" (Some "nonce-1")).
    split_and!; [|reflexivity|done].
    right. exists "code-1", (mkTokenSet (Some "at-1") (Some "idt:nonce-1") (Some "rt-1")).
    by split_and!. }
  destruct (C1_callback_mismatch_fails_closed demo_config demo_service
              (demo_params "code-1" "state-1") "nonce-2" "state-1" st
              eq_refl eq_refl eq_refl)
    as (Hfailed & _ & Hsame).
  split.
  - apply (Hfailed demo_client eq_refl). by right.
  - apply Hsame. right. exists demo_client. split; [reflexivity | by right].
Defined.

(** C1 as stated fails while the OIDC client is not initialised: [login]
    stores the nonce and state before it fails, so the session is in
    PendingCallback, and a callback with another [state] then ends with
    [OIDC client not initialized], not with a validation failure. *)
Lemma C1_uninitialised_counterexample :
  let svc := OIDCService.constructor demo_config in
  let m := (serve (route demo_config svc (GetLogin "nonce-1" "state-1")) ∅ "sid-1").1 in
  let st := load m "sid-1" in
  let st' := run demo_config svc (GetCallback (demo_params "code-1" "state-9")) st in
  flow_state (oauth_of st) = PendingCallback
  ∧ p_state (demo_params "code-1" "state-9") ≠ oauth_of st ≫= state
  ∧ ServiceNotInitialized (events st')
  ∧ ¬ CallbackValidationFailed (events st').
Proof.
  split_and!; [reflexivity | done | reflexivity |].
  intros (e & Hin & _). vm_compute in Hin.
  apply elem_of_cons in Hin as [Hin | Hin]; [discriminate|].
  apply elem_of_cons in Hin as [Hin | Hin]; [discriminate|].
  by apply not_elem_of_nil in Hin.
Qed.

Lemma C3_callback_without_initiate_witness :
  let st' := run demo_config demo_service
               (GetCallback (demo_params "code-1" "state-1")) (load ∅ "sid-1") in
  SessionStateMissing (events st') ∧ token_requests (events st') = [].
Proof.
  intros st'.
  destruct (C3_callback_without_initiate demo_config demo_service
              (demo_params "code-1" "state-1") (load ∅ "sid-1") eq_refl)
    as (Hnone & _ & _ & Hmissing & _).
  - by left.
  - split; [|exact Hnone]. apply Hmissing. by eexists.
Defined.

(** C3 as stated fails while the OIDC client is not initialised: the
    callback ends with [OIDC client not initialized] before it looks at the
    session. *)
Lemma C3_uninitialised_counterexample :
  let st := load ∅ "sid-1" in
  let st' := run demo_config (OIDCService.constructor demo_config)
               (GetCallback (demo_params "code-1" "state-1")) st in
  anti_replay st = (None, None)
  ∧ ServiceNotInitialized (events st')
  ∧ ¬ SessionStateMissing (events st').
Proof. by split_and!. Qed.

End CallbackExamples.

Section RouteFacts.
Import Http OpenidClient ExpressSession OAuthController Flow.
Context {provider : Provider} {sessions : SessionStore}.
Variable config : Config.
Variable oidcService : OIDCService.t.

#[local] Abbreviation run := (run config oidcService).

Lemma run_home st : run GetHome st
  = mkSt (req_session st) (store st)
      (events st ++ [Sent (Render 200 (HomeView (is_authenticated (oauth_of st))
                                          (oauth_of st ≫= userInfo)))]).
Proof. done. Qed.

Lemma run_profile st :
  req_session (run GetProfile st) = req_session st
  ∧ store (run GetProfile st) = store st.
Proof.
  unfold OAuthController.run, route, profile, bind, get_oauth. simpl.
  by destruct ((req_session st ≫= oauth) ≫= userInfo).
Qed.

Lemma run_login nonce state st sess :
  req_session st = Some sess →
  req_session (run (GetLogin nonce state) st)
  = Some (mkSession (sess_id sess)
            (Some (mkOAuthSession (Some nonce) (Some state) None None None None)))
  ∧ store (run (GetLogin nonce state) st) = store st.
Proof.
  intros Hsess.
  unfold OAuthController.run, route, login, try_catch, bind, set_oauth,
    OIDCService.getAuthorizationUrl.
  rewrite Hsess. simpl. by destruct (OIDCService.client oidcService).
Qed.

(** [logout]: the session is detached and the store's [destroy] called, the
    redirect is sent, and then the error, if the store reported one, is
    logged. *)
Lemma run_logout st sess :
  req_session st = Some sess →
  run GetLogout st
  = mkSt None (store_destroy (store st) (sess_id sess)).1
      (events st
         ++ [ StoreDestroy (sess_id sess);
              Sent (Redirect (OIDCService.getLogoutUrl config (cognito_clientId config))) ]
         ++ match (store_destroy (store st) (sess_id sess)).2 with
            | Some e => [Logged (mkLog LError "Session destroy error:" (Some e))]
            | None => []
            end).
Proof.
  intros Hsess.
  unfold OAuthController.run, route, logout, bind, session_destroy.
  rewrite Hsess. destruct (store_destroy (store st) (sess_id sess)) as [m [e|]];
    simpl; by rewrite <- !(assoc_L (++)).
Qed.

(** Every way [callback] can end: on the error page with the session as it
    was, or redirected home with the user info and tokens added to the
    session's [oauth] member. *)
Lemma run_callback params st :
  let st' := run (GetCallback params) st in
  store st' = store st
  ∧ ((req_session st' = req_session st
      ∧ ∃ error evs, events st' = events st ++ evs ++ [Sent (error_page error)]
                     ∧ responses evs = [])
     ∨ (∃ sess ui ts evs,
          req_session st = Some sess
          ∧ req_session st'
            = Some (mkSession (sess_id sess)
                      (Some (authenticated_session (oauth sess) ui ts)))
          ∧ events st' = events st ++ evs ++ [Sent (Redirect "/oauth")]
          ∧ responses evs = []
          ∧ ∃ n s, anti_replay st = (Some n, Some s))).
Proof.
  unfold OAuthController.run, route.
  destruct (OIDCService.client oidcService) as [c|] eqn:Hc; cycle 1.
  { rewrite (callback_uninitialised config oidcService params st Hc). simpl.
    split; [done|]. left. split; [done|].
    eexists _, [_]. by split. }
  destruct (oauth_of st ≫= nonce) as [n|] eqn:Hn; cycle 1.
  { rewrite (callback_guard config oidcService c params st Hc (or_introl Hn)).
    simpl. split; [done|]. left. split; [done|]. eexists _, [_]. by split. }
  destruct (oauth_of st ≫= state) as [s|] eqn:Hs; cycle 1.
  { rewrite (callback_guard config oidcService c params st Hc (or_intror Hs)).
    simpl. split; [done|]. left. split; [done|]. eexists _, [_]. by split. }

  unfold callback, try_catch, bind, OIDCService.getClient, get_oauth,
    OIDCService.callback, OIDCService.getUserInfo, logger_error, res_render,
    res_redirect, emit, throw.
  rewrite Hc. simpl. unfold oauth_of in Hn, Hs. rewrite Hn, Hs.
  destruct (Js.truthy n); simpl; cycle 1.
  { split; [done|]. left. split; [done|]. eexists _, [_].
    split; [by rewrite <- (assoc_L (++))|done]. }
  destruct (Js.truthy s); simpl; cycle 1.
  { split; [done|]. left. split; [done|]. eexists _, [_].
    split; [by rewrite <- (assoc_L (++))|done]. }
  unfold try_catch.
  destruct (client_callback_emits c (oauth_callbackUrl config) params n s st)
    as (evs1 & Hst1 & Hreq1).
  destruct (client_callback c (oauth_callbackUrl config) params n s st)
    as [[e|ts] st1]; simpl in *; subst st1; simpl.
  { split; [done|]. left. split; [done|].
    exists (exn_message e), (evs1 ++ [Logged (mkLog LError "OIDC callback error:" (Some e));
                      Logged (mkLog LError "OAuth callback error:" (Some e))]).
    split; [by rewrite <- !(assoc_L (++))|].
    by rewrite responses_app, (responses_of_requests evs1 Hreq1). }
  match goal with
  | |- context [client_userinfo c ?t ?s0] =>
      destruct (client_userinfo_emits c t s0) as (evs2 & Hst2 & Hreq2);
      destruct (client_userinfo c t s0) as [[e|ui] st2]
  end; simpl in *; subst st2; simpl.
  { split; [done|]. left. split; [done|].
    exists (exn_message e),
      (evs1 ++ evs2 ++ [Logged (mkLog LError "Failed to get user info:" (Some e));
                        Logged (mkLog LError "OAuth callback error:" (Some e))]).
    split; [by rewrite <- !(assoc_L (++))|].
    by rewrite !responses_app, (responses_of_requests evs1 Hreq1),
      (responses_of_requests evs2 Hreq2). }
  unfold set_oauth. simpl.
  assert (anti_replay st = (Some n, Some s)) as Hpair
    by (unfold anti_replay, oauth_of; by rewrite Hn, Hs).
  destruct (req_session st) as [sess|] eqn:Hsess; [|done].
  simpl. split; [done|]. right. exists sess, ui, ts, (evs1 ++ evs2).
  split_and!; [done|done| by rewrite <- !(assoc_L (++)) | |by eauto].
  by rewrite responses_app, (responses_of_requests evs1 Hreq1),
    (responses_of_requests evs2 Hreq2).
Qed.

End RouteFacts.

Section FlowClaims.
Import Http OpenidClient ExpressSession OAuthController Flow.
Context {provider : Provider} {sessions : SessionStore}.
Variable config : Config.
Variable oidcService : OIDCService.t.

#[local] Abbreviation run := (run config oidcService).

Lemma anti_replay_authenticated sid old ui ts m evs :
  anti_replay (mkSt (Some (mkSession sid (Some (authenticated_session old ui ts)))) m evs)
  = (old ≫= nonce, old ≫= state).
Proof. done. Qed.

(** One request that is not a logout: the session stays attached, and its
    anti-replay pair changes only if the request is a login. *)
Lemma run_keeps_anti_replay r st :
  r ≠ GetLogout → is_Some (req_session st) →
  is_Some (req_session (run r st))
  ∧ anti_replay (run r st) = last_initiate [r] (anti_replay st).
Proof.
  intros Hr [sess Hsess]. destruct r as [|n s|params| |]; [| | |done|].
  - rewrite run_home. unfold anti_replay, oauth_of. simpl. by rewrite Hsess.
  - destruct (run_login config oidcService n s st sess Hsess) as [Hlogin _].
    unfold anti_replay, oauth_of. by rewrite Hlogin.
  - destruct (run_callback config oidcService params st)
      as (_ & [[Hsame _] | (sess' & ui & ts & evs & Hs & Hs' & _)]).
    + unfold anti_replay, oauth_of. rewrite Hsame, Hsess. eauto.
    + unfold anti_replay, oauth_of. rewrite Hs', Hs. eauto.
  - destruct (run_profile config oidcService st) as [Hsame _].
    unfold anti_replay, oauth_of. rewrite Hsame, Hsess. eauto.
Qed.

(** C9.  A callback that ends in the redirect home has put the user info and
    the tokens into the session next to the nonce and state it found there,
    which are unchanged.  No request other than a logout removes the pair:
    it stays as it is, except that a new login stores its fresh pair in its
    place, so over any run of requests without a logout the session holds
    the pair of the most recent login.  A logout leaves no pair. *)
Theorem C9_anti_replay_kept :
  (∀ params st,
     let st' := run (GetCallback params) st in
     events st = [] → responses (events st') = [Redirect "/oauth"] →
     flow_state (oauth_of st') = Authenticated
     ∧ anti_replay st' = anti_replay st
     ∧ (∃ n s, anti_replay st = (Some n, Some s))
     ∧ ∃ ui ts, oauth_of st' = Some (authenticated_session (oauth_of st) ui ts))
  ∧ (∀ r st n s,
       r ≠ GetLogout → is_Some (req_session st) →
       anti_replay st = (Some n, Some s) →
       anti_replay (run r st)
       = match r with
         | GetLogin n' s' => (Some n', Some s')
         | _ => (Some n, Some s)
         end)
  ∧ (∀ rs st,
       GetLogout ∉ rs → is_Some (req_session st) →
       anti_replay (foldl (λ s r, run r s) st rs) = last_initiate rs (anti_replay st))
  ∧ (∀ st, anti_replay (run GetLogout st) = (None, None)).
Proof.
  split_and!.
  - intros params st st' Hevs Hresp. subst st'.
    destruct (run_callback config oidcService params st)
      as (_ & [[_ (error & evs & Hev & Hnone)]
              | (sess & ui & ts & evs & Hs & Hs' & Hev & Hnone & Hpair)]).
    + rewrite Hev, Hevs in Hresp. simpl in Hresp.
      rewrite responses_app, Hnone in Hresp. done.
    + unfold anti_replay, oauth_of in *. rewrite Hs', Hs in *. simpl.
      split_and!; [done|done|done|by exists ui, ts].
  - intros r st n s Hr Hsess Hpair.
    destruct (run_keeps_anti_replay r st Hr Hsess) as [_ ->].
    rewrite Hpair. by destruct r.
  - induction rs as [|r rs IH]; intros st Hrs Hsess; [done|].
    apply not_elem_of_cons in Hrs as [Hr Hrs].
    destruct (run_keeps_anti_replay r st (not_eq_sym Hr) Hsess) as [Hsess' Hpair].
    simpl. rewrite (IH _ Hrs Hsess'), Hpair. done.
  - intros st. destruct (req_session st) as [sess|] eqn:Hsess.
    + by rewrite (run_logout config oidcService st sess Hsess).
    + unfold OAuthController.run, route, logout, bind, session_destroy,
        anti_replay, oauth_of.
      by rewrite Hsess; simpl; rewrite Hsess.
Qed.

(** C10.  [login] replaces the session's [oauth] member by the fresh nonce
    and state alone, whatever was stored and whether or not the OIDC client
    is initialised: user info and tokens are gone, and with the non-empty
    values the generators draw the session is in PendingCallback, also when
    it was Authenticated before. *)
Theorem C10_login_replaces_session n s st sess :
  req_session st = Some sess →
  let st' := run (GetLogin n s) st in
  req_session st'
  = Some (mkSession (sess_id sess)
            (Some (mkOAuthSession (Some n) (Some s) None None None None)))
  ∧ store st' = store st
  ∧ (n ≠ "" → s ≠ "" → flow_state (oauth_of st') = PendingCallback).
Proof.
  intros Hsess st'. subst st'.
  destruct (run_login config oidcService n s st sess Hsess) as [Hlogin Hstore].
  split_and!; [done|done|].
  intros Hn Hs. unfold flow_state, oauth_of. rewrite Hlogin. simpl.
  by rewrite (truthy_ne n Hn), (truthy_ne s Hs).
Qed.

(** C4, as the code has it.  [logout] detaches the session from the request
    and calls the store's [destroy] before it sends the redirect to the
    provider's logout endpoint; the redirect is sent whether or not
    [destroy] fails, and a failure the store reports is logged after it.
    What the store holds afterwards is what its [destroy] left there: with
    the in-memory store the entry is gone. *)
Theorem C4_logout_best_effort m sid :
  let st' := run GetLogout (load m sid) in
  req_session st' = None
  ∧ store st' = (store_destroy m sid).1
  ∧ (serve (route config oidcService GetLogout) m sid).1 = (store_destroy m sid).1
  ∧ events st'
    = [ StoreDestroy sid;
        Sent (Redirect (OIDCService.getLogoutUrl config (cognito_clientId config))) ]
      ++ match (store_destroy m sid).2 with
         | Some e => [Logged (mkLog LError "Session destroy error:" (Some e))]
         | None => []
         end
  ∧ (serve (@route provider MemoryStore config oidcService GetLogout) m sid).1 !! sid
    = None.
Proof.
  intros st'. subst st'.
  pose proof (run_logout config oidcService (load m sid) _ eq_refl) as Hrun.
  simpl in Hrun. split_and!.
  - by rewrite Hrun.
  - by rewrite Hrun.
  - unfold serve, save. fold (OAuthController.run config oidcService GetLogout (load m sid)).
    by rewrite Hrun.
  - by rewrite Hrun.
  - unfold serve, save.
    pose proof (@run_logout provider MemoryStore config oidcService
                  (load m sid) _ eq_refl) as Hmem.
    unfold OAuthController.run in Hmem. rewrite Hmem. simpl.
    apply lookup_delete_eq.
Qed.

End FlowClaims.

Section FlowExamples.
Import Http OpenidClient ExpressSession OAuthController Flow.
#[local] Existing Instance demo_provider.

(** C4 as stated fails when the store's [destroy] reports an error and
    removes nothing: after [logout] the store still holds the user info and
    the tokens, and the next request of the same browser session is served
    as authenticated. *)
Lemma C4_failed_destroy_counterexample :
  let m := {[ "sid-1" := Some demo_authenticated ]} in
  let after := serve (@route demo_provider FailingStore demo_config demo_service
                        GetLogout) m "sid-1" in
  after.1 !! "sid-1" = Some (Some demo_authenticated)
  ∧ Logged (mkLog LError "Session destroy error:" (Some (Error "store unavailable")))
    ∈ after.2
  ∧ (serve (@route demo_provider FailingStore demo_config demo_service GetHome)
       after.1 "sid-1").2
    = [Sent (Render 200 (HomeView true (userInfo demo_authenticated)))].
Proof.
  split_and!.
  - reflexivity.
  - vm_compute. do 2 right. left.
  - reflexivity.
Qed.

Lemma C9_anti_replay_witness :
  let st := load {[ "sid-1" := Some demo_pending ]} "sid-1" in
  let st' := OAuthController.run (H0:=MemoryStore) demo_config demo_service
               (GetCallback (demo_params "code-1" "state-1")) st in
  oauth_of st' = Some demo_authenticated
  ∧ anti_replay
      (foldl (λ s r, OAuthController.run (H0:=MemoryStore) demo_config demo_service r s)
         st [GetCallback (demo_params "code-1" "state-1"); GetHome; GetProfile])
    = (Some "nonce-1", Some "state-1").
Proof.
  intros st st'.
  destruct (C9_anti_replay_kept (sessions:=MemoryStore) demo_config demo_service)
    as (Hcallback & _ & Hrun & _).
  split.
  - destruct (Hcallback (demo_params "code-1" "state-1") st eq_refl eq_refl)
      as (_ & _ & _ & ui & ts & Hoauth).
    reflexivity.
  - rewrite Hrun.
    + reflexivity.
    + rewrite !not_elem_of_cons. split_and!; try done. apply not_elem_of_nil.
    + by eexists.
Defined.

Lemma C10_login_witness :
  let st := load {[ "sid-1" := Some demo_authenticated ]} "sid-1" in
  let st' := OAuthController.run (H0:=MemoryStore) demo_config demo_service
               (GetLogin "nonce-2" "state-2") st in
  flow_state (oauth_of st) = Authenticated
  ∧ flow_state (oauth_of st') = PendingCallback
  ∧ oauth_of st'
    = Some (mkOAuthSession (Some "nonce-2") (Some "state-2") None None None None).
Proof.
  intros st st'.
  destruct (C10_login_replaces_session (sessions:=MemoryStore) demo_config demo_service
              "nonce-2" "state-2" st _ eq_refl) as (Hsess & _ & Hflow).
  split_and!.
  - reflexivity.
  - by apply Hflow.
  - exact (f_equal (λ r, r ≫= oauth) Hsess).
Defined.

End FlowExamples.

(** ** The signup validators *)

Section ValidatorFacts.
Import Validators.
Context {vjs : ValidatorJs}.

Lemma run_chain_paths field optional vs value :
  Forall (λ e, path e = field) (run_chain field optional vs value).
Proof.
  unfold run_chain.
  assert (∀ v, Forall (λ e, path e = field)
                 (omap (λ x, if check x v then None
                             else Some (mkFieldError field (message x))) vs)) as Hall.
  { intros v. induction vs as [|x vs IH]; simpl; [done|].
    destruct (check x v); [done|]. by constructor. }
  destruct value, optional; auto.
Qed.

Lemma errors_of_same field errs :
  Forall (λ e, path e = field) errs → errors_of field errs = errs.
Proof.
  unfold errors_of. induction 1 as [|e errs He _ IH]; [done|].
  rewrite filter_cons_True by done. by rewrite IH.
Qed.

Lemma errors_of_other field field' errs :
  field ≠ field' → Forall (λ e, path e = field') errs → errors_of field errs = [].
Proof.
  unfold errors_of. intros Hne. induction 1 as [|e errs He _ IH]; [done|].
  rewrite filter_cons_False by congruence. done.
Qed.

Lemma errors_of_app field a b :
  errors_of field (a ++ b) = errors_of field a ++ errors_of field b.
Proof. apply filter_app. Qed.

Lemma errors_of_chain field field' optional vs value :
  errors_of field (run_chain field' optional vs value)
  = if bool_decide (field = field') then run_chain field' optional vs value else [].
Proof.
  case_bool_decide as Hf.
  - subst. apply errors_of_same, run_chain_paths.
  - eapply errors_of_other; [done|]. apply run_chain_paths.
Qed.

Lemma errors_of_username b :
  errors_of "username" (signUpValidator b)
  = run_chain "username" false username_chain (b_username b).
Proof.
  unfold signUpValidator. rewrite !errors_of_app, !errors_of_chain.
  simpl. by rewrite app_nil_r.
Qed.

Lemma errors_of_password b :
  errors_of "password" (signUpValidator b)
  = run_chain "password" false password_chain (b_password b).
Proof.
  unfold signUpValidator. rewrite !errors_of_app, !errors_of_chain.
  simpl. by rewrite app_nil_r.
Qed.

Lemma lookahead_exists cls s : lookahead cls s = true → existsb_string cls s = true.
Proof.
  induction s as [|c rest IH]; simpl; [done|].
  destruct (cls c); [done|]. simpl. intros [_ H]%andb_true_iff. auto.
Qed.

Lemma isAlphanumeric_chars u :
  u ≠ "" → forallb_string (λ c, is_digit c || is_upper c || is_lower c) u = true →
  isAlphanumeric u = true.
Proof.
  intros Hu Hall. unfold isAlphanumeric. rewrite Hall.
  by rewrite bool_decide_eq_true_2.
Qed.

(** C7.  A username of exactly 3 or exactly 20 alphanumeric characters
    passes the signup validation of its field, one of 2 or of 21 characters
    does not; a password of fewer than 8 characters, or without a lowercase
    letter, an uppercase letter, a digit or one of the special characters,
    does not pass. *)
Theorem C7_signup_boundaries (b : SignUpBody) :
  (∀ u, b_username b = Some u →
        forallb_string (λ c, is_digit c || is_upper c || is_lower c) u = true →
        String.length u = 3 ∨ String.length u = 20 →
        accepts "username" b = true)
  ∧ (∀ u, b_username b = Some u →
          String.length u = 2 ∨ String.length u = 21 →
          accepts "username" b = false)
  ∧ (∀ p, b_password b = Some p →
          String.length p < 8
          ∨ existsb_string is_lower p = false
          ∨ existsb_string is_upper p = false
          ∨ existsb_string is_digit p = false
          ∨ existsb_string is_special p = false →
          accepts "password" b = false).
Proof.
  unfold accepts. split_and!.
  - intros u Hu Hchars Hlen. rewrite errors_of_username, Hu.
    apply bool_decide_eq_true. unfold run_chain, username_chain. simpl.
    assert (u ≠ "") as Hne by (intros ->; simpl in Hlen; lia).
    rewrite (isAlphanumeric_chars u Hne Hchars).
    unfold isLength. by destruct Hlen as [-> | ->].
  - intros u Hu Hlen. rewrite errors_of_username, Hu.
    apply bool_decide_eq_false. unfold run_chain, username_chain. simpl.
    unfold isLength. by destruct Hlen as [-> | ->].
  - intros p Hp Hbad. rewrite errors_of_password, Hp.
    apply bool_decide_eq_false. unfold run_chain, password_chain. simpl.
    destruct Hbad as [Hlen | Hclass].
    + unfold isLength. rewrite andb_true_r.
      destruct (8 <=? String.length p)%nat eqn:Hle; [|done].
      apply Nat.leb_le in Hle. lia.
    + assert (password_pattern p = false) as ->; [|by destruct (isLength _ _ _)].
      unfold password_pattern.
      destruct (lookahead is_lower p) eqn:H1; [|done].
      destruct (lookahead is_upper p) eqn:H2; [|done].
      destruct (lookahead is_digit p) eqn:H3; [|done].
      destruct (lookahead is_special p) eqn:H4; [|done].
      apply lookahead_exists in H1, H2, H3, H4.
      destruct Hclass as [? | [? | [? | ?]]]; congruence.
Qed.

End ValidatorFacts.

(** ** The gateway's error translation *)

Section GatewayClaims.
Import CognitoService Controllers ErrorMiddleware.
Context {sdk : CognitoSdk}.
Variable config : Config.

Lemma signIn_rejected data l :
  rejects_password config data →
  ∃ e, exn_name e = "NotAuthorizedException"
       ∧ CognitoService.signIn config data l
         = (inl e, logger_error "Error signing in user:" e l).
Proof.
  intros (e & Hauth & Hname). exists e. split; [done|].
  unfold CognitoService.signIn, try_catch, bind. by rewrite Hauth.
Qed.

(** What every endpoint does with an error its service call throws. *)
Lemma on_error_answer ep e l : (on_error ep e l).1 = inr (answer ep e).
Proof.
  destruct ep;
    unfold on_error, signUp, signIn, verifyEmail, resendVerificationCode,
      forgotPassword, resetPassword, changePassword, refreshToken, signOut,
      getProfile, updateProfile, deleteAccount, listUsers, adminCreateUser,
      adminDeleteUser, try_catch, bind, throw, ret, log_error, named, answer,
      translated;
    simpl; by repeat case_bool_decide.
Qed.


End GatewayClaims.

Section GatewayExamples.
Import CognitoService Controllers Validators.

(** The request of the specification's scenario passes validation. *)
Example signup_scenario_valid :
  signUpValidator (H:=demo_validator_js) (demo_body "abc123" "Aa1!aaaa") = [].
Proof. reflexivity. Qed.

(** The right password gives the token triple. *)
Example signin_right_password :
  (Controllers.signIn
     (CognitoService.signIn (H:=demo_sdk) demo_gateway_config
        (mkSignInRequest "abc123" "Aa1!aaaa")) []).1
  = inr (Json 200
           (MessageBody "Sign in successful"
              (Some (SignInData
                       (mkSignInResponse
                          (mkUser (Some "sub-abc123") (Some "a@b.com") None None None None
                             (Some "abc123"))
                          (mkTokens (Some "at-1") (Some "idt-1") (Some "rt-1"))))))).
Proof. reflexivity. Qed.

Lemma C7_signup_boundaries_witness :
  accepts (H:=demo_validator_js) "username" (demo_body "abc" "Aa1!aaaa") = true
  ∧ accepts (H:=demo_validator_js) "username" (demo_body "abcdefghij0123456789" "Aa1!aaaa") = true
  ∧ accepts (H:=demo_validator_js) "username" (demo_body "ab" "Aa1!aaaa") = false
  ∧ accepts (H:=demo_validator_js) "username" (demo_body "abcdefghij0123456789x" "Aa1!aaaa") = false
  ∧ accepts (H:=demo_validator_js) "password" (demo_body "abc123" "Aa1!aaa") = false
  ∧ accepts (H:=demo_validator_js) "password" (demo_body "abc123" "Aa1aaaaa") = false.
Proof.
  split_and!.
  - destruct (C7_signup_boundaries (vjs:=demo_validator_js) (demo_body "abc" "Aa1!aaaa"))
      as (Hok & _ & _).
    apply (Hok "abc"); [reflexivity | reflexivity | by left].
  - destruct (C7_signup_boundaries (vjs:=demo_validator_js)
                (demo_body "abcdefghij0123456789" "Aa1!aaaa")) as (Hok & _ & _).
    apply (Hok "abcdefghij0123456789"); [reflexivity | reflexivity | by right].
  - destruct (C7_signup_boundaries (vjs:=demo_validator_js) (demo_body "ab" "Aa1!aaaa"))
      as (_ & Hshort & _).
    apply (Hshort "ab"); [reflexivity | by left].
  - destruct (C7_signup_boundaries (vjs:=demo_validator_js)
                (demo_body "abcdefghij0123456789x" "Aa1!aaaa")) as (_ & Hlong & _).
    apply (Hlong "abcdefghij0123456789x"); [reflexivity | by right].
  - destruct (C7_signup_boundaries (vjs:=demo_validator_js) (demo_body "abc123" "Aa1!aaa"))
      as (_ & _ & Hpw).
    apply (Hpw "Aa1!aaa"); [reflexivity | left; simpl; lia].
  - destruct (C7_signup_boundaries (vjs:=demo_validator_js) (demo_body "abc123" "Aa1aaaaa"))
      as (_ & _ & Hpw).
    apply (Hpw "Aa1aaaaa"); [reflexivity | do 4 right; reflexivity].
Defined.



End GatewayExamples.

(** * Further properties of the code *)

(** ** The middleware beyond the claims *)

Section MiddlewareFacts.
Import AuthMiddleware Verifier Gate.
Context {pkgs : Packages}.

(** What [this.pems[kid]] can be when it is truthy. *)
Lemma pems_get_truthy (ps : gmap string string) (kid : string) (key : KeyMaterial) :
  pems_get ps kid = Some key → key_truthy key = true →
  (∃ pem, key = OwnPem pem ∧ ps !! kid = Some pem ∧ pem ≠ "")
  ∨ (key = Inherited kid ∧ ps !! kid = None ∧ kid ∈ object_prototype_members).
Proof.
  unfold pems_get. destruct (ps !! kid) as [pem|].
  - intros [= <-] Hpem%truthy_true. left. by exists pem.
  - case_bool_decide; [|done]. intros [= <-] _. by right.
Qed.

(** X1.  [authenticate] passes a request on only for a token [jwt.verify]
    has accepted: the header held a non-empty bearer token that decodes and
    names a truthy key id, [jwt.verify] called back with a payload for the
    token and for what [pems] yields under that key id, and the request
    passed on carries that payload and the token; the instance is as it
    was.  For a key id that is not the name of an inherited member, what
    [pems] yields is a non-empty PEM of the key set. *)
Theorem X1_authenticate_sound now st req st' r :
  authenticate now st req = (st', Next r) →
  st' = st
  ∧ ∃ token kid key payload,
      extractToken (authorization req) = Some token ∧ token ≠ ""
      ∧ keyId token = Some kid
      ∧ pems_get (pems st) kid = Some key
      ∧ jwt_verify now token key = Calls (inr payload)
      ∧ r = mkAuthRequest (authorization req) (Some payload) (Some token)
      ∧ (kid ∉ object_prototype_members →
         ∃ pem, key = OwnPem pem ∧ known_key st kid pem ∧ pem ≠ "").
Proof.
  unfold authenticate, authentication_failed.
  destruct (extractToken (authorization req)) as [token|] eqn:Hx; [|done].
  destruct (Js.truthy token) eqn:Ht; simpl; [|done].
  destruct (jwt_decode token) as [e|[d|]] eqn:Hd; [done| |done].
  destruct (hdr_kid (jwt_header d)) as [kid|] eqn:Hkid; [|done].
  destruct (kid_truthy kid) eqn:Hk; simpl; [|done].
  destruct (pems_get (pems st) (kid_key kid)) as [key|] eqn:Hkey; [|done].
  destruct (key_truthy key) eqn:Htruthy; simpl; [|done].
  destruct (jwt_verify now token key) as [[err|payload]|error|] eqn:Hv; try done.
  intros [= <- <-]. split; [done|].
  exists token, (kid_key kid), key, payload.
  split_and!; try done.
  - by apply truthy_true.
  - apply keyId_Some. by exists d, kid.
  - intros Hordinary.
    destruct (pems_get_truthy _ _ _ Hkey Htruthy) as [?|(_ & _ & ?)]; done.
Qed.

Lemma authenticate_keeps_pems now st req :
  pems (authenticate now st req).1 = pems st.
Proof.
  unfold authenticate, authentication_failed.
  repeat match goal with
         | |- context [match ?x with _ => _ end] => destruct x; simpl; try done
         end.
Qed.

Lemma optionalAuthenticate_keeps_pems now st req :
  pems (optionalAuthenticate now st req).1 = pems st.
Proof.
  unfold optionalAuthenticate, optional_failed.
  repeat match goal with
         | |- context [match ?x with _ => _ end] => destruct x; simpl; try done
         end.
Qed.

Lemma after_keeps_pems arrivals st : pems (after arrivals st) = pems st.
Proof.
  revert st. induction arrivals as [|a arrivals IH]; intros st; [done|].
  unfold after in *. simpl. rewrite IH. unfold handle.
  destruct (mode a).
  - apply authenticate_keeps_pems.
  - apply optionalAuthenticate_keeps_pems.
Qed.

(** X2.  Handling requests never changes the key set, in either mode; so a
    token whose key id is not in the set the instance was constructed with,
    and is not the name of an inherited member, is answered 401
    [Invalid token] after any number of requests as well. *)
Theorem X2_key_set_never_refreshed arrivals st :
  pems (after arrivals st) = pems st
  ∧ ∀ now req token kid,
      extractToken (authorization req) = Some token → token ≠ "" →
      keyId token = Some kid → unknown_key st kid →
      kid ∉ object_prototype_members →
      (authenticate now (after arrivals st) req).2 = InvalidToken.
Proof.
  split; [apply after_keeps_pems|].
  intros now req token kid Hx Ht Hkid Hunknown Hordinary.
  rewrite (authenticate_keyed now _ req token kid Hx Ht Hkid).
  rewrite after_keeps_pems, (pems_get_ordinary _ _ Hordinary).
  unfold unknown_key in Hunknown. by rewrite Hunknown.
Qed.

(** X3.  The optional mode against the mandatory one.  It never answers and
    never changes the key set.  Where [authenticate] passes a request on, it
    passes the same request on; where [authenticate] answers 401, it passes
    the request on as it came and logs nothing; where [authenticate] answers
    500, because [jwt.decode] or [jwt.verify] threw, it logs the error as
    [Optional authentication error:] and passes the request on as it came;
    and where [jwt.verify] never calls back, neither mode answers or passes
    the request on. *)
Theorem X3_optional_agrees now st req :
  pems (optionalAuthenticate now st req).1 = pems st
  ∧ (∀ status error, (optionalAuthenticate now st req).2 ≠ Respond status error)
  ∧ match authenticate now st req with
    | (_, Next r) => optionalAuthenticate now st req = (st, Next r)
    | (_, NoAnswer) => optionalAuthenticate now st req = (st, NoAnswer)
    | (st', Respond status _) =>
        (status = 401%Z ∧ optionalAuthenticate now st req = (st, Next req))
        ∨ (status = 500%Z
           ∧ ∃ e, mw_log st'
                  = mw_log st ++ [mkLog LError "Authentication error:" (Some e)]
                  ∧ optionalAuthenticate now st req
                    = (mkState (pems st)
                         (mw_log st
                            ++ [mkLog LError "Optional authentication error:" (Some e)]),
                       Next req))
    end.
Proof.
  split; [apply optionalAuthenticate_keeps_pems|].
  unfold authenticate, optionalAuthenticate, authentication_failed, optional_failed,
    logger_error.
  destruct (extractToken (authorization req)) as [token|]; [|by split; [|left]].
  destruct (Js.truthy token); simpl; [|by split; [|left]].
  destruct (jwt_decode token) as [e|[d|]]; [by split; [|right; eauto]| |by split; [|left]].
  destruct (hdr_kid (jwt_header d)) as [kid|]; [|by split; [|left]].
  destruct (kid_truthy kid); simpl; [|by split; [|left]].
  destruct (pems_get (pems st) (kid_key kid)) as [key|]; [|by split; [|left]].
  destruct (key_truthy key); simpl; [|by split; [|left]].
  destruct (jwt_verify now token key) as [[err|payload]|error|].
  - by split; [|left].
  - by split.
  - by split; [|right; eauto].
  - by split.
Qed.

(** When every key converts the loop stores them all, later entries over
    earlier ones and over what was stored before. *)
Lemma forEach_jwk_all (jwks : list JWK) (kvs : list (string * string))
    (ps : gmap string string) :
  Forall2 (λ jwk kv, converted jwk = Some kv) jwks kvs →
  forEach_jwk jwks ps = (list_to_map (reverse (stored kvs)) ∪ ps, None).
Proof.
  intros Hall. revert ps.
  induction Hall as [|jwk [k v] jwks kvs Hjwk _ IH]; intros ps.
  - simpl. by rewrite (left_id_L ∅ (∪)).
  - apply converted_Some in Hjwk as [Hpem Hk]. simpl in *. subst k.
    rewrite Hpem, IH. f_equal. apply stored_after_set.
Qed.

Lemma converted_kids (jwks : list JWK) (kvs : list (string * string)) :
  Forall2 (λ jwk kv, converted jwk = Some kv) jwks kvs →
  kvs.*1 = jwk_kid <$> jwks.
Proof.
  induction 1 as [|jwk kv jwks kvs Hjwk _ IH]; [done|].
  apply converted_Some in Hjwk as [_ Hk]. rewrite !fmap_cons. by f_equal.
Qed.

Lemma stored_kids (kvs : list (string * string)) (kid : string) :
  kid ∈ (stored kvs).*1 ↔ kid ∈ kvs.*1 ∧ kid ≠ "__proto__".
Proof.
  unfold stored. rewrite !list_elem_of_fmap. split.
  - intros ([k v] & -> & [Hk Hin]%list_elem_of_filter). split; [|done].
    by exists (k, v).
  - intros [([k v] & -> & Hin) Hk]. exists (k, v). split; [done|].
    by apply list_elem_of_filter.
Qed.

Lemma stored_NoDup (kvs : list (string * string)) :
  NoDup kvs.*1 → NoDup (stored kvs).*1.
Proof.
  unfold stored. induction kvs as [|[k v] kvs IH]; [done|].
  rewrite fmap_cons, NoDup_cons. intros [Hk Hrest].
  destruct (decide (k = "__proto__")) as [->|Hne].
  - rewrite filter_cons_False by (simpl; tauto). auto.
  - rewrite filter_cons_True by done. rewrite fmap_cons, NoDup_cons.
    split; [|auto]. intros Hin. apply Hk.
    by apply (stored_kids kvs k) in Hin as [? _].
Qed.

(** What a whole load leaves under an id. *)
Lemma load_all_lookup jwks kvs st :
  Forall2 (λ jwk kv, converted jwk = Some kv) jwks kvs →
  let st' := initializePems (inr (mkJwksDocument (Some jwks))) st in
  (∀ kid, kid ∉ jwk_kid <$> jwks → pems st' !! kid = pems st !! kid)
  ∧ pems st' !! "__proto__" = pems st !! "__proto__"
  ∧ (NoDup (jwk_kid <$> jwks) →
     ∀ jwk kv, jwk ∈ jwks → converted jwk = Some kv →
               jwk_kid jwk ≠ "__proto__" →
               pems st' !! jwk_kid jwk = Some kv.2).
Proof.
  intros Hall st'. subst st'. unfold initializePems. simpl.
  rewrite (forEach_jwk_all jwks kvs (pems st) Hall). simpl.
  pose proof (converted_kids jwks kvs Hall) as Hkids.
  split_and!.
  - intros kid Hkid. rewrite lookup_union_r; [done|].
    apply not_elem_of_list_to_map_1.
    rewrite fmap_reverse, elem_of_reverse, stored_kids, Hkids. tauto.
  - rewrite lookup_union_r; [done|].
    apply not_elem_of_list_to_map_1.
    rewrite fmap_reverse, elem_of_reverse, stored_kids. tauto.
  - intros Hnodup jwk kv Hin Hkv Hproto.
    apply lookup_union_Some_l, elem_of_list_to_map.
    + rewrite fmap_reverse, reverse_Permutation.
      apply stored_NoDup. by rewrite Hkids.
    + rewrite elem_of_reverse.
      apply list_elem_of_lookup in Hin as [i Hi].
      destruct (Forall2_lookup_l _ _ _ _ _ Hall Hi) as (kv' & Hi' & Hkv').
      assert (kv' = kv) as -> by congruence.
      apply converted_Some in Hkv as [_ Hk]. rewrite <- Hk.
      destruct kv as [k v]. apply list_elem_of_filter. split.
      * simpl in *. congruence.
      * apply list_elem_of_lookup. eauto.
Qed.

(** X4.  A key set document all of whose keys convert is loaded whole: the
    success is logged, keys stored before stay unless the document names
    their id again, and, the ids of the document being distinct, each of its
    keys is then found under its id with the PEM it converts to.  The one
    exception is a key with the id [__proto__]: the assignment stores
    nothing, and no entry of that name ever appears. *)
Theorem X4_load_stores_every_key jwks kvs st :
  Forall2 (λ jwk kv, converted jwk = Some kv) jwks kvs →
  let st' := initializePems (inr (mkJwksDocument (Some jwks))) st in
  mw_log st' = mw_log st ++ [mkLog LInfo "JWKS keys loaded successfully" None]
  ∧ pems st' = list_to_map (reverse (stored kvs)) ∪ pems st
  ∧ (∀ kid, kid ∉ jwk_kid <$> jwks → pems st' !! kid = pems st !! kid)
  ∧ pems st' !! "__proto__" = pems st !! "__proto__"
  ∧ (NoDup (jwk_kid <$> jwks) →
     ∀ jwk kv, jwk ∈ jwks → converted jwk = Some kv →
               jwk_kid jwk ≠ "__proto__" →
               pems st' !! jwk_kid jwk = Some kv.2).
Proof.
  intros Hall st'.
  destruct (load_all_lookup jwks kvs st Hall) as (Hother & Hproto & Hown).
  subst st'. split_and!; [| |exact Hother|exact Hproto|exact Hown].
  - unfold initializePems. simpl.
    by rewrite (forEach_jwk_all jwks kvs (pems st) Hall).
  - unfold initializePems. simpl.
    by rewrite (forEach_jwk_all jwks kvs (pems st) Hall).
Qed.

(** X5.  Load and verify compose: after the constructor has loaded a
    document whose keys all convert and have distinct ids, a bearer token
    that names one of these keys (other than [__proto__]) is handed to
    [jwt.verify] with that key's PEM, and the verdict decides: an error is
    logged and answered 401 [Token verification failed], a payload passes
    the request on with the payload as identity. *)
Theorem X5_loaded_key_verifies jwks kvs jwk pem now req token :
  Forall2 (λ jwk kv, converted jwk = Some kv) jwks kvs →
  NoDup (jwk_kid <$> jwks) →
  jwk ∈ jwks → converted jwk = Some (jwk_kid jwk, pem) →
  jwk_kid jwk ≠ "__proto__" → pem ≠ "" →
  extractToken (authorization req) = Some token → token ≠ "" →
  keyId token = Some (jwk_kid jwk) →
  let st := constructor (inr (mkJwksDocument (Some jwks))) in
  known_key st (jwk_kid jwk) pem
  ∧ authenticate now st req =
      match jwt_verify now token (OwnPem pem) with
      | Calls (inl err) =>
          (mkState (pems st)
             (logger_error "Token verification error:" err (mw_log st)),
           TokenVerificationFailed)
      | Calls (inr payload) =>
          (st, Next (mkAuthRequest (authorization req) (Some payload) (Some token)))
      | Throws error => authentication_failed st error
      | NeverCalls => (st, NoAnswer)
      end.
Proof.
  intros Hall Hnodup Hin Hconv Hproto Hpem Hx Ht Hkid st.
  destruct (load_all_lookup jwks kvs (mkState ∅ []) Hall) as (_ & _ & Hown).
  assert (pems st !! jwk_kid jwk = Some pem) as Hknown
    by exact (Hown Hnodup jwk (jwk_kid jwk, pem) Hin Hconv Hproto).
  split; [done|].
  rewrite (authenticate_keyed now st req token _ Hx Ht Hkid).
  unfold pems_get. rewrite Hknown. simpl.
  apply truthy_true in Hpem. by rewrite Hpem.
Qed.

End MiddlewareFacts.

Section MiddlewareExamples.
Import AuthMiddleware Verifier Gate GateExamples.
#[local] Existing Instance demo_packages.

Lemma X1_authenticate_sound_witness :
  ∃ payload,
    jwt_verify 3 "k2/bob/xxxxx/n2" (OwnPem "PEM n2") = Calls (inr payload)
    ∧ known_key demo_loaded "k2" "PEM n2".
Proof.
  assert (authenticate 3 demo_loaded (bearer "k2/bob/xxxxx/n2")
          = (demo_loaded,
             Next (mkAuthRequest (Some "Bearer k2/bob/xxxxx/n2")
                     (Some (demo_payload "bob" "xxxxx"))
                     (Some "k2/bob/xxxxx/n2")))) as Hrun by (vm_compute; reflexivity).
  destruct (X1_authenticate_sound _ _ _ _ _ Hrun)
    as (_ & token & kid & key & payload & Hx & _ & Hkid & _ & Hv & _ & Hown).
  injection Hx as <-. injection Hkid as <-.
  destruct Hown as (pem & -> & Hknown & _).
  { unfold object_prototype_members. rewrite !elem_of_cons, elem_of_nil.
    intros Hin. repeat destruct Hin as [Hin|Hin]; done. }
  assert (pem = "PEM n2") as -> by (vm_compute in Hknown; congruence).
  exists payload. by split.
Defined.

Lemma X2_key_set_never_refreshed_witness :
  (authenticate 10 (after demo_arrivals demo_loaded) (bearer "k9/mallory/xxxxx/n9")).2
  = InvalidToken.
Proof.
  destruct (X2_key_set_never_refreshed demo_arrivals demo_loaded) as [_ Hreject].
  apply (Hreject 10%Z (bearer "k9/mallory/xxxxx/n9") "k9/mallory/xxxxx/n9" "k9");
    [reflexivity | done | reflexivity | reflexivity |].
  unfold object_prototype_members. rewrite !elem_of_cons, elem_of_nil.
  intros Hin. repeat destruct Hin as [Hin|Hin]; done.
Defined.

Lemma X4_load_stores_every_key_witness :
  pems demo_loaded !! "k1" = Some "PEM n1" ∧ pems demo_loaded !! "k2" = Some "PEM n2".
Proof.
  destruct (X4_load_stores_every_key demo_keys [("k1", "PEM n1"); ("k2", "PEM n2")]
              (mkState ∅ [])) as (_ & _ & _ & _ & Hown).
  { repeat constructor. }
  assert (NoDup (jwk_kid <$> demo_keys)) as Hnodup.
  { apply NoDup_cons. split; [by intros [= ]%list_elem_of_singleton|].
    apply NoDup_singleton. }
  split.
  - apply (Hown Hnodup (demo_jwk "k1" "RSA" "n1") ("k1", "PEM n1"));
      [by left|done|done].
  - apply (Hown Hnodup (demo_jwk "k2" "RSA" "n2") ("k2", "PEM n2"));
      [by right; left|done|done].
Defined.

Lemma X5_loaded_key_verifies_witness :
  (authenticate 3 demo_loaded (bearer "k2/bob/xxxxx/n2")).2
  = Next (mkAuthRequest (Some "Bearer k2/bob/xxxxx/n2")
            (Some (demo_payload "bob" "xxxxx")) (Some "k2/bob/xxxxx/n2"))
  ∧ (authenticate 9 demo_loaded (bearer "k2/bob/xxxxx/n2")).2
    = TokenVerificationFailed.
Proof.
  assert (∀ now,
            authenticate now demo_loaded (bearer "k2/bob/xxxxx/n2")
            = match demo_verify now "k2/bob/xxxxx/n2" (OwnPem "PEM n2") with
              | Calls (inl err) =>
                  (mkState (pems demo_loaded)
                     (logger_error "Token verification error:" err (mw_log demo_loaded)),
                   TokenVerificationFailed)
              | Calls (inr payload) =>
                  (demo_loaded,
                   Next (mkAuthRequest (Some "Bearer k2/bob/xxxxx/n2") (Some payload)
                           (Some "k2/bob/xxxxx/n2")))
              | Throws error => authentication_failed demo_loaded error
              | NeverCalls => (demo_loaded, NoAnswer)
              end) as Hrun.
  { intros now.
    refine (proj2 (X5_loaded_key_verifies demo_keys
                     [("k1", "PEM n1"); ("k2", "PEM n2")]
                     (demo_jwk "k2" "RSA" "n2") "PEM n2" now
                     (bearer "k2/bob/xxxxx/n2") "k2/bob/xxxxx/n2"
                     _ _ _ _ _ _ _ _ _)); try done.
    - repeat constructor.
    - apply NoDup_cons. split; [by intros [= ]%list_elem_of_singleton|].
      apply NoDup_singleton.
    - by right; left. }
  split.
  - exact (f_equal snd (Hrun 3%Z)).
  - exact (f_equal snd (Hrun 9%Z)).
Defined.

End MiddlewareExamples.

(** ** The browser flow beyond the claims *)

Section JourneyFacts.
Import Http OpenidClient ExpressSession OAuthController Flow Journey.
Context {provider : Provider} {sessions : SessionStore}.
Variable config : Config.
Variable oidcService : OIDCService.t.

#[local] Abbreviation run := (run config oidcService).

Lemma truthy_opt_false_ne (o : option string) (s : string) :
  Js.truthy_opt o = false → s ≠ "" → o ≠ Some s.
Proof.
  intros Ho Hs ->. simpl in Ho. by rewrite (truthy_ne s Hs) in Ho.
Qed.

Lemma client_callback_accepts c params n s ts ui st :
  s ≠ "" → accepted config c params n s ts ui →
  ∃ code,
    p_code params = Some code
    ∧ client_callback c (oauth_callbackUrl config) params n s st
      = (inr ts, mkSt (req_session st) (store st)
                   (events st ++ [TokenRequest code (oauth_callbackUrl config)])).
Proof.
  intros Hs (Hstate & Herr & Hid & (code & Hcode & Hcode_ne & Hgrant)
             & (jwt & claims & Hjwt & Hjwt_ne & Hvalid & Hnonce & Hhash) & _).
  exists code. split; [done|].
  unfold client_callback. rewrite Hstate. simpl.
  rewrite (truthy_ne s Hs). simpl.
  rewrite bool_decide_eq_false_2 by (by intros []).
  rewrite Herr, Hid. unfold bind at 1. simpl.
  rewrite Hcode, (truthy_ne code Hcode_ne).
  unfold bind, emit, lift. simpl. rewrite Hgrant. simpl.
  unfold validateIdToken. rewrite Hjwt, (truthy_ne jwt Hjwt_ne). simpl.
  unfold bind, lift. rewrite Hvalid. simpl.
  rewrite bool_decide_eq_false_2 by (by intros []; congruence).
  by rewrite Hhash.
Qed.

Lemma run_callback_accepted c params n s ts ui st sess :
  OIDCService.client oidcService = Some c →
  req_session st = Some sess →
  oauth sess ≫= nonce = Some n → oauth sess ≫= state = Some s →
  n ≠ "" → s ≠ "" →
  accepted config c params n s ts ui →
  ∃ code t,
    p_code params = Some code ∧ access_token ts = Some t
    ∧ run (GetCallback params) st
      = mkSt (Some (mkSession (sess_id sess)
                      (Some (authenticated_session (oauth sess) ui ts))))
          (store st)
          (events st ++ [ TokenRequest code (oauth_callbackUrl config);
                          UserinfoRequest t;
                          Sent (Redirect "/oauth") ]).
Proof.
  intros Hc Hsess Hn Hs Hn_ne Hs_ne Hacc.
  destruct (client_callback_accepts c params n s ts ui st Hs_ne Hacc)
    as (code & Hcode & Hcb).
  destruct Hacc as (_ & _ & _ & _ & _ & (t & Ht & Ht_ne & Hui)).
  exists code, t. split_and!; [done..|].
  unfold OAuthController.run, route, callback, try_catch, bind,
    OIDCService.getClient, get_oauth, OIDCService.callback,
    OIDCService.getUserInfo.
  rewrite Hc. simpl. rewrite Hsess. simpl. rewrite Hn, Hs.
  rewrite (truthy_ne n Hn_ne), (truthy_ne s Hs_ne). simpl.
  unfold try_catch. rewrite Hcb. simpl.
  unfold client_userinfo. rewrite Ht, (truthy_ne t Ht_ne).
  unfold bind, emit, lift. simpl. rewrite Hui. simpl.
  unfold set_oauth, res_redirect, emit. simpl. rewrite Hsess. simpl.
  by rewrite <- !(assoc_L (++)).
Qed.

(** X6.  The flow completes: with the client initialised, [login] redirects
    to the authorization URL built for the requested scopes and the very pair
    it has stored in the session, and a following callback that the provider
    accepts for that pair exchanges the code, fetches the user info with the
    new access token and leaves the session Authenticated, holding the pair,
    the user info and the token set's three tokens. *)
Theorem X6_login_then_callback c n s params ts ui st sess :
  OIDCService.client oidcService = Some c →
  req_session st = Some sess → events st = [] →
  n ≠ "" → s ≠ "" →
  accepted config c params n s ts ui →
  let st1 := run (GetLogin n s) st in
  let st2 := run (GetCallback params) (next_request st1) in
  events st1 = [Sent (Redirect (authorizationUrl c "email openid phone profile" s n))]
  ∧ oauth_of st2
    = Some (mkOAuthSession (Some n) (Some s) (Some ui)
              (access_token ts) (id_token ts) (refresh_token ts))
  ∧ flow_state (oauth_of st2) = Authenticated
  ∧ ∃ code t,
      p_code params = Some code ∧ access_token ts = Some t
      ∧ events st2 = [ TokenRequest code (oauth_callbackUrl config);
                       UserinfoRequest t;
                       Sent (Redirect "/oauth") ].
Proof.
  intros Hc Hsess Hevs Hn Hs Hacc st1 st2.
  assert (st1 = mkSt (Some (mkSession (sess_id sess)
                              (Some (mkOAuthSession (Some n) (Some s) None None None None))))
                  (store st)
                  [Sent (Redirect (authorizationUrl c "email openid phone profile" s n))])
    as Hst1.
  { subst st1.
    unfold OAuthController.run, route, login, try_catch, bind, set_oauth,
      OIDCService.getAuthorizationUrl, res_redirect, emit.
    rewrite Hsess, Hc. simpl. by rewrite Hevs. }
  destruct (run_callback_accepted c params n s ts ui (next_request st1)
              (mkSession (sess_id sess)
                 (Some (mkOAuthSession (Some n) (Some s) None None None None))))
    as (code & t & Hcode & Ht & Hst2); try done.
  { by rewrite Hst1. }
  fold st2 in Hst2. rewrite Hst2, Hst1. simpl.
  split_and!; [done|done|done|]. by exists code, t.
Qed.

Lemma client_callback_early c uri params n s st :
  s ≠ "" →
  p_state params ≠ Some s ∨ Js.truthy_opt (p_error params) = true →
  ∃ e, client_callback c uri params n s st = (inl e, st).
Proof.
  intros Hs [Hstate | Herr].
  - by apply client_callback_state_mismatch.
  - destruct (decide (p_state params = Some s)) as [Heq | Hne];
      [|by apply client_callback_state_mismatch].
    unfold client_callback. rewrite Heq. simpl.
    rewrite (truthy_ne s Hs). simpl.
    rewrite bool_decide_eq_false_2 by (by intros []).
    rewrite Herr. by eexists.
Qed.

Lemma callback_guard_empty c params n s st :
  OIDCService.client oidcService = Some c →
  oauth_of st ≫= nonce = Some n → oauth_of st ≫= state = Some s →
  n = "" ∨ s = "" →
  run (GetCallback params) st
  = mkSt (req_session st) (store st)
      (events st
         ++ [ Logged (mkLog LError "OAuth callback error:"
                        (Some (Error "Session state missing")));
              Sent (error_page "Session state missing") ]).
Proof.
  intros Hc Hn Hs Hempty.
  unfold OAuthController.run, route, callback, try_catch, bind,
    OIDCService.getClient, get_oauth, logger_error, res_render, emit, throw.
  rewrite Hc. simpl. unfold oauth_of in Hn, Hs. rewrite Hn, Hs.
  assert (negb (Js.truthy n) || negb (Js.truthy s) = true) as ->.
  { destruct Hempty as [-> | ->]; [done|]. apply orb_true_r. }
  simpl. by rewrite <- (assoc_L (++)).
Qed.

Ltac no_request H :=
  simpl in H;
  repeat (apply Exists_cons in H as [[]|H]);
  by apply Exists_nil in H.

(** X7.  The callback talks to the provider only after its own checks: if a
    callback has sent anything to the token or userinfo endpoint, then the
    OIDC client was initialised, the session held a non-empty nonce and
    state, the [state] of the callback was exactly the stored one and the
    callback carried no [error]. *)
Theorem X7_provider_contacted_after_checks params st :
  events st = [] →
  Exists is_request (events (run (GetCallback params) st)) →
  is_Some (OIDCService.client oidcService)
  ∧ ∃ n s, anti_replay st = (Some n, Some s) ∧ n ≠ "" ∧ s ≠ ""
           ∧ p_state params = Some s
           ∧ Js.truthy_opt (p_error params) = false.
Proof.
  intros Hevs Hcontact.
  destruct (OIDCService.client oidcService) as [c|] eqn:Hc; cycle 1.
  { unfold OAuthController.run, route in Hcontact.
    rewrite (callback_uninitialised config oidcService params st Hc), Hevs in Hcontact.
    no_request Hcontact. }
  split; [by eexists|].
  destruct (oauth_of st ≫= nonce) as [n|] eqn:Hn; cycle 1.
  { unfold OAuthController.run, route in Hcontact.
    rewrite (callback_guard config oidcService c params st Hc (or_introl Hn)), Hevs
      in Hcontact.
    no_request Hcontact. }
  destruct (oauth_of st ≫= state) as [s|] eqn:Hs; cycle 1.
  { unfold OAuthController.run, route in Hcontact.
    rewrite (callback_guard config oidcService c params st Hc (or_intror Hs)), Hevs
      in Hcontact.
    no_request Hcontact. }
  exists n, s. unfold anti_replay. rewrite Hn, Hs. split; [done|].
  destruct (decide (n = "")) as [Hn_e | Hn_ne].
  { rewrite (callback_guard_empty c params n s st Hc Hn Hs (or_introl Hn_e)), Hevs
      in Hcontact.
    no_request Hcontact. }
  destruct (decide (s = "")) as [Hs_e | Hs_ne].
  { rewrite (callback_guard_empty c params n s st Hc Hn Hs (or_intror Hs_e)), Hevs
      in Hcontact.
    no_request Hcontact. }
  split_and!; [done|done| |].
  - destruct (decide (p_state params = Some s)) as [|Hne]; [done|]. exfalso.
    destruct (client_callback_early c (oauth_callbackUrl config) params n s st
                Hs_ne (or_introl Hne)) as [e He].
    unfold OAuthController.run, route in Hcontact.
    rewrite (callback_client_failure config oidcService c params n s e st st
               Hc Hn Hs Hn_ne Hs_ne He), Hevs in Hcontact.
    no_request Hcontact.
  - destruct (Js.truthy_opt (p_error params)) eqn:Herr; [|done]. exfalso.
    destruct (client_callback_early c (oauth_callbackUrl config) params n s st
                Hs_ne (or_intror Herr)) as [e He].
    unfold OAuthController.run, route in Hcontact.
    rewrite (callback_client_failure config oidcService c params n s e st st
               Hc Hn Hs Hn_ne Hs_ne He), Hevs in Hcontact.
    no_request Hcontact.
Qed.

End JourneyFacts.

Section ShapeFacts.
Import Http OpenidClient ExpressSession OAuthController Flow Journey.
Context {provider : Provider} {sessions : SessionStore}.
Variable config : Config.
Variable oidcService : OIDCService.t.

#[local] Abbreviation run := (run config oidcService).

(** A handler that finds no session attached leaves none attached. *)
Lemma run_without_session r st :
  req_session st = None → req_session (run r st) = None.
Proof.
  intros Hnone. destruct r as [|n s|params| |].
  - by rewrite run_home.
  - unfold OAuthController.run, route, login, try_catch, bind, set_oauth.
    by rewrite Hnone.
  - destruct (run_callback config oidcService params st)
      as (_ & [[Hsame _] | (sess & ui & ts & evs & Hs & _)]); congruence.
  - unfold OAuthController.run, route, logout, bind, session_destroy.
    by rewrite Hnone.
  - destruct (run_profile config oidcService st) as [Hsame _]. congruence.
Qed.

Lemma run_keeps_shape r st :
  Shape (oauth_of st) → Shape (oauth_of (run r st)).
Proof.
  intros Hshape. destruct (req_session st) as [sess|] eqn:Hsess; cycle 1.
  { unfold oauth_of. rewrite (run_without_session r st Hsess). constructor. }
  destruct r as [|n s|params| |].
  - by rewrite run_home.
  - destruct (run_login config oidcService n s st sess Hsess) as [Hlogin _].
    unfold oauth_of. rewrite Hlogin. constructor.
  - destruct (run_callback config oidcService params st)
      as (_ & [[Hsame _] | (sess' & ui & ts & evs & Hs & Hs' & _ & _ & n & s & Hpair)]).
    + unfold oauth_of in *. by rewrite Hsame.
    + unfold anti_replay, oauth_of in *. rewrite Hs'. rewrite Hs in Hpair.
      simpl in *. injection Hpair as Hn Hst.
      unfold authenticated_session. rewrite Hn, Hst. constructor.
  - rewrite (run_logout config oidcService st sess Hsess). constructor.
  - destruct (run_profile config oidcService st) as [Hsame _].
    unfold oauth_of in *. by rewrite Hsame.
Qed.

(** X8.  Whatever requests a browser session makes, in whatever order and
    with whatever answers from the provider, its [oauth] member is empty, a
    bare nonce and state, or a nonce and state with user info; so the
    session never holds a token without user info, nor user info without the
    pair it was obtained under. *)
Theorem X8_session_shapes rs st :
  Shape (oauth_of st) →
  let o := oauth_of (foldl (λ s r, run r s) st rs) in
  Shape o
  ∧ (o ≫= userInfo = None →
     o ≫= accessToken = None ∧ o ≫= idToken = None ∧ o ≫= refreshToken = None)
  ∧ (is_Some (o ≫= userInfo) → is_Some (o ≫= nonce) ∧ is_Some (o ≫= state)).
Proof.
  intros Hshape o.
  assert (Shape o) as Ho.
  { subst o. revert st Hshape.
    induction rs as [|r rs IH]; intros st Hshape; [done|].
    simpl. apply IH. by apply run_keeps_shape. }
  split; [done|]. destruct Ho as [|n s|n s ui a i r]; simpl.
  - split; [done|]. by intros [??].
  - split; [done|]. by intros [??].
  - split; [done|]. intros _. split; by eexists.
Qed.

End ShapeFacts.

Section CycleFacts.
Import Http OpenidClient ExpressSession OAuthController Flow Journey.
Context {provider : Provider}.
Variable config : Config.
Variable oidcService : OIDCService.t.

#[local] Abbreviation route := (@route provider MemoryStore config oidcService).

Lemma serve_store handler m sid sess' m' evs :
  (handler (load m sid)).2 = mkSt sess' m' evs →
  (serve handler m sid).1 = save (mkSt sess' m' evs).
Proof. intros Hrun. unfold serve. by rewrite Hrun. Qed.

Lemma load_oauth m sid o :
  m !! sid = Some o → oauth_of (load m sid) = o.
Proof. intros Hm. unfold oauth_of, load. simpl. by rewrite Hm. Qed.

(** X9.  One round of the state machine with the in-memory store: from any
    store contents, a login puts the browser session in PendingCallback, an
    accepted callback makes it Authenticated, and a logout removes it from
    the store, so that its next request starts Anonymous; the entries of all
    other sessions are as they were throughout. *)
Theorem X9_cycle_returns_to_anonymous c n s params ts ui m sid :
  OIDCService.client oidcService = Some c →
  n ≠ "" → s ≠ "" →
  accepted config c params n s ts ui →
  let m1 := (serve (route (GetLogin n s)) m sid).1 in
  let m2 := (serve (route (GetCallback params)) m1 sid).1 in
  let m3 := (serve (route GetLogout) m2 sid).1 in
  flow_state (oauth_of (load m1 sid)) = PendingCallback
  ∧ flow_state (oauth_of (load m2 sid)) = Authenticated
  ∧ oauth_of (load m2 sid) ≫= userInfo = Some ui
  ∧ m3 !! sid = None
  ∧ flow_state (oauth_of (load m3 sid)) = Anonymous
  ∧ ∀ sid', sid' ≠ sid →
      m1 !! sid' = m !! sid' ∧ m2 !! sid' = m !! sid' ∧ m3 !! sid' = m !! sid'.
Proof.
  intros Hc Hn Hs Hacc m1 m2 m3.
  set (pending := mkOAuthSession (Some n) (Some s) None None None None).
  assert (m1 = <[sid := Some pending]> m) as Hm1.
  { subst m1.
    destruct (run_login (sessions:=MemoryStore) config oidcService n s (load m sid) _ eq_refl)
      as [Hsess Hstore].
    unfold serve, save. fold (OAuthController.run (H0:=MemoryStore) config oidcService
                                (GetLogin n s) (load m sid)).
    rewrite Hsess, Hstore. simpl. by destruct (m !! sid). }
  assert (m2 = <[sid := Some (authenticated_session (Some pending) ui ts)]> m1) as Hm2.
  { subst m2.
    destruct (run_callback_accepted (sessions:=MemoryStore) config oidcService
                c params n s ts ui (load m1 sid)
                (mkSession sid (Some pending))) as (code & t & _ & _ & Hrun); try done.
    { unfold load. by rewrite Hm1, lookup_insert_eq. }
    unfold serve. fold (OAuthController.run (H0:=MemoryStore) config oidcService
                          (GetCallback params) (load m1 sid)).
    rewrite Hrun. unfold save. simpl. by rewrite Hm1, lookup_insert_eq. }
  assert (m3 = delete sid m2) as Hm3.
  { subst m3.
    pose proof (run_logout (sessions:=MemoryStore) config oidcService
                  (load m2 sid) _ eq_refl) as Hrun.
    unfold serve. fold (OAuthController.run (H0:=MemoryStore) config oidcService
                          GetLogout (load m2 sid)).
    by rewrite Hrun. }
  split_and!.
  - rewrite (load_oauth m1 sid (Some pending)) by (by rewrite Hm1, lookup_insert_eq).
    unfold flow_state. simpl. by rewrite (truthy_ne n Hn), (truthy_ne s Hs).
  - by rewrite (load_oauth m2 sid _ ltac:(by rewrite Hm2, lookup_insert_eq)).
  - by rewrite (load_oauth m2 sid _ ltac:(by rewrite Hm2, lookup_insert_eq)).
  - by rewrite Hm3, lookup_delete_eq.
  - unfold oauth_of, load. simpl. by rewrite Hm3, lookup_delete_eq.
  - intros sid' Hne.
    rewrite Hm3, Hm2, Hm1, lookup_delete_ne, !lookup_insert_ne by done. done.
Qed.

End CycleFacts.

Section BootFacts.
Import Http OpenidClient ExpressSession OAuthController Flow Journey.
Context {provider : Provider} {sessions : SessionStore}.
Variable config : Config.

(** X10.  Discovery is tried once, when the routes are set up, and decides
    every later login: after it has succeeded the controller's client is
    built from the configured client id, secret and callback URL for the
    [code] response type and [login] redirects to the authorization URL;
    after it has failed the service keeps no client and every [login] is
    answered with the 500 page [Failed to initiate login]. *)
Theorem X10_discovery_decides_login n s st sess :
  req_session st = Some sess → events st = [] →
  let service := boot config in
  let issuer := "https://cognito-idp." +:+ aws_region config +:+ ".amazonaws.com/"
                  +:+ cognito_userPoolId config in
  let answer := responses (events (OAuthController.run config service (GetLogin n s) st)) in
  match discover issuer with
  | None =>
      let c := mkClient (cognito_clientId config) (cognito_clientSecret config)
                 [oauth_callbackUrl config] ["code"] in
      OIDCService.client service = Some c
      ∧ answer = [Redirect (authorizationUrl c "email openid phone profile" s n)]
  | Some _ =>
      OIDCService.client service = None
      ∧ answer = [Render 500 (ErrorView "Failed to initiate login"
                                "OIDC client not initialized")]
  end.
Proof.
  intros Hsess Hevs service issuer answer. subst service answer issuer.
  unfold boot, OIDCService.initialize, OIDCService.constructor, try_catch. simpl.
  destruct (discover _) as [e|]; simpl.
  - split; [done|].
    unfold OAuthController.run, route, login, try_catch, bind, set_oauth,
      OIDCService.getAuthorizationUrl. simpl.
    rewrite Hsess. simpl. by rewrite Hevs.
  - split; [done|].
    unfold OAuthController.run, route, login, try_catch, bind, set_oauth,
      OIDCService.getAuthorizationUrl. simpl.
    rewrite Hsess. simpl. by rewrite Hevs.
Qed.

End BootFacts.

Section JourneyExamples.
Import Http OpenidClient ExpressSession OAuthController Flow Journey.
#[local] Existing Instance demo_provider.
#[local] Existing Instance MemoryStore.

Lemma demo_accepted :
  accepted demo_config demo_client (demo_params "code-1" "state-1")
    "nonce-1" "state-1"
    (mkTokenSet (Some "at-1") (Some "idt:nonce-1") (Some "rt-1"))
    (mkUserInfo "alice" "alice@example.com" "alice").
Proof.
  split_and!; try done.
  - by exists "code-1".
  - by exists "idt:nonce-1", (mkIdTokenClaims "alice" (Some "nonce-1")).
  - by exists "at-1".
Qed.

Lemma X6_login_then_callback_witness :
  let st1 := OAuthController.run demo_config demo_service
               (GetLogin "nonce-1" "state-1") (load ∅ "sid-1") in
  let st2 := OAuthController.run demo_config demo_service
               (GetCallback (demo_params "code-1" "state-1")) (next_request st1) in
  oauth_of st2 = Some demo_authenticated
  ∧ flow_state (oauth_of st2) = Authenticated.
Proof.
  intros st1 st2.
  destruct (X6_login_then_callback demo_config demo_service demo_client
              "nonce-1" "state-1" (demo_params "code-1" "state-1")
              (mkTokenSet (Some "at-1") (Some "idt:nonce-1") (Some "rt-1"))
              (mkUserInfo "alice" "alice@example.com" "alice")
              (load ∅ "sid-1") _ eq_refl eq_refl eq_refl
              ltac:(discriminate) ltac:(discriminate) demo_accepted)
    as (_ & Hoauth & Hflow & _).
  split; [exact Hoauth | exact Hflow].
Defined.

Lemma X7_provider_contacted_after_checks_witness :
  let st := load {[ "sid-1" := Some demo_pending ]} "sid-1" in
  anti_replay st = (Some "nonce-1", Some "state-1")
  ∧ is_Some (OIDCService.client demo_service).
Proof.
  intros st.
  destruct (X7_provider_contacted_after_checks demo_config demo_service
              (demo_params "code-1" "state-1") st eq_refl)
    as (Hclient & n & s & Hpair & _).
  - apply Exists_cons_hd. exact I.
  - split; [reflexivity | exact Hclient].
Defined.

Lemma X8_session_shapes_witness :
  let st := load ∅ "sid-1" in
  Shape (oauth_of
           (foldl (λ s r, OAuthController.run demo_config demo_service r s) st
              [ GetLogin "nonce-1" "state-1";
                GetCallback (demo_params "code-1" "state-1");
                GetProfile; GetCallback (demo_params "code-2" "state-1") ])).
Proof.
  intros st.
  exact (proj1 (X8_session_shapes demo_config demo_service _ st ShapeEmpty)).
Defined.

Lemma X9_cycle_returns_to_anonymous_witness :
  let m := {[ "sid-2" := Some demo_pending ]} in
  let m1 := (serve (route demo_config demo_service (GetLogin "nonce-1" "state-1"))
               m "sid-1").1 in
  let m2 := (serve (route demo_config demo_service
                      (GetCallback (demo_params "code-1" "state-1"))) m1 "sid-1").1 in
  let m3 := (serve (route demo_config demo_service GetLogout) m2 "sid-1").1 in
  m2 !! "sid-1" = Some (Some demo_authenticated)
  ∧ m3 !! "sid-1" = None
  ∧ m3 !! "sid-2" = Some (Some demo_pending).
Proof.
  intros m m1 m2 m3.
  destruct (X9_cycle_returns_to_anonymous demo_config demo_service demo_client
              "nonce-1" "state-1" (demo_params "code-1" "state-1")
              (mkTokenSet (Some "at-1") (Some "idt:nonce-1") (Some "rt-1"))
              (mkUserInfo "alice" "alice@example.com" "alice")
              m "sid-1" eq_refl ltac:(discriminate) ltac:(discriminate)
              demo_accepted)
    as (_ & _ & _ & Hgone & _ & Hothers).
  split_and!.
  - reflexivity.
  - exact Hgone.
  - destruct (Hothers "sid-2" ltac:(discriminate)) as (_ & _ & Hkept).
    exact Hkept.
Defined.

Lemma X10_discovery_decides_login_witness :
  responses (events (OAuthController.run demo_config (boot demo_config)
                       (GetLogin "nonce-1" "state-1") (load ∅ "sid-1")))
  = [Redirect "https://idp.example/authorize?client_id=client-1&state=state-1&nonce=nonce-1"].
Proof.
  exact (proj2 (X10_discovery_decides_login demo_config "nonce-1" "state-1"
                  (load ∅ "sid-1") _ eq_refl eq_refl)).
Defined.

End JourneyExamples.

Section ValidatorRules.
Import Validators AsciiText.
Context {vjs : ValidatorJs}.

Lemma lookahead_spec cls s :
  lookahead cls s = true
  ↔ ∃ pre x post, s = pre +:+ String x post ∧ cls x = true
                  ∧ existsb_string line_terminator pre = false.
Proof.
  split.
  - induction s as [|c rest IH]; simpl; [done|].
    destruct (cls c) eqn:Hc.
    + intros _. by exists "", c, rest.
    + simpl. intros [Hlt Hrest]%andb_true_iff.
      destruct (IH Hrest) as (pre & x & post & -> & Hx & Hpre).
      exists (String c pre), x, post. split_and!; [done..|].
      simpl. rewrite Hpre. by destruct (line_terminator c).
  - intros (pre & x & post & -> & Hx & Hpre).
    induction pre as [|c pre IH]; simpl in *.
    + by rewrite Hx.
    + apply orb_false_iff in Hpre as [Hc Hpre].
      rewrite Hc, (IH Hpre). simpl. apply orb_true_r.
Qed.

Lemma lookahead_app cls s q :
  lookahead cls s = true → lookahead cls (s +:+ q) = true.
Proof.
  induction s as [|c rest IH]; simpl; [done|].
  destruct (cls c); [done|]. simpl.
  intros [Hlt Hrest]%andb_true_iff. by rewrite Hlt, IH.
Qed.

Lemma string_length_app s q :
  String.length (s +:+ q) = String.length s + String.length q.
Proof. induction s as [|c s IH]; simpl; [done|]. by rewrite IH. Qed.

Lemma run_chain_nil field optional vs (value : string) :
  run_chain field optional vs (Some value) = []
  ↔ Forall (λ v, check v value = true) vs.
Proof.
  unfold run_chain. simpl. induction vs as [|v vs IH]; simpl.
  - split; by constructor.
  - destruct (check v value) eqn:Hv.
    + rewrite IH. split; [by constructor|]. by inversion 1.
    + split; [done|]. inversion 1; congruence.
Qed.

Lemma accepts_password b p :
  b_password b = Some p →
  accepts "password" b = true
  ↔ (8 ≤ String.length p)%nat ∧ password_pattern p = true.
Proof.
  intros Hp. unfold accepts. rewrite bool_decide_eq_true, errors_of_password, Hp.
  rewrite run_chain_nil. unfold password_chain.
  rewrite !Forall_cons, Forall_nil. simpl. unfold isLength.
  rewrite andb_true_r, Nat.leb_le. naive_solver.
Qed.

(** X11.  What sign-up validation accepts, for a body whose username,
    password and names are ASCII text: the body passes with no error exactly
    when the email satisfies [isEmail], the username has 3 to 20 characters,
    all letters or digits, the password has at least 8 characters and
    matches the pattern, each name that is present has 1 to 50 letters, and
    a phone number that is present satisfies [isMobilePhone].  An absent
    email is judged as the empty string; an absent username or password is
    rejected. *)
Theorem X11_signup_accepted b :
  ascii_body b →
  signUpValidator b = []
  ↔ isEmail (default "" (b_email b)) = true
    ∧ (∃ u, b_username b = Some u ∧ (3 ≤ String.length u ≤ 20)%nat
            ∧ forallb_string (λ c, is_digit c || is_upper c || is_lower c) u = true)
    ∧ (∃ p, b_password b = Some p ∧ (8 ≤ String.length p)%nat
            ∧ password_pattern p = true)
    ∧ (∀ f, b_firstName b = Some f →
            (1 ≤ String.length f ≤ 50)%nat
            ∧ forallb_string (λ c, is_upper c || is_lower c) f = true)
    ∧ (∀ l, b_lastName b = Some l →
            (1 ≤ String.length l ≤ 50)%nat
            ∧ forallb_string (λ c, is_upper c || is_lower c) l = true)
    ∧ (∀ n, b_phoneNumber b = Some n → isMobilePhone n = true).
Proof.
  intros _. unfold signUpValidator. rewrite !app_nil.
  assert (∀ field vs, run_chain field false vs None = run_chain field false vs (Some ""))
    as Habsent by done.
  assert (∀ s lo hi, isLength lo (Some hi) s = true ↔ (lo ≤ String.length s ≤ hi)%nat) as Hlen.
  { intros s lo hi. unfold isLength. rewrite andb_true_iff, !Nat.leb_le. done. }
  assert (∀ s p, bool_decide (s ≠ "") && forallb_string p s = true
                 ↔ s ≠ "" ∧ forallb_string p s = true) as Hne.
  { intros s p. by rewrite andb_true_iff, bool_decide_eq_true. }
  assert (∀ s lo hi, (1 ≤ lo)%nat → (lo ≤ String.length s ≤ hi)%nat → s ≠ "") as Hpos.
  { intros s lo hi Hlo [Hs _] ->. simpl in Hs. lia. }
  assert (∀ field m o,
            run_chain field true (name_chain m) o = []
            ↔ ∀ f, o = Some f →
                   (1 ≤ String.length f ≤ 50)%nat
                   ∧ forallb_string (λ c, is_upper c || is_lower c) f = true) as Hname.
  { intros field m [f|].
    - rewrite run_chain_nil. unfold name_chain.
      rewrite !Forall_cons, Forall_nil. simpl. unfold isAlpha. rewrite Hlen, Hne.
      split.
      + intros (Hl & (_ & Ha) & _) ? [= <-]. done.
      + intros Hf. destruct (Hf f eq_refl) as [Hl Ha].
        split_and!; try done; try lia. apply (Hpos f 1 50); [lia|done].
    - split; [by intros _ ? [=]|done]. }
  rewrite !Hname. clear Hname.
  assert (run_chain "email" false [mkValidator isEmail "Valid email is required"]
            (b_email b) = []
          ↔ isEmail (default "" (b_email b)) = true) as ->.
  { destruct (b_email b) as [e|]; [|rewrite Habsent]; rewrite run_chain_nil;
      rewrite Forall_cons, Forall_nil; simpl; naive_solver. }
  assert (run_chain "username" false username_chain (b_username b) = []
          ↔ ∃ u, b_username b = Some u ∧ (3 ≤ String.length u ≤ 20)%nat
                 ∧ forallb_string (λ c, is_digit c || is_upper c || is_lower c) u
                   = true) as ->.
  { destruct (b_username b) as [u|].
    - rewrite run_chain_nil. unfold username_chain.
      rewrite !Forall_cons, Forall_nil. simpl. unfold isAlphanumeric.
      rewrite Hlen, Hne. split.
      + intros (Hl & (_ & Ha) & _). by exists u.
      + intros (? & [= <-] & Hl & Ha). split_and!; try done; try lia.
        apply (Hpos u 1 20); [lia|lia].
    - rewrite Habsent, run_chain_nil. unfold username_chain.
      rewrite !Forall_cons, Forall_nil. simpl. split; [naive_solver|].
      by intros (? & [=] & _). }
  assert (run_chain "password" false password_chain (b_password b) = []
          ↔ ∃ p, b_password b = Some p ∧ (8 ≤ String.length p)%nat
                 ∧ password_pattern p = true) as ->.
  { destruct (b_password b) as [p|].
    - rewrite run_chain_nil. unfold password_chain.
      rewrite !Forall_cons, Forall_nil. simpl. unfold isLength.
      rewrite andb_true_r, Nat.leb_le. split.
      + intros (Hl & Hp & _). by exists p.
      + intros (? & [= <-] & Hl & Hp). done.
    - rewrite Habsent, run_chain_nil. unfold password_chain.
      rewrite !Forall_cons, Forall_nil. simpl. split; [naive_solver|].
      by intros (? & [=] & _). }
  assert (run_chain "phoneNumber" true
            [mkValidator isMobilePhone "Valid phone number is required"]
            (b_phoneNumber b) = []
          ↔ ∀ n, b_phoneNumber b = Some n → isMobilePhone n = true) as ->.
  { destruct (b_phoneNumber b) as [n|].
    - rewrite run_chain_nil, Forall_cons, Forall_nil. simpl. split.
      + intros [Hn _] ? [= <-]. done.
      + intros Hn. split; [by apply Hn|done].
    - split; [by intros _ ? [=]|done]. }
  done.
Qed.

(** X12.  The password rule as the pattern enforces it, on ASCII text.  An
    ASCII password is accepted exactly when it has at least 8 characters,
    its first character is a letter, a digit or one of [@$!%*?&], and a
    lowercase letter, an uppercase letter, a digit and one of [@$!%*?&] each
    occur before the first line feed or carriage return.  The pattern is not
    anchored at its end: an accepted password stays accepted whatever ASCII
    text is appended to it, so characters outside the listed ones may follow
    the first. *)
Theorem X12_password_rule b p :
  b_password b = Some p →
  ascii_text p →
  let allowed c := is_upper c || is_lower c || is_digit c || is_special c in
  let on_first_line cls :=
    ∃ pre x post, p = pre +:+ String x post ∧ cls x = true
                  ∧ existsb_string line_terminator pre = false in
  (accepts "password" b = true
   ↔ (8 ≤ String.length p)%nat
     ∧ (∃ c rest, p = String c rest ∧ allowed c = true)
     ∧ on_first_line is_lower ∧ on_first_line is_upper
     ∧ on_first_line is_digit ∧ on_first_line is_special)
  ∧ (accepts "password" b = true →
     ∀ b' q, ascii_text q → b_password b' = Some (p +:+ q) →
             accepts "password" b' = true).
Proof.
  intros Hp _ allowed on_first_line. split.
  - rewrite (accepts_password b p Hp). unfold password_pattern.
    rewrite !andb_true_iff, !lookahead_spec.
    fold (on_first_line is_lower) (on_first_line is_upper)
      (on_first_line is_digit) (on_first_line is_special).
    split.
    + intros (Hlen & ((((Hl & Hu) & Hd) & Hs) & Hfirst)).
      split_and!; try done. destruct p as [|c rest]; [done|]. by exists c, rest.
    + intros (Hlen & (c & rest & -> & Hc) & Hl & Hu & Hd & Hs). done.
  - rewrite (accepts_password b p Hp). intros [Hlen Hpat] b' q _ Hq.
    rewrite (accepts_password b' _ Hq). split.
    + rewrite string_length_app. lia.
    + unfold password_pattern in *.
      rewrite !andb_true_iff in Hpat. destruct Hpat as ((((Hl & Hu) & Hd) & Hs) & Hfirst).
      rewrite !lookahead_app by done. simpl.
      destruct p as [|c rest]; [done|]. done.
Qed.

End ValidatorRules.

Section ValidatorRuleExamples.
Import Validators AsciiText.
#[local] Existing Instance demo_validator_js.

Lemma demo_body_ascii : ascii_body (demo_body "alice" "Aa1!aaaa").
Proof.
  unfold ascii_body, ascii_field, demo_body. simpl.
  split_and!; intros s [= <-]; reflexivity.
Defined.

Lemma X11_signup_accepted_witness :
  ascii_body (demo_body "alice" "Aa1!aaaa")
  ∧ signUpValidator (demo_body "alice" "Aa1!aaaa") = [].
Proof.
  split; [exact demo_body_ascii|].
  apply (X11_signup_accepted (demo_body "alice" "Aa1!aaaa") demo_body_ascii).
  split_and!.
  - reflexivity.
  - exists "alice". split_and!; [reflexivity|simpl; lia|simpl; lia|reflexivity].
  - exists "Aa1!aaaa". split_and!; [reflexivity|simpl; lia|reflexivity].
  - intros f [=].
  - intros l [=].
  - intros n [=].
Defined.

Lemma X12_password_rule_witness :
  accepts "password" (demo_body "alice" "Aa1!aaaa") = true
  ∧ accepts "password" (demo_body "alice" "Aa1!aaaa with spaces _ and more") = true.
Proof.
  destruct (X12_password_rule (demo_body "alice" "Aa1!aaaa") "Aa1!aaaa" eq_refl eq_refl)
    as [_ Hsuffix].
  split; [reflexivity|].
  exact (Hsuffix eq_refl (demo_body "alice" "Aa1!aaaa with spaces _ and more")
           " with spaces _ and more" eq_refl eq_refl).
Defined.

End ValidatorRuleExamples.

Section GatewayFacts.
Import CognitoService Controllers.
Context {sdk : CognitoSdk}.
Variable config : Config.

Lemma map_attributes_snoc attributes a :
  mapCognitoAttributesToUser (attributes ++ [a])
  = let user := mapCognitoAttributesToUser attributes in
    if bool_decide (attr_Name a = "sub")
    then mkUser (Some (attr_Value a)) (u_email user) (u_emailVerified user)
           (u_firstName user) (u_lastName user) (u_phoneNumber user) (u_username user)
    else if bool_decide (attr_Name a = "email")
    then mkUser (u_id user) (Some (attr_Value a)) (u_emailVerified user)
           (u_firstName user) (u_lastName user) (u_phoneNumber user) (u_username user)
    else if bool_decide (attr_Name a = "email_verified")
    then mkUser (u_id user) (u_email user) (Some (bool_decide (attr_Value a = "true")))
           (u_firstName user) (u_lastName user) (u_phoneNumber user) (u_username user)
    else if bool_decide (attr_Name a = "given_name")
    then mkUser (u_id user) (u_email user) (u_emailVerified user)
           (Some (attr_Value a)) (u_lastName user) (u_phoneNumber user) (u_username user)
    else if bool_decide (attr_Name a = "family_name")
    then mkUser (u_id user) (u_email user) (u_emailVerified user)
           (u_firstName user) (Some (attr_Value a)) (u_phoneNumber user) (u_username user)
    else if bool_decide (attr_Name a = "phone_number")
    then mkUser (u_id user) (u_email user) (u_emailVerified user)
           (u_firstName user) (u_lastName user) (Some (attr_Value a)) (u_username user)
    else user.
Proof. unfold mapCognitoAttributesToUser. by rewrite foldl_snoc. Qed.

Lemma last_filter_snoc (name : string) attributes a :
  last (filter (λ x, attr_Name x = name) (attributes ++ [a]))
  = if bool_decide (attr_Name a = name) then Some a
    else last (filter (λ x, attr_Name x = name) attributes).
Proof.
  rewrite filter_app. case_bool_decide as Ha.
  - rewrite filter_cons_True, filter_nil by done. by rewrite last_snoc.
  - rewrite filter_cons_False, filter_nil by done. by rewrite app_nil_r.
Qed.

(** X13.  Every field of the user the service builds from a provider
    attribute list is the value of the last attribute of that name; names
    other than the six known ones do not matter; [emailVerified] is [true]
    only for the exact value [true]; the list never supplies the
    username. *)
Theorem X13_attributes_last_wins attributes :
  let value name :=
    attr_Value <$> last (filter (λ a, attr_Name a = name) attributes) in
  let user := mapCognitoAttributesToUser attributes in
  u_id user = value "sub"
  ∧ u_email user = value "email"
  ∧ u_emailVerified user = (λ v, bool_decide (v = "true")) <$> value "email_verified"
  ∧ u_firstName user = value "given_name"
  ∧ u_lastName user = value "family_name"
  ∧ u_phoneNumber user = value "phone_number"
  ∧ u_username user = None.
Proof.
  induction attributes as [|a attributes IH] using rev_ind; [done|].
  simpl in *. destruct IH as (Hid & Hemail & Hver & Hfirst & Hlast & Hphone & Huser).
  rewrite map_attributes_snoc, !last_filter_snoc. simpl.
  repeat case_bool_decide; simpl; split_and!; try congruence.
  - by rewrite bool_decide_eq_true_2.
  - by rewrite bool_decide_eq_false_2.
Qed.

Lemma try_catch_run {S A} (m : M S A) (h : Exn → M S A) s :
  try_catch m h s
  = match m s with (inl e, s') => h e s' | (inr a, s') => (inr a, s') end.
Proof. done. Qed.

(** What [signIn] of the controller answers to an error. *)
Lemma signIn_on_error call l e l' :
  call l = (inl e, l') →
  Controllers.signIn call l
  = (inr (if named e "NotAuthorizedException"
          then Json 401 (ErrorBody "Invalid username or password")
          else if named e "UserNotConfirmedException"
          then Json 403 (ErrorBody "User email not verified")
          else Forward e),
     l' ++ [mkLog LError "SignIn error:" (Some e)]).
Proof.
  intros Hcall. unfold Controllers.signIn, try_catch, bind. rewrite Hcall.
  unfold log_error, logger_error, ret. by repeat destruct (named _ _).
Qed.

Lemma signUp_on_error call l e l' :
  call l = (inl e, l') →
  Controllers.signUp call l
  = (inr (if named e "UsernameExistsException"
          then Json 409 (ErrorBody "Username already exists")
          else if named e "InvalidPasswordException"
          then Json 400 (ErrorBody "Invalid password format")
          else Forward e),
     l' ++ [mkLog LError "SignUp error:" (Some e)]).
Proof.
  intros Hcall. unfold Controllers.signUp, try_catch, bind. rewrite Hcall.
  unfold log_error, logger_error, ret. by repeat destruct (named _ _).
Qed.

(** X14.  Sign-in from request to answer.  The answer carries tokens exactly
    when [InitiateAuth] returned an authentication result and [GetUser]
    then succeeded for its access token; the tokens are the provider's and
    one info line is logged.  A response without an authentication result
    is forwarded as [Error: Authentication failed]; every failure is logged
    twice, by the service and by the controller, and is answered 401, 403 or
    forwarded according to the name of the error. *)
Theorem X14_signin_answers data l :
  let auth := InitiateAuth (si_username data) (si_password data)
                (secretHashParameter config (si_username data)) in
  let failed e outcome final :=
    final = l ++ [ mkLog LError "Error signing in user:" (Some e);
                   mkLog LError "SignIn error:" (Some e) ]
    ∧ outcome = (if named e "NotAuthorizedException"
                 then Json 401 (ErrorBody "Invalid username or password")
                 else if named e "UserNotConfirmedException"
                 then Json 403 (ErrorBody "User email not verified")
                 else Forward e) in
  ∃ outcome final,
    Controllers.signIn (CognitoService.signIn config data) l = (inr outcome, final)
    ∧ (carries_tokens outcome = true
       ↔ ∃ result r, auth = inr (Some result)
                     ∧ GetUser (t_accessToken result) = inr r)
    ∧ match auth with
      | inl e => failed e outcome final
      | inr None =>
          failed (Error "Authentication failed") outcome final
          ∧ outcome = Forward (Error "Authentication failed")
      | inr (Some result) =>
          match GetUser (t_accessToken result) with
          | inl e => failed e outcome final
          | inr r =>
              ∃ user,
                outcome = Json 200 (MessageBody "Sign in successful"
                            (Some (SignInData (mkSignInResponse user
                               (mkTokens (t_accessToken result) (t_idToken result)
                                  (t_refreshToken result))))))
                ∧ u_username user = Username r
                ∧ u_email user
                  = u_email (mapCognitoAttributesToUser (default [] (UserAttributes r)))
                ∧ final = l ++ [mkLog LInfo ("User " +:+ si_username data
                                               +:+ " signed in successfully") None]
          end
      end.
Proof.
  intros auth failed.
  assert (∀ e outcome, outcome = (if named e "NotAuthorizedException"
                 then Json 401 (ErrorBody "Invalid username or password")
                 else if named e "UserNotConfirmedException"
                 then Json 403 (ErrorBody "User email not verified")
                 else Forward e) → carries_tokens outcome = false) as Hnone.
  { intros e outcome ->. by repeat destruct (named _ _). }
  destruct auth as [e|[result|]] eqn:Hauth; subst auth.
  - eexists _, _. split.
    { apply signIn_on_error. unfold CognitoService.signIn, try_catch, bind, lift.
      rewrite Hauth. reflexivity. }
    split; [|split; [by unfold logger_error; rewrite <- (assoc_L (++))|done]].
    rewrite (Hnone e _ eq_refl). split; [done|]. by intros (? & ? & ? & _).
  - destruct (GetUser (t_accessToken result)) as [e|r] eqn:Huser.
    + eexists _, _. split.
      { apply signIn_on_error. unfold CognitoService.signIn, try_catch, bind, lift.
        rewrite Hauth. simpl. rewrite Huser. reflexivity. }
      split; [|split; [by unfold logger_error; rewrite <- (assoc_L (++))|done]].
      rewrite (Hnone e _ eq_refl). split; [done|].
      intros (? & ? & [= <-] & ?). congruence.
    + eexists _, _. split.
      { unfold Controllers.signIn, CognitoService.signIn, try_catch, bind, lift.
        rewrite Hauth. simpl. rewrite Huser. reflexivity. }
      split; [split; [by eauto|done]|].
      eexists. split; [reflexivity|]. done.
  - eexists _, _. split.
    { apply signIn_on_error. unfold CognitoService.signIn, try_catch, bind, lift.
      rewrite Hauth. reflexivity. }
    split; [|split; [split; [by unfold logger_error; rewrite <- (assoc_L (++))|done]|done]].
    split; [done|]. by intros (? & ? & ? & _).
Qed.

(** X15.  Sign-up from request to answer.  The user is created first and the
    permanent password set second; the answer is 201 exactly when both calls
    succeed, with [userConfirmed] true and the [sub] of the created user as
    id.  The first failing call ends the request: its error is logged by the
    service and by the controller and answered 409, 400 or forwarded by
    name, also when the user has already been created. *)
Theorem X15_signup_answers data l :
  ∃ attributes outcome final,
    Controllers.signUp (CognitoService.signUp data) l = (inr outcome, final)
    ∧ [mkAttribute "email" (su_email data); mkAttribute "email_verified" "true"]
      `prefix_of` attributes
    ∧ let failed e :=
        final = l ++ [ mkLog LError "Error signing up user:" (Some e);
                       mkLog LError "SignUp error:" (Some e) ]
        ∧ outcome = (if named e "UsernameExistsException"
                     then Json 409 (ErrorBody "Username already exists")
                     else if named e "InvalidPasswordException"
                     then Json 400 (ErrorBody "Invalid password format")
                     else Forward e) in
      match AdminCreateUser (su_username data) attributes with
      | inl e => failed e
      | inr created =>
          match AdminSetUserPassword (su_username data) (su_password data) with
          | Some e => failed e
          | None =>
              outcome = Json 201 (MessageBody "User created successfully"
                          (Some (SignUpData (mkSignUpResult
                             (attr_Value <$>
                                (created ≫= find (λ a, bool_decide (attr_Name a = "sub"))))
                             true))))
              ∧ final = l ++ [mkLog LInfo
                                ("User " +:+ su_username data
                                   +:+ " signed up successfully with confirmed account")
                                None]
          end
      end.
Proof.
  eexists _. 
  match goal with
  | |- ∃ outcome final, _ ∧ _ ∧ (let failed := _ in
         match AdminCreateUser _ ?attrs with _ => _ end) =>
      destruct (AdminCreateUser (su_username data) attrs) as [e|created] eqn:Hcreate
  end.
  - eexists _, _. split.
    { apply signUp_on_error. unfold CognitoService.signUp, try_catch, bind, lift.
      rewrite Hcreate. reflexivity. }
    split; [by eexists|]. simpl. split; [by unfold logger_error; rewrite <- (assoc_L (++))|done].
  - destruct (AdminSetUserPassword (su_username data) (su_password data))
      as [e|] eqn:Hset.
    + eexists _, _. split.
      { apply signUp_on_error. unfold CognitoService.signUp, try_catch, bind, lift.
        rewrite Hcreate. simpl. rewrite Hset. reflexivity. }
      split; [by eexists|]. simpl. split; [by unfold logger_error; rewrite <- (assoc_L (++))|done].
    + eexists _, _. split.
      { unfold Controllers.signUp, CognitoService.signUp, try_catch, bind, lift.
        rewrite Hcreate. simpl. rewrite Hset. reflexivity. }
      split; [by eexists|]. done.
Qed.

(** X16.  Every handler of the two controllers deals with a failing service
    call in the same way: it logs the error once, lets no exception escape,
    and either forwards the error unchanged or answers with a 4xx status and
    a fixed text that does not depend on the provider's message.  An error
    whose name is none of the seven the handlers know is forwarded by every
    endpoint. *)
Theorem X16_handlers_contain_errors ep e l :
  ∃ outcome text,
    on_error ep e l = (inr outcome, l ++ [mkLog LError text (Some e)])
    ∧ (outcome = Forward e
       ∨ ∃ status message,
           outcome = Json status (ErrorBody message)
           ∧ (400 ≤ status < 500)%Z
           ∧ ∀ e' l', exn_name e' = exn_name e →
                      (on_error ep e' l').1 = inr outcome)
    ∧ (exn_name e ∉ [ "UsernameExistsException"; "InvalidPasswordException";
                      "NotAuthorizedException"; "UserNotConfirmedException";
                      "CodeMismatchException"; "ExpiredCodeException";
                      "UserNotFoundException" ] →
       outcome = Forward e).
Proof.
  destruct ep; unfold on_error;
    unfold Controllers.signUp, Controllers.signIn, verifyEmail, resendVerificationCode,
      forgotPassword, resetPassword, changePassword, refreshToken, signOut,
      getProfile, updateProfile, deleteAccount, listUsers, adminCreateUser,
      adminDeleteUser, try_catch, bind, throw, log_error, logger_error, ret, named;
    repeat case_bool_decide;
    eexists _, _; (split; [reflexivity|]); split;
    try (by left);
    try (right; eexists _, _; split; [reflexivity|]; split; [lia|];
         intros e' l' He'; unfold try_catch, bind, throw, log_error, ret, named;
         rewrite He'; repeat case_bool_decide; simpl; congruence);
    try done;
    rewrite !not_elem_of_cons; naive_solver.
Qed.

End GatewayFacts.

Section CommandFacts.
Import CognitoService CognitoCommands.
Context {sdk : CognitoSdk} {provider : CognitoClient}.
Variable config : Config.

Ltac run_service :=
  unfold perform, verifyEmail, resendVerificationCode, forgotPassword, resetPassword,
    changePassword, deleteUser, signOut, adminDeleteUser, getUser, adminCreateUser,
    refreshToken, updateProfile, try_catch, bind, client_send, info, error, throw, ret,
    logger_info, logger_error;
  simpl.

(** X17.  The service methods that wrap a single provider command
    ([verifyEmail], [resendVerificationCode], [forgotPassword],
    [resetPassword], [changePassword], [deleteUser], [signOut],
    [adminDeleteUser], [getUser], [adminCreateUser]) send exactly one
    command per call and never retry; a rejection is logged once and
    rethrown as the provider gave it; a success returns after at most one
    info line. *)
Theorem X17_one_command_per_call w :
  (∀ call, sends_one (perform config call) w)
  ∧ (∀ accessToken, sends_one (getUser accessToken) w)
  ∧ (∀ username email temporaryPassword sendEmail,
       sends_one (adminCreateUser config username email temporaryPassword sendEmail) w).
Proof.
  split_and!.
  - intros call. unfold sends_one. destruct call; run_service;
      (destruct (send _) as [e|out] eqn:Hsend; simpl;
       (eexists; split; [reflexivity|]); rewrite Hsend;
       [split; [done|by eexists] | split; [by eexists|right; by eexists]]).
  - intros accessToken. unfold sends_one. run_service.
    destruct (send _) as [e|out] eqn:Hsend; simpl;
      (eexists; split; [reflexivity|]); rewrite Hsend;
      [split; [done|by eexists] | split; [by eexists|by left]].
  - intros username email temporaryPassword sendEmail. unfold sends_one. run_service.
    destruct (send _) as [e|out] eqn:Hsend; simpl;
      (eexists; split; [reflexivity|]); rewrite Hsend;
      [split; [done|by eexists] | split; [by eexists|right; by eexists]].
Qed.

(** X18.  The secret hash goes out with the four commands that confirm or
    reset by username, and only with them: it is the HMAC of the username
    followed by the client id under the client secret, and is left out when
    no client secret is configured.  The token-based calls carry none, and
    neither does any command of [refreshToken], also when a client secret is
    configured. *)
Theorem X18_secret_hash_sent w :
  (∀ call, ∃ command,
     w_sent (perform config call w).2 = w_sent w ++ [command]
     ∧ secret_hash command
       = match call with
         | VerifyEmail u _ | ResendVerificationCode u | ForgotPassword u
         | ResetPassword u _ _ =>
             if bool_decide (cognito_clientSecret config = "") then None
             else or_undefined
                    (hmac_sha256_base64 (cognito_clientSecret config)
                       (u +:+ cognito_clientId config))
         | _ => None
         end)
  ∧ (∀ token, ∃ commands,
       w_sent (refreshToken config token w).2 = w_sent w ++ commands
       ∧ Forall (λ command, secret_hash command = None) commands).
Proof.
  split.
  - intros call. destruct call; run_service;
      (eexists; split;
       [destruct (send _); reflexivity
       |simpl; unfold calculateSecretHash, Js.truthy;
        repeat case_bool_decide; simpl; try done; try congruence]).
  - intros token. run_service.
    destruct (send _) as [e|out]; simpl.
    { eexists [_]. split; [reflexivity|]. by repeat constructor. }
    destruct (out_AuthenticationResult out) as [result|]; simpl.
    + exists [InitiateAuthCommand (cognito_clientId config) REFRESH_TOKEN_AUTH
                [("REFRESH_TOKEN", token)];
              GetUserCommand (t_accessToken result)].
      split; [|by repeat constructor].
      destruct (send _); simpl; by rewrite <- (assoc_L (++)).
    + eexists [_]. split; [reflexivity|]. by repeat constructor.
Qed.

(** X19.  [updateProfile] sends the fields that are present, empty strings
    included, each once and under its provider name, in one command; when
    no field is present it sends nothing, logs nothing and succeeds,
    whatever the access token. *)
Theorem X19_update_profile accessToken data w :
  let after := updateProfile accessToken data w in
  match up_firstName data, up_lastName data, up_phoneNumber data with
  | None, None, None => after = (inr tt, w)
  | _, _, _ =>
      ∃ attributes,
        w_sent after.2 = w_sent w ++ [UpdateUserAttributesCommand accessToken attributes]
        ∧ (∀ name value,
             mkAttribute name value ∈ attributes
             ↔ (name = "given_name" ∧ up_firstName data = Some value)
               ∨ (name = "family_name" ∧ up_lastName data = Some value)
               ∨ (name = "phone_number" ∧ up_phoneNumber data = Some value))
        ∧ NoDup (attr_Name <$> attributes)
        ∧ match send (UpdateUserAttributesCommand accessToken attributes) with
          | inl e =>
              after.1 = inl e
              ∧ w_log after.2
                = w_log w ++ [mkLog LError "Error updating user profile:" (Some e)]
          | inr _ =>
              after.1 = inr tt
              ∧ w_log after.2
                = w_log w ++ [mkLog LInfo "User profile updated successfully" None]
          end
  end.
Proof.
  intros after. subst after. destruct w as [l sent].
  destruct data as [[f|] [n|] [ph|]]; run_service; try done;
    (destruct (send _) as [e|out] eqn:Hsend; simpl;
     (eexists; split; [reflexivity|]); rewrite Hsend;
     (split;
      [intros name value; rewrite ?elem_of_cons, elem_of_nil; naive_solver
      |split; [|done]; simpl;
       repeat (apply NoDup_cons_2;
               [rewrite ?elem_of_cons, elem_of_nil; naive_solver|]);
       apply NoDup_nil_2])).
Qed.

(** X20.  [refreshToken] exchanges the refresh token and then fetches the
    user with the new access token.  The answer's refresh token is always
    the one the caller sent, whatever the provider returned; a success logs
    nothing; a response without an authentication result is the error
    [Token refresh failed] and the user is not fetched; each failure is
    logged once and rethrown. *)
Theorem X20_refresh_token token w :
  let after := refreshToken config token w in
  let exchange := InitiateAuthCommand (cognito_clientId config) REFRESH_TOKEN_AUTH
                    [("REFRESH_TOKEN", token)] in
  let failed e :=
    after.1 = inl e
    ∧ w_log after.2 = w_log w ++ [mkLog LError "Error refreshing token:" (Some e)] in
  match send exchange with
  | inl e => failed e ∧ w_sent after.2 = w_sent w ++ [exchange]
  | inr response =>
      match out_AuthenticationResult response with
      | None =>
          failed (Error "Token refresh failed")
          ∧ w_sent after.2 = w_sent w ++ [exchange]
      | Some result =>
          w_sent after.2
          = w_sent w ++ [exchange; GetUserCommand (t_accessToken result)]
          ∧ match send (GetUserCommand (t_accessToken result)) with
            | inl e => failed e
            | inr fetched =>
                ∃ user,
                  after.1
                  = inr (mkSignInResponse user
                           (mkTokens (t_accessToken result) (t_idToken result)
                              (Some token)))
                  ∧ u_username user = out_Username fetched
                  ∧ w_log after.2 = w_log w
            end
      end
  end.
Proof.
  intros after exchange failed. subst after exchange failed. run_service.
  destruct (send _) as [e|response]; simpl; [done|].
  destruct (out_AuthenticationResult response) as [result|]; simpl; [|done].
  destruct (send (GetUserCommand _)) as [e|fetched]; simpl.
  - by rewrite <- (assoc_L (++)).
  - split; [by rewrite <- (assoc_L (++))|]. by eexists.
Qed.

(** X21.  [adminCreateUser] creates the user with the email marked as
    verified and the temporary password given.  The provider's welcome
    message is suppressed unless [sendEmail] is explicitly [false]: both an
    absent [sendEmail] and [sendEmail = true] suppress it. *)
Theorem X21_admin_create_user username email temporaryPassword sendEmail w :
  ∃ action,
    w_sent (adminCreateUser config username email temporaryPassword sendEmail w).2
    = w_sent w
      ++ [AdminCreateUserCommand (cognito_userPoolId config) username
            [mkAttribute "email" email; mkAttribute "email_verified" "true"]
            temporaryPassword action]
    ∧ (action = Some SUPPRESS ↔ sendEmail ≠ Some false)
    ∧ (action = None ↔ sendEmail = Some false).
Proof.
  run_service. eexists. split.
  - destruct (send _); reflexivity.
  - destruct sendEmail as [[|]|]; simpl; naive_solver.
Qed.

End CommandFacts.

Section SettingsFacts.
Import EnvConfig.

Lemma startsWith_spec needle s :
  JsString.startsWith needle s = true ↔ ∃ post, s = needle +:+ post.
Proof.
  revert s. induction needle as [|a needle IH]; intros s; simpl.
  - split; [by exists s|done].
  - destruct s as [|b s]; simpl.
    + split; [done|]. by intros (? & ?).
    + rewrite andb_true_iff, bool_decide_eq_true, IH. split.
      * intros (-> & post & ->). by exists post.
      * intros (post & [= -> ->]). split; [done|]. by exists post.
Qed.

Lemma includes_spec needle s :
  JsString.includes needle s = true ↔ ∃ pre post, s = pre +:+ needle +:+ post.
Proof.
  induction s as [|c s IH]; simpl.
  - rewrite orb_false_r, startsWith_spec. split.
    + intros (post & Hs). by exists "", post.
    + intros (pre & post & Hs). destruct pre; [by exists post|done].
  - rewrite orb_true_iff, IH, startsWith_spec. split.
    + intros [(post & Hs) | (pre & post & ->)].
      * by exists "", post.
      * by exists (String c pre), post.
    + intros (pre & post & Hs). destruct pre as [|d pre]; simpl in Hs.
      * left. by exists post.
      * right. injection Hs as -> ->. by exists pre, post.
Qed.

Lemma filter_nil_Forall {A} (P : A → Prop) `{∀ x, Decision (P x)} (l : list A) :
  filter P l = [] ↔ Forall (λ x, ¬ P x) l.
Proof.
  induction l as [|x l IH].
  - split; [by constructor|done].
  - destruct (decide (P x)) as [Hx|Hx].
    + rewrite filter_cons_True by done. split; [done|]. by inversion 1.
    + rewrite filter_cons_False, IH by done. split; [by constructor|by inversion 1].
Qed.

Lemma validateConfig_ok env :
  validateConfig env = inr tt
  ↔ ∀ name, name ∈ requiredEnvVars → ∃ v, env !! name = Some v ∧ v ≠ "".
Proof.
  unfold validateConfig. simpl.
  set (missing := filter _ requiredEnvVars).
  assert (missing = [] ↔ ∀ name, name ∈ requiredEnvVars →
                                 ∃ v, env !! name = Some v ∧ v ≠ "") as <-.
  { subst missing. rewrite filter_nil_Forall, Forall_forall.
    apply forall_proper; intros name. apply forall_proper; intros _.
    unfold Js.truthy_opt, Js.truthy. destruct (env !! name) as [v|].
    - case_bool_decide; naive_solver.
    - split; [done|]. by intros (? & ? & _). }
  destruct missing; simpl; [done|]. by split.
Qed.

Lemma validateConfig_ext env env' :
  (∀ name, name ∈ requiredEnvVars → env !! name = env' !! name) →
  validateConfig env = validateConfig env'.
Proof.
  intros Hsame. unfold validateConfig.
  assert (∀ l : list string, (∀ name, name ∈ l → env !! name = env' !! name) →
               filter (λ varName, Js.truthy_opt (env !! varName) = false) l
               = filter (λ varName, Js.truthy_opt (env' !! varName) = false) l) as Hfilter.
  { induction l as [|x l IH]; intros Hl; [done|].
    rewrite !filter_cons, (Hl x) by (by left).
    rewrite IH; [done|]. intros name Hname. apply Hl. by right. }
  by rewrite (Hfilter _ Hsame).
Qed.

Lemma or_else_set env name fallback v :
  env !! name = Some v → v ≠ "" → or_else env name fallback = v.
Proof.
  intros Hv Hne. unfold or_else, Js.truthy. rewrite Hv.
  by rewrite bool_decide_eq_true_2.
Qed.

(** X22.  The server starts exactly when the five required variables are
    set to non-empty values, and then region, credentials, pool id and
    client id are the environment's own, no fallback.  Otherwise it logs
    one error naming the missing variables and exits with status 1.  The
    session secret is not among the required ones: without [SESSION_SECRET]
    the check gives the same verdict and the sessions are signed with the
    built-in default. *)
Theorem X22_required_settings env :
  (validateConfig env = inr tt
   ↔ ∀ name, name ∈ requiredEnvVars → ∃ v, env !! name = Some v ∧ v ≠ "")
  ∧ (validateConfig env = inr tt →
     (startServer env).1 = Listening (config env)
     ∧ env !! "AWS_REGION" = Some (aws_region (shared (config env)))
     ∧ env !! "AWS_ACCESS_KEY_ID" = Some (aws_accessKeyId (config env))
     ∧ env !! "AWS_SECRET_ACCESS_KEY" = Some (aws_secretAccessKey (config env))
     ∧ env !! "COGNITO_USER_POOL_ID" = Some (cognito_userPoolId (shared (config env)))
     ∧ env !! "COGNITO_CLIENT_ID" = Some (cognito_clientId (shared (config env))))
  ∧ (∀ e, validateConfig env = inl e →
          startServer env
          = (Exited 1, [mkLog LError "Failed to start server:" (Some e)])
          ∧ ∃ missing,
              e = Error ("Missing required environment variables: "
                           +:+ JsString.join ", " missing)
              ∧ missing ≠ []
              ∧ ∀ name, name ∈ missing
                        ↔ name ∈ requiredEnvVars
                          ∧ (env !! name = None ∨ env !! name = Some ""))
  ∧ (validateConfig (delete "SESSION_SECRET" env) = validateConfig env
     ∧ session_secret (config (delete "SESSION_SECRET" env))
       = "default-session-secret-change-in-production").
Proof.
  split; [apply validateConfig_ok|]. split_and!.
  - intros Hok. split; [unfold startServer; by rewrite Hok|].
    rewrite validateConfig_ok in Hok. unfold requiredEnvVars in Hok.
    assert (∀ name fallback, name ∈ requiredEnvVars →
                             env !! name = Some (or_else env name fallback)) as Hset.
    { intros name fallback Hname. destruct (Hok name Hname) as (v & Hv & Hne).
      by rewrite (or_else_set env name fallback v). }
    simpl. unfold requiredEnvVars in Hset.
    split_and!; apply Hset; rewrite !elem_of_cons; naive_solver.
  - intros e He. split; [unfold startServer; by rewrite He|].
    unfold validateConfig in He. simpl in He.
    set (missing := filter _ requiredEnvVars) in He.
    exists missing. case_bool_decide as Hlen; [|done]. injection He as <-.
    split; [done|]. split; [by destruct missing; [simpl in Hlen; lia|]|].
    intros name. subst missing. rewrite list_elem_of_filter.
    unfold Js.truthy_opt, Js.truthy. destruct (env !! name) as [v|].
    + case_bool_decide; naive_solver.
    + naive_solver.
  - apply validateConfig_ext. intros name Hname. apply lookup_delete_ne.
    intros <-. unfold requiredEnvVars in Hname.
    rewrite !elem_of_cons, elem_of_nil in Hname. naive_solver.
  - cbn [config session_secret]. unfold or_else.
    assert (delete "SESSION_SECRET" env !! "SESSION_SECRET" = None) as ->
      by apply lookup_delete_eq.
    done.
Qed.

(** X23.  The CORS policy.  A request without an origin is allowed; an
    origin is allowed exactly when it is empty, contains [localhost] or
    [127.0.0.1] anywhere in it, or is literally one of the configured
    entries: the comma-separated pieces of [ALLOWED_ORIGINS], untrimmed, or
    [http://localhost:3001] when the variable is not set.  Every other
    origin is refused with [Not allowed by CORS]. *)
Theorem X23_cors_origins env origin :
  let settings := config env in
  let within needle := ∃ pre post, origin = pre +:+ needle +:+ post in
  cors_origin settings None = inr true
  ∧ (cors_origin settings (Some origin) = inr true
     ↔ origin = "" ∨ within "localhost" ∨ within "127.0.0.1"
       ∨ match env !! "ALLOWED_ORIGINS" with
         | Some value => origin ∈ Js.split "," value
         | None => origin = "http://localhost:3001"
         end)
  ∧ (cors_origin settings (Some origin) = inr true
     ∨ cors_origin settings (Some origin) = inl (Error "Not allowed by CORS")).
Proof.
  intros settings within. split; [done|].
  assert (origin ∈ cors_allowedOrigins settings
          ↔ match env !! "ALLOWED_ORIGINS" with
            | Some value => origin ∈ Js.split "," value
            | None => origin = "http://localhost:3001"
            end) as Hlist.
  { subst settings. simpl. destruct (env !! "ALLOWED_ORIGINS"); [done|].
    by rewrite list_elem_of_singleton. }
  rewrite <- Hlist. unfold cors_origin, Js.truthy.
  pose proof (includes_spec "localhost" origin) as Hlocal.
  pose proof (includes_spec "127.0.0.1" origin) as Hloop.
  fold (within "localhost") in Hlocal. fold (within "127.0.0.1") in Hloop.
  case_bool_decide as Hempty; simpl; cycle 1.
  { split; [|by left]. split; [by left|done]. }
  destruct (JsString.includes "localhost" origin); simpl.
  { split; [|by left]. split; [|done]. intros _. right. left. by apply Hlocal. }
  destruct (JsString.includes "127.0.0.1" origin); simpl.
  { split; [|by left]. split; [|done]. intros _. do 2 right. left. by apply Hloop. }
  case_bool_decide as Hin.
  { split; [|by left]. split; [|done]. intros _. by do 3 right. }
  split; [|by right]. split; [done|].
  intros [?|[Hw|[Hw|?]]]; [done| | |done].
  - apply Hlocal in Hw. done.
  - apply Hloop in Hw. done.
Qed.

End SettingsFacts.

Section ScriptFacts.
Import BulkCreateUsers.
Context {api : Api}.
#[local] Open Scope nat_scope.

Lemma answer_next s ud j :
  answer (mkScript (requests s ++ [ud]) (console s)) ud j = answer s ud (S j).
Proof. unfold answer. simpl. by rewrite <- (assoc_L (++)). Qed.

Lemma answer_first s ud : answer s ud 0 = post (requests s) ud.
Proof. unfold answer. simpl. by rewrite app_nil_r. Qed.

Lemma attempts_S ud remaining s :
  attempts ud (S remaining) s
  = let s1 := mkScript (requests s ++ [ud]) (console s) in
    let retry message :=
      ((if bool_decide (remaining = 0)
        then print (FailedToCreate (username ud) message)
        else ret tt) ;;;
       if bool_decide (remaining = 0) then ret false
       else attempts ud remaining)%eff in
    match post (requests s) ud with
    | Created =>
        (inr true,
         mkScript (requests s ++ [ud])
           (console s ++ [CreatedUser (username ud) (email ud)]))
    | Rejected status None _ =>
        (inl (TypeError "Cannot read properties of undefined (reading 'message')"),
         s1)
    | Rejected status (Some m) statusText =>
        if bool_decide (status = 409%Z)
           || JsString.includes "UsernameExistsException"
                (if Js.truthy_opt m then default "" m else statusText)
        then (inr false,
              mkScript (requests s ++ [ud])
                (console s ++ [AlreadyExists (username ud)]))
        else retry (if Js.truthy_opt m then default "" m else statusText) s1
    | NoResponse message => retry message s1
    end.
Proof.
  cbn [attempts]. unfold bind at 1. unfold axios_post at 1. cbn beta iota zeta.
  destruct (post (requests s) ud) as [|status [m|] statusText|message]; try done.
  by destruct (_ || _).
Qed.

(** One run of the retry loop, by the answers it gets. *)
Lemma attempts_spec ud remaining s :
  ∃ k lines,
    k ≤ remaining
    ∧ requests (attempts ud remaining s).2 = requests s ++ replicate k ud
    ∧ console (attempts ud remaining s).2 = console s ++ lines
    ∧ (∀ j, S j < k → retryable (answer s ud j))
    ∧ match (attempts ud remaining s).1 with
      | inr true =>
          lines = [CreatedUser (username ud) (email ud)]
          ∧ ∃ j, k = S j ∧ answer s ud j = Created
      | inr false =>
          (lines = [AlreadyExists (username ud)]
           ∧ ∃ j, k = S j ∧ exists_already (answer s ud j))
          ∨ (k = remaining
             ∧ (∀ j, j < k → retryable (answer s ud j))
             ∧ (lines = [] ∧ k = 0
                ∨ ∃ message, lines = [FailedToCreate (username ud) message]))
      | inl e =>
          lines = []
          ∧ ∃ j status statusText,
              k = S j ∧ answer s ud j = Rejected status None statusText
      end.
Proof.
  revert s. induction remaining as [|remaining IH]; intros s.
  { exists 0, []. simpl. rewrite !app_nil_r. split_and!; try done; try lia.
    right. split_and!; [done|lia|by left]. }
  assert (∀ message,
            retryable (post (requests s) ud) →
            let m := ((if bool_decide (remaining = 0)
                       then print (FailedToCreate (username ud) message)
                       else ret tt) ;;;
                      if bool_decide (remaining = 0) then ret false
                      else attempts ud remaining)%eff
                       (mkScript (requests s ++ [ud]) (console s)) in
            ∃ k lines,
              k ≤ S remaining
              ∧ requests m.2 = requests s ++ replicate k ud
              ∧ console m.2 = console s ++ lines
              ∧ (∀ j, S j < k → retryable (answer s ud j))
              ∧ match m.1 with
                | inr true =>
                    lines = [CreatedUser (username ud) (email ud)]
                    ∧ ∃ j, k = S j ∧ answer s ud j = Created
                | inr false =>
                    (lines = [AlreadyExists (username ud)]
                     ∧ ∃ j, k = S j ∧ exists_already (answer s ud j))
                    ∨ (k = S remaining
                       ∧ (∀ j, j < k → retryable (answer s ud j))
                       ∧ (lines = [] ∧ k = 0
                          ∨ ∃ message, lines = [FailedToCreate (username ud) message]))
                | inl e =>
                    lines = []
                    ∧ ∃ j status statusText,
                        k = S j ∧ answer s ud j = Rejected status None statusText
                end) as Hretry.
  { intros message Hfirst m. subst m. unfold bind.
    case_bool_decide as Hlast.
    - subst remaining. exists 1, [FailedToCreate (username ud) message]. simpl.
      split_and!; try done; try lia.
      right. split_and!; [done| |by right; eexists].
      intros j Hj. assert (j = 0) as -> by lia. by rewrite answer_first.
    - simpl.
      destruct (IH (mkScript (requests s ++ [ud]) (console s)))
        as (k & lines & Hk & Hreq & Hcon & Hbefore & Hres).
      exists (S k), lines. simpl in Hreq, Hcon.
      split_and!; [lia|by rewrite Hreq, <- (assoc_L (++))|done| |].
      + intros [|j] Hj; [by rewrite answer_first|].
        rewrite <- answer_next. apply Hbefore. lia.
      + destruct (attempts ud remaining _).1 as [e|[|]].
        * destruct Hres as (Hl & j & status & statusText & -> & Hj).
          split; [done|]. exists (S j), status, statusText.
          by rewrite <- answer_next.
        * destruct Hres as (Hl & j & -> & Hj). split; [done|].
          exists (S j). by rewrite <- answer_next.
        * destruct Hres as [(Hl & j & -> & Hj) | (-> & Hall & Hl)].
          -- left. split; [done|]. exists (S j). by rewrite <- answer_next.
          -- right. split_and!; [done| |].
             ++ intros [|j] Hj; [by rewrite answer_first|].
                rewrite <- answer_next. apply Hall. lia.
             ++ destruct Hl as [[_ ->]|Hl]; [lia|by right]. }
  rewrite attempts_S. cbn zeta.
  destruct (post (requests s) ud) as [|status [m|] statusText|message] eqn:Hpost.
  - exists 1, [CreatedUser (username ud) (email ud)]. simpl.
    split_and!; try done; try lia. exists 0. by rewrite answer_first.
  - destruct (bool_decide (status = 409%Z)
              || JsString.includes "UsernameExistsException"
                   (if Js.truthy_opt m then default "" m else statusText)) eqn:Hexists.
    + exists 1, [AlreadyExists (username ud)]. simpl.
      split_and!; try done; try lia. left. split; [done|]. exists 0.
      rewrite answer_first, Hpost. split; [done|].
      exists status, m, statusText. split; [done|].
      apply orb_true_iff in Hexists as [Hs|Hm]; [left|by right].
      by apply bool_decide_eq_true in Hs.
    + apply (Hretry (if Js.truthy_opt m then default "" m else statusText)).
      split_and!; [done| |by intros ?? [=]].
      intros (status' & m' & statusText' & [= -> -> ->] & Hstop).
      apply orb_false_iff in Hexists as [Hs Hm].
      apply bool_decide_eq_false in Hs. destruct Hstop; congruence.
  - exists 1, []. simpl. rewrite app_nil_r. split_and!; try done; try lia.
    exists 0, status, statusText. by rewrite answer_first.
  - apply (Hretry message). split_and!; [done| |done].
    by intros (? & ? & ? & [=] & _).
Qed.

(** X24.  [createUser] posts the same request at most [retries] times (3
    by default) and stops at the first answer that is a success or says the
    user exists (status 409, or a message containing
    [UsernameExistsException]); every earlier answer was another failure.
    It returns [true] only for a success, prints at most one line, and
    throws only when an error response has no body. *)
Theorem X24_create_user_retries ud retries s :
  let after := createUser ud retries s in
  ∃ k lines,
    k ≤ default 3 retries
    ∧ requests after.2 = requests s ++ replicate k ud
    ∧ console after.2 = console s ++ lines
    ∧ length lines ≤ 1
    ∧ (∀ j, S j < k → retryable (answer s ud j))
    ∧ match after.1 with
      | inr true => ∃ j, k = S j ∧ answer s ud j = Created
      | inr false =>
          (∃ j, k = S j ∧ exists_already (answer s ud j))
          ∨ (k = default 3 retries ∧ ∀ j, j < k → retryable (answer s ud j))
      | inl e =>
          ∃ j status statusText,
            k = S j ∧ answer s ud j = Rejected status None statusText
      end.
Proof.
  intros after. subst after. unfold createUser.
  destruct (attempts_spec ud (default 3 retries) s)
    as (k & lines & Hk & Hreq & Hcon & Hbefore & Hres).
  exists k, lines. split_and!; try done.
  - destruct (attempts ud _ s).1 as [e|[|]].
    + destruct Hres as [-> _]. simpl. lia.
    + destruct Hres as [-> _]. simpl. lia.
    + destruct Hres as [[-> _] | (_ & _ & [[-> _] | [? ->]])]; simpl; lia.
  - destruct (attempts ud _ s).1 as [e|[|]].
    + by destruct Hres as [_ ?].
    + by destruct Hres as [_ ?].
    + destruct Hres as [[_ ?] | (? & ? & _)]; [by left|by right].
Qed.

Lemma create_each_spec domain shortName indices successCount failedCount s :
  (∀ history request status statusText,
     post history request ≠ Rejected status None statusText) →
  ∃ successCount' failedCount' s' new lines,
    create_each domain shortName indices successCount failedCount s
    = (inr (successCount', failedCount'), s')
    ∧ successCount' + failedCount' = successCount + failedCount + length indices
    ∧ requests s' = requests s ++ new
    ∧ length indices ≤ length new ≤ 3 * length indices
    ∧ console s' = console s ++ lines
    ∧ successCount' = successCount + length (filter is_created lines)
    ∧ failedCount + length (filter is_skipped lines) ≤ failedCount'.
Proof.
  intros Hbody. revert successCount failedCount s.
  induction indices as [|i indices IH]; intros successCount failedCount s.
  { exists successCount, failedCount, s, [], []. simpl. rewrite !app_nil_r.
    split_and!; try done; lia. }
  cbn [create_each]. unfold bind at 1. unfold createUser. simpl default.
  destruct (attempts_spec (userData domain shortName i) 3 s)
    as (k & lines1 & Hk & Hreq & Hcon & _ & Hres).
  destruct (attempts (userData domain shortName i) 3 s) as [[e|result] s1].
  { simpl in Hres. destruct Hres as (_ & j & status & statusText & _ & Hanswer).
    by destruct (Hbody _ _ _ _ Hanswer). }
  simpl in Hreq, Hcon, Hres.
  assert (1 ≤ k) as Hk1.
  { destruct result.
    - destruct Hres as (_ & j & -> & _). lia.
    - destruct Hres as [(_ & j & -> & _) | (-> & _)]; lia. }
  destruct result.
  - destruct Hres as (-> & _).
    destruct (IH (S successCount) failedCount s1)
      as (sc & fc & s' & new & lines & Hrun & Hsum & Hreq' & Hlen & Hcon' & Hsc & Hfc).
    exists sc, fc, s', (replicate k (userData domain shortName i) ++ new),
      ([CreatedUser (username (userData domain shortName i))
          (email (userData domain shortName i))] ++ lines).
    split_and!; try done;
      rewrite ?Hreq', ?Hreq, ?Hcon', ?Hcon, <- ?(assoc_L (++)), ?filter_app,
        ?length_app, ?length_replicate;
      simpl; try done; lia.
  - destruct (IH successCount (S failedCount) s1)
      as (sc & fc & s' & new & lines & Hrun & Hsum & Hreq' & Hlen & Hcon' & Hsc & Hfc).
    exists sc, fc, s', (replicate k (userData domain shortName i) ++ new),
      (lines1 ++ lines).
    assert (length (filter is_created lines1) = 0
            ∧ length (filter is_skipped lines1) ≤ 1) as [Hc Hs].
    { destruct Hres as [(-> & _) | (_ & _ & [[-> _] | [message ->]])];
        simpl; split; done || lia. }
    split_and!; try done;
      rewrite ?Hreq', ?Hreq, ?Hcon', ?Hcon, <- ?(assoc_L (++)), ?filter_app,
        ?length_app, ?length_replicate;
      simpl; try done; lia.
Qed.


End ScriptFacts.

Section ScriptExamples.
Import BulkCreateUsers.
#[local] Existing Instance demo_api.


End ScriptExamples.

Section GeneratedRequests.
Import Validators BulkCreateUsers.
Context {vjs : ValidatorJs}.
#[local] Open Scope nat_scope.

Lemma forallb_string_app p s q :
  forallb_string p (s +:+ q) = forallb_string p s && forallb_string p q.
Proof.
  induction s as [|c s IH]; simpl; [done|]. by rewrite IH, andb_assoc.
Qed.

Lemma pretty_N_char_digit x : is_digit (pretty_N_char x) = true.
Proof. unfold pretty_N_char. by repeat case_match. Qed.

Lemma pretty_N_go_digits x s :
  forallb_string is_digit (pretty_N_go x s) = forallb_string is_digit s.
Proof.
  revert s. induction (N.lt_wf_0 x) as [x _ IH]; intros s.
  destruct (decide (x = 0)%N) as [->|Hx]; [done|].
  rewrite pretty_N_go_step by lia.
  rewrite IH by (apply N.div_lt; lia). simpl.
  by rewrite pretty_N_char_digit.
Qed.

Lemma pretty_N_go_length k x s :
  (x < 10 ^ N.of_nat k)%N →
  String.length (pretty_N_go x s) ≤ String.length s + k.
Proof.
  revert x s. induction k as [|k IH]; intros x s Hx.
  - assert (x = 0%N) as -> by (simpl in Hx; lia). rewrite pretty_N_go_0. lia.
  - destruct (decide (x = 0)%N) as [->|Hx0]; [rewrite pretty_N_go_0; lia|].
    rewrite pretty_N_go_step by lia.
    assert (x `div` 10 < 10 ^ N.of_nat k)%N as Hdiv.
    { apply N.Div0.div_lt_upper_bound.
      rewrite Nat2N.inj_succ, N.pow_succ_r' in Hx. lia. }
    specialize (IH _ (String (pretty_N_char (x `mod` 10)) s) Hdiv).
    simpl in IH. lia.
Qed.

Lemma pretty_N_go_nonempty y s : s ≠ "" → pretty_N_go y s ≠ "".
Proof.
  revert s. induction (N.lt_wf_0 y) as [y _ IH]; intros s Hs.
  destruct (decide (y = 0)%N) as [->|Hy]; [done|].
  rewrite pretty_N_go_step by lia. apply IH; [apply N.div_lt; lia|done].
Qed.

Lemma pretty_index_digits (i : Z) :
  (0 ≤ i)%Z →
  forallb_string is_digit (pretty i) = true ∧ 1 ≤ String.length (pretty i).
Proof.
  intros Hi. destruct i as [|x|x]; [done| |lia].
  unfold pretty, pretty_Z, pretty, pretty_positive, pretty, pretty_N.
  rewrite decide_False by done. split; [by rewrite pretty_N_go_digits|].
  rewrite pretty_N_go_step by lia.
  pose proof (pretty_N_go_nonempty (N.pos x `div` 10)
                (String (pretty_N_char (N.pos x `mod` 10)) "")) as Hne.
  destruct (pretty_N_go _ _); [by destruct Hne|simpl; lia].
Qed.

Lemma pretty_index_length k (i : Z) :
  (0 ≤ i < 10 ^ Z.of_nat k)%Z → String.length (pretty i) ≤ Nat.max 1 k.
Proof.
  intros Hi. destruct i as [|x|x]; [simpl; lia| |lia].
  unfold pretty, pretty_Z, pretty, pretty_positive, pretty, pretty_N.
  rewrite decide_False by done.
  pose proof (pretty_N_go_length k (N.pos x) "") as Hlen. simpl in Hlen.
  assert (N.pos x < 10 ^ N.of_nat k)%N as Hx.
  { destruct Hi as [_ Hi]. 
    apply N2Z.inj_lt. rewrite N2Z.inj_pow, nat_N_Z. simpl. lia. }
  specialize (Hlen Hx). lia.
Qed.

Lemma errors_of_field field b :
  field = "firstName" ∨ field = "lastName" →
  errors_of field (signUpValidator b)
  = if bool_decide (field = "firstName")
    then run_chain "firstName" true
           (name_chain "First name must contain only letters") (b_firstName b)
    else run_chain "lastName" true
           (name_chain "Last name must contain only letters") (b_lastName b).
Proof.
  unfold signUpValidator. rewrite !errors_of_app, !errors_of_chain.
  intros [-> | ->]; simpl; by rewrite ?app_nil_r.
Qed.

(** X26.  The requests the script generates against the sign-up rules.  For
    every index from 0 up the fixed password and names pass; the username
    [johndoe<i><shortName>] passes exactly when the short name is made of
    letters and digits and, together with the digits of the index, has at
    most 13 characters.  So a short name with a hyphen or a dot makes every
    request of the run fail validation, and short names of up to 11
    characters are safe for indices below 100. *)
Theorem X26_generated_requests domain shortName (i : Z) :
  (0 ≤ i)%Z →
  let u := userData domain shortName i in
  let b := mkSignUpBody (Some (email u)) (Some (username u)) (Some (password u))
             (Some (firstName u)) (Some (lastName u)) (phoneNumber u) in
  let alphanumeric := forallb_string (λ c, is_digit c || is_upper c || is_lower c) in
  accepts "password" b = true
  ∧ accepts "firstName" b = true
  ∧ accepts "lastName" b = true
  ∧ (accepts "username" b = true
     ↔ alphanumeric shortName = true
       ∧ String.length (pretty i) + String.length shortName ≤ 13)
  ∧ (alphanumeric shortName = true → String.length shortName ≤ 11 →
     (i < 100)%Z → accepts "username" b = true).
Proof.
  intros Hi u b alphanumeric.
  destruct (pretty_index_digits i Hi) as [Hdigits Hlen].
  assert (accepts "username" b = true
          ↔ alphanumeric shortName = true
            ∧ String.length (pretty i) + String.length shortName ≤ 13) as Huser.
  { unfold accepts. rewrite bool_decide_eq_true, errors_of_username.
    subst b u. cbn [b_username userData username].
    rewrite run_chain_nil. unfold username_chain.
    rewrite !Forall_cons, Forall_nil. cbn [check].
    unfold isLength, isAlphanumeric.
    rewrite !andb_true_iff, !Nat.leb_le, bool_decide_eq_true.
    fold alphanumeric.
    change ("johndoe" +:+ pretty i +:+ shortName)
      with ("johndoe" +:+ (pretty i +:+ shortName)).
    unfold alphanumeric.
    rewrite !forallb_string_app, !string_length_app, !andb_true_iff.
    assert (forallb_string (λ c, is_digit c || is_upper c || is_lower c) (pretty i)
            = true) as Hpretty.
    { clear -Hdigits. induction (pretty i) as [|c s IH]; [done|]. simpl in *.
      apply andb_true_iff in Hdigits as [Hc Hs]. by rewrite Hc, IH. }
    rewrite Hpretty. simpl. split.
    - intros (Hle & (_ & _ & _ & Hshort) & _). split; [done|lia].
    - intros (Hshort & Hle). split_and!; try done; lia. }
  split_and!.
  - apply (accepts_password b DEFAULT_password eq_refl).
    split; [simpl; lia|reflexivity].
  - unfold accepts. by rewrite bool_decide_eq_true, errors_of_field by (by left).
  - unfold accepts. by rewrite bool_decide_eq_true, errors_of_field by (by right).
  - done.
  - intros Hshort Hle Hi100. apply Huser. split; [done|].
    pose proof (pretty_index_length 2 i) as Hbound.
    assert (String.length (pretty i) ≤ Nat.max 1 2) by (apply Hbound; lia). lia.
Qed.

End GeneratedRequests.

Section GeneratedRequestExamples.
Import Validators BulkCreateUsers.
#[local] Existing Instance demo_validator_js.

Lemma X26_generated_requests_witness :
  let u := userData "syneratech.com" "syneratech" 15 in
  accepts "username"
    (mkSignUpBody (Some (email u)) (Some (username u)) (Some (password u))
       (Some (firstName u)) (Some (lastName u)) (phoneNumber u)) = true.
Proof.
  intros u.
  destruct (X26_generated_requests "syneratech.com" "syneratech" 15)
    as (_ & _ & _ & _ & Hsafe).
  - done.
  - apply Hsafe; [reflexivity|simpl; lia|done].
Defined.

End GeneratedRequestExamples.

Section ProtectedRouteFacts.
Import AuthMiddleware Verifier CognitoService CognitoCommands ProtectedRoutes.
Context {pkgs : Packages} {sdk : CognitoSdk} {provider : CognitoClient}.

Ltac run_handler :=
  unfold handler, getProfile, deleteAccount, ProtectedRoutes.signOut,
    ProtectedRoutes.changePassword, getUser, deleteUser, CognitoCommands.signOut,
    CognitoCommands.changePassword, try_catch, bind, client_send, info, error,
    throw, ret;
  simpl.

(** A request the middleware lets through carries the token [jwt.verify]
    accepted. *)
Lemma authenticate_token now st req st' req' :
  authenticate now st req = (st', Next req') →
  ∃ token kid key payload,
    extractToken (authorization req) = Some token
    ∧ accessToken req' = Some token
    ∧ keyId token = Some kid
    ∧ pems_get (pems st) kid = Some key
    ∧ jwt_verify now token key = Calls (inr payload).
Proof.
  unfold authenticate, authentication_failed.
  destruct (extractToken (authorization req)) as [token|] eqn:Hx; [|done].
  destruct (Js.truthy token) eqn:Ht; simpl; [|done].
  destruct (jwt_decode token) as [e|[d|]] eqn:Hd; [done| |done].
  destruct (hdr_kid (jwt_header d)) as [kid|] eqn:Hkid; [|done].
  destruct (kid_truthy kid) eqn:Hk; simpl; [|done].
  destruct (pems_get (pems st) (kid_key kid)) as [key|] eqn:Hkey; [|done].
  destruct (key_truthy key) eqn:Htruthy; simpl; [|done].
  destruct (jwt_verify now token key) as [[err|payload]|error|] eqn:Hv; try done.
  intros [= <- <-]. exists token, (kid_key kid), key, payload.
  split_and!; try done. apply keyId_Some. by exists d, kid.
Qed.

Lemma authenticate_refuses now st req st' status error :
  authenticate now st req = (st', Respond status error) →
  status = 401%Z ∨ status = 500%Z.
Proof.
  unfold authenticate, authentication_failed.
  repeat match goal with
         | |- context [match ?x with _ => _ end] => destruct x; simpl
         end;
    intros [= <- <- <-]; auto.
Qed.

(** X27.  On the routes that chain [authenticate] directly to their handler
    (profile, account deletion, sign-out) the provider is contacted only
    for a request whose bearer token [jwt.verify] has accepted, with one
    command that carries exactly that token.  A request the middleware
    refuses is answered 401 or 500, one it leaves unanswered stays so, and
    in both cases nothing is sent.  The handler never lets an exception
    escape. *)
Theorem X27_protected_routes route now st req w :
  let '(st', answer, w') := guarded (handler route) now st req w in
  (w' = w
   ∧ (answer = Unanswered
      ∨ ∃ status error,
          answer = Refused status error ∧ (status = 401%Z ∨ status = 500%Z)))
  ∨ (∃ token kid key payload command outcome,
       extractToken (authorization req) = Some token
       ∧ keyId token = Some kid
       ∧ pems_get (pems st) kid = Some key
       ∧ jwt_verify now token key = Calls (inr payload)
       ∧ answer = Handled (inr outcome)
       ∧ w_sent w' = w_sent w ++ [command]
       ∧ access_token command = Some token).
Proof.
  unfold guarded.
  destruct (authenticate now st req) as [st' [status error|req'|]] eqn:Hauth.
  - left. split; [done|]. right. exists status, error. split; [done|].
    by apply (authenticate_refuses _ _ _ _ _ _ Hauth).
  - destruct (authenticate_token _ _ _ _ _ Hauth)
      as (token & kid & key & payload & Hx & Htoken & Hkid & Hkey & Hv).
    destruct (handler route req' w) as [result w'] eqn:Hrun.
    right. exists token, kid, key, payload.
    destruct route; revert Hrun; run_handler; rewrite Htoken;
      destruct (send _) as [e|out]; simpl; intros [= <- <-];
      eexists _, _; split_and!; try done; reflexivity.
  - left. split; [done|]. by left.
Qed.

(** X28.  [POST /api/auth/change-password] sends the change with the
    verified bearer token unless the request body has an [accessToken]
    member of its own: the body's value then replaces the verified token in
    the command, without having been verified. *)
Theorem X28_change_password_token body now st req st' req' w :
  authenticate now st req = (st', Next req') →
  ∃ used outcome,
    (ProtectedRoutes.changePassword body req' w).1 = inr outcome
    ∧ w_sent (ProtectedRoutes.changePassword body req' w).2
      = w_sent w ++ [ChangePasswordCommand used (body_previousPassword body)
                       (body_newPassword body)]
    ∧ used = match body_accessToken body with
             | Some other => Some other
             | None => extractToken (authorization req)
             end.
Proof.
  intros Hauth.
  destruct (authenticate_token _ _ _ _ _ Hauth)
    as (token & kid & key & payload & Hx & Htoken & _).
  run_handler. rewrite Htoken, Hx.
  destruct (send _) as [e|out]; simpl.
  - destruct (Controllers.named e "NotAuthorizedException");
      eexists _, _; split_and!; done.
  - eexists _, _; split_and!; done.
Qed.

End ProtectedRouteFacts.

Section ProtectedRouteExamples.
Import AuthMiddleware Verifier Gate GateExamples CognitoCommands ProtectedRoutes.
#[local] Existing Instance demo_packages.
#[local] Existing Instance Controllers.demo_sdk.
#[local] Existing Instance ProtectedRoutes.demo_client.

Lemma X28_change_password_token_witness :
  let verified := mkAuthRequest (Some "Bearer k2/bob/xxxxx/n2")
                    (Some (demo_payload "bob" "xxxxx"))
                    (Some "k2/bob/xxxxx/n2") in
  let body := mkChangePasswordBody (Some "someone-else") "Old1!aaaa" "New1!aaaa" in
  w_sent (ProtectedRoutes.changePassword body verified (mkWorld [] [])).2
  = [ChangePasswordCommand (Some "someone-else") "Old1!aaaa" "New1!aaaa"].
Proof.
  intros verified body.
  assert (authenticate 3 demo_loaded (bearer "k2/bob/xxxxx/n2")
          = (demo_loaded, Next verified)) as Hrun by (vm_compute; reflexivity).
  destruct (X28_change_password_token body 3 demo_loaded _ _ _ (mkWorld [] []) Hrun)
    as (used & outcome & _ & Hsent & ->).
  exact Hsent.
Defined.

End ProtectedRouteExamples.

Section SettingsExamples.
Import EnvConfig.

Lemma X22_required_settings_witness :
  (startServer demo_env).1 = Listening (config demo_env)
  ∧ demo_env !! "AWS_REGION" = Some (aws_region (shared (config demo_env)))
  ∧ session_secret (config (delete "SESSION_SECRET" demo_env))
    = "default-session-secret-change-in-production".
Proof.
  destruct (X22_required_settings demo_env) as (_ & Hok & _ & _ & Hsecret).
  destruct (Hok eq_refl) as (Hstart & Hregion & _).
  split_and!; [exact Hstart|exact Hregion|exact Hsecret].
Defined.

Lemma X23_cors_origins_witness :
  cors_origin (config demo_env) (Some "https://evil.example/?localhost") = inr true
  ∧ cors_origin (config demo_env) (Some "https://a.example") = inr true
  ∧ cors_origin (config demo_env) (Some "https://b.example") ≠ inr true.
Proof.
  split_and!.
  - apply (X23_cors_origins demo_env "https://evil.example/?localhost").
    right. left. by exists "https://evil.example/?", "".
  - apply (X23_cors_origins demo_env "https://a.example").
    do 3 right. simpl. by left.
  - intros Hallowed.
    apply (X23_cors_origins demo_env "https://b.example") in Hallowed
      as [?|[Hw|[Hw|Hin]]]; [done| | |].
    + by apply includes_spec in Hw.
    + by apply includes_spec in Hw.
    + change ("https://b.example" ∈ ["https://a.example"; " https://b.example"])
        in Hin.
      rewrite !elem_of_cons, elem_of_nil in Hin.
      destruct Hin as [?|[?|?]]; done.
Defined.

End SettingsExamples.
